(** * SchemaController: schema validation, persistence and modification

    A shallow embedding of [src/Controllers/SchemaController.js] and the
    properties of it that the specification states.

    Conventions of the embedding.
    - JSON-shaped JavaScript values are the inductive [JsVal].  Numbers are
      the integers among the JavaScript numbers ([Z]); no property below
      depends on arithmetic.
    - A JavaScript object is the list of its own properties in insertion
      order ([Props]); assignment to an existing key keeps its position,
      assignment to a new key appends, [delete] removes.  The runtime
      enumerates keys that are array indices before the others; no class
      or field name is of that form.  Properties inherited from
      [Object.prototype] are outside the model.
    - An exception or a rejection is a value of [Thrown]; code that may
      throw or reject returns [Res].
    - Asynchronous code is sequenced: a promise chain is a state-passing
      computation over the controller, the schema cache and the storage
      adapter, the last two being interfaces.  What several tasks do to
      one another is modelled where the source provides for it, in the
      sharing of a reload in flight ([Module Reload]). *)

From Stdlib Require Import String Ascii List Bool ZArith Lia DecimalString.
Import ListNotations.
Local Open Scope string_scope.
Local Open Scope list_scope.

#[local] Set Warnings "-register-all".

(* ================================================================= *)
(** ** JavaScript values *)

Inductive JsVal : Type :=
| JUndefined
| JNull
| JBool (b : bool)
| JNum (n : Z)
| JStr (s : string)
| JArr (elems : list JsVal)
| JObj (props : list (string * JsVal)).

Definition Props : Type := list (string * JsVal).

(** [!!v] *)
Definition truthy (v : JsVal) : bool :=
  match v with
  | JUndefined | JNull => false
  | JBool b => b
  | JNum n => negb (Z.eqb n 0)
  | JStr s => negb (String.eqb s "")
  | JArr _ | JObj _ => true
  end.

(** [typeof v === 'string'] *)
Definition is_string (v : JsVal) : bool :=
  match v with JStr _ => true | _ => false end.

(** [v === 'lit'] for a string literal *)
Definition is_str (lit : string) (v : JsVal) : bool :=
  match v with JStr s => String.eqb s lit | _ => false end.

(** [a === b].  Primitives compare by value.  Two arrays or objects are
    equal only when they are the same reference; every comparison in this
    file is between a value read from the stored schema and a value built
    from the request, which are distinct references. *)
Definition strict_eq (a b : JsVal) : bool :=
  match a, b with
  | JUndefined, JUndefined => true
  | JNull, JNull => true
  | JBool x, JBool y => Bool.eqb x y
  | JNum x, JNum y => Z.eqb x y
  | JStr x, JStr y => String.eqb x y
  | _, _ => false
  end.

(** [v != null] *)
Definition not_nullish (v : JsVal) : bool :=
  match v with JUndefined | JNull => false | _ => true end.

(** Own-property access on an object. *)
Fixpoint lookup (k : string) (o : Props) : option JsVal :=
  match o with
  | [] => None
  | (k', v) :: o' => if String.eqb k k' then Some v else lookup k o'
  end.

Definition has_key (k : string) (o : Props) : bool :=
  match lookup k o with Some _ => true | None => false end.

(** [o[k]] on an object *)
Definition oget (k : string) (o : Props) : JsVal :=
  match lookup k o with Some v => v | None => JUndefined end.

(** [delete o[k]] *)
Fixpoint odelete (k : string) (o : Props) : Props :=
  match o with
  | [] => []
  | (k', v) :: o' =>
      if String.eqb k k' then odelete k o' else (k', v) :: odelete k o'
  end.

(** [o[k] = v] *)
Fixpoint oset (k : string) (v : JsVal) (o : Props) : Props :=
  match o with
  | [] => [(k, v)]
  | (k', v') :: o' =>
      if String.eqb k k' then (k, v) :: o' else (k', v') :: oset k v o'
  end.

(** [{...a, ...b}] continued: copy the properties of [b] into [a]. *)
Definition ospread (a b : Props) : Props :=
  fold_left (fun acc kv => oset (fst kv) (snd kv) acc) b a.

(** [Object.keys(o)] *)
Definition okeys (o : Props) : list string := map fst o.

Definition string_of_nat (n : nat) : string :=
  NilEmpty.string_of_uint (Nat.to_uint n).

Definition string_of_Z (z : Z) : string :=
  NilEmpty.string_of_int (Z.to_int z).

Definition char_strings (s : string) : list JsVal :=
  map (fun c => JStr (String c EmptyString)) (list_ascii_of_string s).

(** Exceptions. [Parse.Error] carries a code and a message; the codes the
    source names symbolically stay symbolic, the ones it writes as numbers
    are [Code n]. *)
Inductive ErrCode : Type :=
| INVALID_JSON
| INCORRECT_TYPE
| INVALID_CLASS_NAME
| INVALID_KEY_NAME
| OPERATION_FORBIDDEN
| DUPLICATE_VALUE
| Code (n : Z).

Record ParseError : Type := mkError { code : ErrCode; message : string }.

Inductive Thrown : Type :=
| ParseErr (e : ParseError)   (* throw new Parse.Error(code, message) *)
| StrErr (s : string)         (* throw 'some string' *)
| TypeErr                     (* a TypeError of the runtime *)
| Undef.                      (* a rejection whose reason is undefined *)

Inductive Res (A : Type) : Type :=
| Ok (a : A)
| Throw (t : Thrown).
Arguments Ok {A} a.
Arguments Throw {A} t.

Definition rbind {A B} (r : Res A) (k : A -> Res B) : Res B :=
  match r with Ok a => k a | Throw t => Throw t end.

(** [v[k]] on any value: a TypeError on [undefined] and [null]; the index
    properties of arrays and strings; [undefined] for everything else that
    is not an own property. *)
Definition index_of_key (k : string) : option nat :=
  match NilEmpty.uint_of_string k with
  | Some u => if String.eqb (string_of_nat (Nat.of_uint u)) k
              then Some (Nat.of_uint u) else None
  | None => None
  end.

Definition vget (k : string) (v : JsVal) : Res JsVal :=
  match v with
  | JUndefined | JNull => Throw TypeErr
  | JObj o => Ok (oget k o)
  | JArr l =>
      match index_of_key k with
      | Some i => Ok (nth i l JUndefined)
      | None => Ok JUndefined
      end
  | JStr s =>
      match index_of_key k with
      | Some i => Ok (nth i (char_strings s) JUndefined)
      | None => Ok JUndefined
      end
  | JBool _ | JNum _ => Ok JUndefined
  end.

(** [Object.keys(v)] on any value *)
Definition vkeys (v : JsVal) : Res (list string) :=
  match v with
  | JUndefined | JNull => Throw TypeErr
  | JObj o => Ok (okeys o)
  | JArr l => Ok (map string_of_nat (seq 0 (List.length l)))
  | JStr s => Ok (map string_of_nat (seq 0 (String.length s)))
  | JBool _ | JNum _ => Ok []
  end.

(** String conversion as a template literal performs it.  The numbers
    of this model are the integers, printed with all their digits, as the
    source prints an integer below [1e21]; fractions and the exponent
    notation of larger numbers are not modelled. *)
Fixpoint to_js_string (v : JsVal) : string :=
  match v with
  | JUndefined => "undefined"
  | JNull => "null"
  | JBool true => "true"
  | JBool false => "false"
  | JNum n => string_of_Z n
  | JStr s => s
  | JArr l =>
      let elem x :=
        match x with JUndefined | JNull => "" | _ => to_js_string x end in
      String.concat "," (map elem l)
  | JObj _ => "[object Object]"
  end.

(* ================================================================= *)
(** ** Static tables *)

Definition ty (t : string) : JsVal := JObj [("type", JStr t)].
Definition ty_to (t c : string) : JsVal :=
  JObj [("type", JStr t); ("targetClass", JStr c)].

Definition defaultColumns : list (string * Props) :=
  [ ("_Default",
      [ ("objectId", ty "String"); ("createdAt", ty "Date");
        ("updatedAt", ty "Date"); ("ACL", ty "ACL") ]);
    ("_User",
      [ ("username", ty "String"); ("password", ty "String");
        ("email", ty "String"); ("emailVerified", ty "Boolean") ]);
    ("_Installation",
      [ ("installationId", ty "String"); ("deviceToken", ty "String");
        ("channels", ty "Array"); ("deviceType", ty "String");
        ("pushType", ty "String"); ("GCMSenderId", ty "String");
        ("timeZone", ty "String"); ("localeIdentifier", ty "String");
        ("badge", ty "Number"); ("appVersion", ty "String");
        ("appName", ty "String"); ("appIdentifier", ty "String");
        ("parseVersion", ty "String") ]);
    ("_Role",
      [ ("name", ty "String"); ("users", ty_to "Relation" "_User");
        ("roles", ty_to "Relation" "_Role") ]);
    ("_Session",
      [ ("restricted", ty "Boolean"); ("user", ty_to "Pointer" "_User");
        ("installationId", ty "String"); ("sessionToken", ty "String");
        ("expiresAt", ty "Date"); ("createdWith", ty "Object") ]);
    ("_Product",
      [ ("productIdentifier", ty "String"); ("download", ty "File");
        ("downloadName", ty "String"); ("icon", ty "File");
        ("order", ty "Number"); ("title", ty "String");
        ("subtitle", ty "String") ]);
    ("_PushStatus",
      [ ("pushTime", ty "String"); ("source", ty "String");
        ("query", ty "String"); ("payload", ty "String");
        ("title", ty "String"); ("expiry", ty "Number");
        ("status", ty "String"); ("numSent", ty "Number");
        ("numFailed", ty "Number"); ("pushHash", ty "String");
        ("errorMessage", ty "Object"); ("sentPerType", ty "Object");
        ("failedPerType", ty "Object") ]) ].

(** [defaultColumns[className]], [None] when the table has no such key *)
Fixpoint columns_of (className : string) (t : list (string * Props))
  : option Props :=
  match t with
  | [] => None
  | (c, cols) :: t' =>
      if String.eqb className c then Some cols else columns_of className t'
  end.

Definition defaultColumnsFor (className : string) : option Props :=
  columns_of className defaultColumns.

Definition defaultColumns_Default : Props :=
  match defaultColumnsFor "_Default" with Some c => c | None => [] end.

Definition requiredColumns : list (string * list string) :=
  [ ("_Product", ["productIdentifier"; "icon"; "order"; "title"; "subtitle"]);
    ("_Role", ["name"; "ACL"]) ].

Definition systemClasses : list string :=
  ["_User"; "_Installation"; "_Role"; "_Session"; "_Product"; "_PushStatus"].

Definition volatileClasses : list string :=
  ["_PushStatus"; "_Hooks"; "_GlobalConfig"].

(** [list.indexOf(s) > -1] and [list.includes(s)] on lists of strings *)
Definition str_mem (s : string) (l : list string) : bool :=
  existsb (String.eqb s) l.

(* ================================================================= *)
(** ** Inherited properties

    [this.data], [this.perms], the static tables and the field mappings
    are plain objects: a read [o[k]] that finds no own property [k] goes
    on to [Object.prototype]. *)

(** The properties of [Object.prototype] *)
Definition objectPrototypeKeys : list string :=
  [ "constructor"; "__defineGetter__"; "__defineSetter__"; "hasOwnProperty";
    "__lookupGetter__"; "__lookupSetter__"; "isPrototypeOf";
    "propertyIsEnumerable"; "toString"; "valueOf"; "__proto__";
    "toLocaleString" ].

Definition inherited (k : string) : bool := str_mem k objectPrototypeKeys.

(** [!!o[k]] on a plain object: an own property hides the inherited one;
    each property of [Object.prototype] is a function, and [__proto__]
    reads as the prototype itself, so an inherited value is truthy. *)
Definition truthy_at (k : string) (o : Props) : bool :=
  match lookup k o with
  | Some v => truthy v
  | None => inherited k
  end.

(** [Object.prototype[k].length == 0]: the functions of [Object.prototype]
    without a parameter.  [__proto__] reads as an object without a
    [length]. *)
Definition inheritedLengthIsZero (k : string) : bool :=
  str_mem k ["toString"; "valueOf"; "toLocaleString"].

(* ================================================================= *)
(** ** Regular expressions *)

Definition in_range (lo hi : nat) (c : ascii) : bool :=
  let n := nat_of_ascii c in Nat.leb lo n && Nat.leb n hi.

Definition is_upper : ascii -> bool := in_range 65 90.
Definition is_lower : ascii -> bool := in_range 97 122.
Definition is_digit : ascii -> bool := in_range 48 57.
(** [[A-Za-z]] *)
Definition is_alpha (c : ascii) : bool := is_upper c || is_lower c.
(** [[A-Za-z0-9]] *)
Definition is_alnum (c : ascii) : bool := is_alpha c || is_digit c.
(** [[A-Za-z0-9_]] *)
Definition is_word (c : ascii) : bool := is_alnum c || Ascii.eqb c "_".

Fixpoint all_chars (p : ascii -> bool) (s : string) : bool :=
  match s with
  | EmptyString => true
  | String c r => p c && all_chars p r
  end.

(** The remainder of [s] after its longest prefix of characters in [p]. *)
Fixpoint skip_while (p : ascii -> bool) (s : string) : string :=
  match s with
  | EmptyString => EmptyString
  | String c r => if p c then skip_while p r else s
  end.

(** The remainder of [s] after the literal [lit], if [s] starts with it. *)
Fixpoint strip_prefix (lit s : string) : option string :=
  match lit, s with
  | EmptyString, _ => Some s
  | String a lit', String b s' =>
      if Ascii.eqb a b then strip_prefix lit' s' else None
  | String _ _, EmptyString => None
  end.

(** Matching [[A-Za-z0-9_]+] at the head of [s].  The class is followed in
    [joinClassRegex] by a character outside it or by the end of the pattern,
    so only the longest run can lead to a match. *)
Definition words_plus (s : string) : option string :=
  match s with
  | String c r => if is_word c then Some (skip_while is_word r) else None
  | EmptyString => None
  end.

(** [/^[a-zA-Z0-9]{10}$/] *)
Definition userIdRegex (s : string) : bool :=
  Nat.eqb (String.length s) 10 && all_chars is_alnum s.

(** [/^role:.*/] *)
Definition roleRegex (s : string) : bool :=
  match strip_prefix "role:" s with Some _ => true | None => false end.

(** [/^\*$/] *)
Definition publicRegex (s : string) : bool := String.eqb s "*".

Definition permissionKeyRegex : list (string -> bool) :=
  [userIdRegex; roleRegex; publicRegex].

(** [/^_Join:[A-Za-z0-9_]+:[A-Za-z0-9_]+/] *)
Definition joinClassRegex (s : string) : bool :=
  match strip_prefix "_Join:" s with
  | None => false
  | Some r =>
      match words_plus r with
      | Some (String ":" r') =>
          match words_plus r' with Some _ => true | None => false end
      | _ => false
      end
  end.

(** [/^[A-Za-z][A-Za-z0-9_]*$/] *)
Definition classAndFieldRegex (s : string) : bool :=
  match s with
  | String c r => is_alpha c && all_chars is_word r
  | EmptyString => false
  end.

(* ================================================================= *)
(** ** Name validation *)

(** Valid fields must be alpha-numeric, and not start with an underscore
    or number. *)
Definition fieldNameIsValid (fieldName : string) : bool :=
  classAndFieldRegex fieldName.

Definition classNameIsValid (className : string) : bool :=
  str_mem className systemClasses
  || joinClassRegex className
  || fieldNameIsValid className.

(** Checks that it's not trying to clobber one of the default fields of
    the class.  Both reads of a field name go through the prototype of
    the column table.  [defaultColumns[className]] is read as an own
    property: for a class name that [Object.prototype] defines the source
    goes on to read the field name on a built-in function, which this
    model does not follow. *)
Definition fieldNameIsValidForClass (fieldName className : string) : bool :=
  if negb (fieldNameIsValid fieldName) then false
  else if truthy_at fieldName defaultColumns_Default then false
  else
    match defaultColumnsFor className with
    | Some cols => if truthy_at fieldName cols then false else true
    | None => true
    end.

Definition invalidClassNameMessage (className : string) : string :=
  "Invalid classname: " ++ className
  ++ ", classnames can only have alphanumeric characters and _, and must start with an alpha character ".

Definition invalidJsonError : ParseError := mkError INVALID_JSON "invalid JSON".

Definition validNonRelationOrPointerTypes : list string :=
  ["Number"; "String"; "Boolean"; "Date"; "Object"; "Array"; "GeoPoint"; "File"].

(** [list.includes(v)] for a list of string literals and any value [v] *)
Definition includes (l : list string) (v : JsVal) : bool :=
  match v with JStr s => str_mem s l | _ => false end.

(** Returns an error suitable for throwing if the type is invalid.  The
    argument is destructured as [{ type, targetClass }]. *)
Definition fieldTypeIsInvalid (decl : JsVal) : Res (option ParseError) :=
  rbind (vget "type" decl) (fun type =>
  rbind (vget "targetClass" decl) (fun targetClass =>
    if includes ["Pointer"; "Relation"] type then
      if negb (truthy targetClass) then
        Ok (Some (mkError (Code 135)
                    ("type " ++ to_js_string type ++ " needs a class name")))
      else
        match targetClass with
        | JStr c =>
            if negb (classNameIsValid c) then
              Ok (Some (mkError INVALID_CLASS_NAME (invalidClassNameMessage c)))
            else Ok None
        | _ => Ok (Some invalidJsonError)
        end
    else if negb (is_string type) then Ok (Some invalidJsonError)
    else if negb (includes validNonRelationOrPointerTypes type) then
      Ok (Some (mkError INCORRECT_TYPE
                  ("invalid field type: " ++ to_js_string type)))
    else Ok None)).

(* ================================================================= *)
(** ** Class-level permissions *)

Notation "x <- e ;; k" := (rbind e (fun x => k))
  (at level 61, e at next level, right associativity).

(** [list.forEach(f)] where [f] may throw *)
Fixpoint for_each {A} (f : A -> Res unit) (l : list A) : Res unit :=
  match l with
  | [] => Ok tt
  | x :: l' => _ <- f x ;; for_each f l'
  end.

Definition verifyPermissionKey (key : string) : Res unit :=
  let result :=
    fold_left (fun isGood regEx => isGood || regEx key)
              permissionKeyRegex false in
  if negb result then
    Throw (ParseErr (mkError INVALID_JSON
      ("'" ++ key ++ "' is not a valid key for class level permissions")))
  else Ok tt.

Definition CLPValidKeys : list string :=
  ["find"; "get"; "create"; "update"; "delete"; "addField";
   "readUserFields"; "writeUserFields"].

(** [v != 'lit'] negated, for a literal that is not numeric: a string is
    compared as it is, an array or object after conversion to a string. *)
Definition loose_eq_lit (lit : string) (v : JsVal) : bool :=
  match v with
  | JStr s => String.eqb s lit
  | JArr _ | JObj _ => String.eqb (to_js_string v) lit
  | _ => false
  end.

Definition validateCLP (perms : JsVal) (fields : Props) : Res unit :=
  if negb (truthy perms) then Ok tt
  else
    keys <- vkeys perms ;;
    for_each (fun operation =>
      if negb (str_mem operation CLPValidKeys) then
        Throw (ParseErr (mkError INVALID_JSON
          (operation ++ " is not a valid operation for class level permissions")))
      else
        entry <- vget operation perms ;;
        if String.eqb operation "readUserFields"
           || String.eqb operation "writeUserFields" then
          match entry with
          | JArr keys' =>
              for_each (fun key =>
                let f := oget (to_js_string key) fields in
                if negb (truthy f) then
                  Throw (ParseErr (mkError INVALID_JSON
                    ("'" ++ to_js_string key
                     ++ "' is not a valid column for class level pointer permissions "
                     ++ operation)))
                else
                  t <- vget "type" f ;;
                  c <- vget "targetClass" f ;;
                  if negb (loose_eq_lit "Pointer" t)
                     || negb (loose_eq_lit "_User" c) then
                    Throw (ParseErr (mkError INVALID_JSON
                      ("'" ++ to_js_string key
                       ++ "' is not a valid column for class level pointer permissions "
                       ++ operation)))
                  else Ok tt) keys'
          | _ =>
              Throw (ParseErr (mkError INVALID_JSON
                ("'" ++ to_js_string entry
                 ++ "' is not a valid value for class level permissions "
                 ++ operation)))
          end
        else
          keys' <- vkeys entry ;;
          for_each (fun key =>
            _ <- verifyPermissionKey key ;;
            perm <- vget key entry ;;
            if negb (strict_eq perm (JBool true)) then
              Throw (ParseErr (mkError INVALID_JSON
                ("'" ++ to_js_string perm
                 ++ "' is not a valid value for class level permissions "
                 ++ operation ++ ":" ++ key ++ ":" ++ to_js_string perm)))
            else Ok tt) keys') keys.

(* ================================================================= *)
(** ** Schemas and their two representations *)

Record Schema : Type := mkSchema {
  className : string;
  fields : Props;
  classLevelPermissions : JsVal
}.

Definition injectDefaultSchema (s : Schema) : Schema :=
  mkSchema (className s)
    (ospread
       (ospread defaultColumns_Default
          (match defaultColumnsFor (className s) with
           | Some cols => cols
           | None => []
           end))
       (fields s))
    (classLevelPermissions s).

Definition convertSchemaToAdapterSchema (schema : Schema) : Schema :=
  let schema := injectDefaultSchema schema in
  let f := odelete "ACL" (fields schema) in
  let f := oset "_rperm" (ty "Array") f in
  let f := oset "_wperm" (ty "Array") f in
  let f :=
    if String.eqb (className schema) "_User" then
      oset "_hashed_password" (ty "String") (odelete "password" f)
    else f in
  mkSchema (className schema) f (classLevelPermissions schema).

(** The source copies the schema shallowly and then edits the [fields]
    object it shares with its argument; the value returned is modelled. *)
Definition convertAdapterSchemaToParseSchema (schema : Schema) : Schema :=
  let f := odelete "_rperm" (fields schema) in
  let f := odelete "_wperm" f in
  let f := oset "ACL" (ty "ACL") f in
  let f :=
    if String.eqb (className schema) "_User" then
      oset "password" (ty "String")
        (odelete "_hashed_password" (odelete "authData" f))
    else f in
  mkSchema (className schema) f (classLevelPermissions schema).

(** A schema as the object [{ className, fields, classLevelPermissions }] *)
Definition schema_object (s : Schema) : JsVal :=
  JObj [ ("className", JStr (className s));
         ("fields", JObj (fields s));
         ("classLevelPermissions", classLevelPermissions s) ].

Definition VolatileClassesSchemas : list Schema :=
  map (fun className =>
         convertSchemaToAdapterSchema
           (injectDefaultSchema (mkSchema className [] (JObj []))))
      volatileClasses.

Definition dbTypeMatchesObjectType (dbType objectType : JsVal) : Res bool :=
  dt <- vget "type" dbType ;;
  ot <- vget "type" objectType ;;
  if negb (strict_eq dt ot) then Ok false
  else
    dc <- vget "targetClass" dbType ;;
    oc <- vget "targetClass" objectType ;;
    if negb (strict_eq dc oc) then Ok false
    else if strict_eq dbType ot then Ok true
    else if strict_eq dt ot then Ok true
    else Ok false.

(* ================================================================= *)
(** ** Classification of values *)

Definition notValid (tag : JsVal) : Thrown :=
  ParseErr (mkError INCORRECT_TYPE ("This is not a valid " ++ to_js_string tag)).

(** The [switch (obj.__type)] of [getObjectType].  Its cases have no
    [break]: a case whose test fails continues with the test of the next. *)
Definition typeSwitch (obj tag : JsVal) : Res JsVal :=
  let caseBytes :=
    b <- vget "base64" obj ;;
    if truthy b then Ok JUndefined else Throw (notValid tag) in
  let caseGeoPoint :=
    la <- vget "latitude" obj ;;
    lo <- vget "longitude" obj ;;
    if not_nullish la && not_nullish lo then Ok (JStr "GeoPoint")
    else caseBytes in
  let caseDate :=
    i <- vget "iso" obj ;;
    if truthy i then Ok (JStr "Date") else caseGeoPoint in
  let caseFile :=
    n <- vget "name" obj ;;
    if truthy n then Ok (JStr "File") else caseDate in
  let casePointer :=
    c <- vget "className" obj ;;
    if truthy c then Ok (JObj [("type", JStr "Pointer"); ("targetClass", c)])
    else caseFile in
  if is_str "Pointer" tag then casePointer
  else if is_str "File" tag then caseFile
  else if is_str "Date" tag then caseDate
  else if is_str "GeoPoint" tag then caseGeoPoint
  else if is_str "Bytes" tag then caseBytes
  else Throw (notValid tag).

(** [getObjectType] calls itself on [obj['$ne']] and on [obj.ops[0]], which
    lie inside [obj]; [fuel] bounds the depth of these calls, and
    [getObjectType] below supplies enough of it. *)
Fixpoint getObjectType_fuel (fuel : nat) (obj : JsVal) : option (Res JsVal) :=
  match fuel with
  | O => None
  | S fuel' =>
      match obj with
      | JArr _ => Some (Ok (JStr "Array"))
      | _ =>
          match vget "__type" obj with
          | Throw t => Some (Throw t)
          | Ok tag =>
              if truthy tag then Some (typeSwitch obj tag)
              else
                match vget "$ne" obj with
                | Throw t => Some (Throw t)
                | Ok ne =>
                    if truthy ne then getObjectType_fuel fuel' ne
                    else
                      match vget "__op" obj with
                      | Throw t => Some (Throw t)
                      | Ok op =>
                          if negb (truthy op) then Some (Ok (JStr "Object"))
                          else if is_str "Increment" op then
                            Some (Ok (JStr "Number"))
                          else if is_str "Delete" op then Some (Ok JNull)
                          else if is_str "Add" op || is_str "AddUnique" op
                                  || is_str "Remove" op then
                            Some (Ok (JStr "Array"))
                          else if is_str "AddRelation" op
                                  || is_str "RemoveRelation" op then
                            Some (objects <- vget "objects" obj ;;
                                  first <- vget "0" objects ;;
                                  c <- vget "className" first ;;
                                  Ok (JObj [("type", JStr "Relation");
                                            ("targetClass", c)]))
                          else if is_str "Batch" op then
                            match (ops <- vget "ops" obj ;; vget "0" ops) with
                            | Throw t => Some (Throw t)
                            | Ok first => getObjectType_fuel fuel' first
                            end
                          else
                            Some (Throw (StrErr
                              ("unexpected op: " ++ to_js_string op)))
                      end
                end
          end
      end
  end.

Fixpoint size (v : JsVal) : nat :=
  match v with
  | JArr l => S (fold_right (fun x n => size x + n) 0 l)
  | JObj o => S (fold_right (fun kv n => size (snd kv) + n) 0 o)
  | _ => 1
  end.

Definition getObjectType (obj : JsVal) : Res JsVal :=
  match getObjectType_fuel (S (size obj)) obj with
  | Some r => r
  | None => Throw TypeErr
  end.

(** Gets the type from a REST API formatted object.  The cases [function]
    and [symbol] of the source have no JSON-shaped value. *)
Definition getType (obj : JsVal) : Res JsVal :=
  match obj with
  | JBool _ => Ok (JStr "Boolean")
  | JStr _ => Ok (JStr "String")
  | JNum _ => Ok (JStr "Number")
  | JNull => Ok JUndefined
  | JArr _ | JObj _ => getObjectType obj
  | JUndefined => Throw (StrErr ("bad obj: " ++ to_js_string obj))
  end.

(* ================================================================= *)
(** ** The collaborators *)

(** The storage adapter: each call answers with a result or a rejection
    and leaves the store in a new state. *)
Class StorageAdapter (DB : Type) : Type := {
  db_getAllClasses : DB -> Res (list Schema) * DB;
  db_getClass : string -> DB -> Res Schema * DB;
  db_createClass : string -> Schema -> DB -> Res Schema * DB;
  db_addFieldIfNotExists : string -> string -> JsVal -> DB -> Res unit * DB;
  db_deleteFields : string -> Schema -> list string -> DB -> Res unit * DB;
  db_deleteClass : string -> DB -> Res unit * DB;
  db_setClassLevelPermissions : string -> JsVal -> DB -> Res unit * DB
}.

(** The schema cache: a miss is an absent result, never a rejection. *)
Class SchemaCache (C : Type) : Type := {
  cache_getAllClasses : C -> option (list Schema) * C;
  cache_getOneSchema : string -> C -> option Schema * C;
  cache_setAllClasses : list Schema -> C -> C;
  cache_setOneSchema : string -> Schema -> C -> C;
  cache_clear : C -> C
}.

(** The controller ([data], [perms]) with its cache and its adapter. *)
Record World (DB C : Type) : Type := mkWorld {
  data : Props;
  perms : Props;
  cache : C;
  db : DB
}.
Arguments mkWorld {DB C} data perms cache db.
Arguments data {DB C} w.
Arguments perms {DB C} w.
Arguments cache {DB C} w.
Arguments db {DB C} w.

(** ** The controller *)
Section Controller.

Context {DB C : Type} {adapter : StorageAdapter DB} {schemaCache : SchemaCache C}.

(** A promise chain of one task: it runs on the world and settles. *)
Definition M (A : Type) : Type := World DB C -> Res A * World DB C.

Definition ret {A} (a : A) : M A := fun w => (Ok a, w).
Definition throw {A} (t : Thrown) : M A := fun w => (Throw t, w).
Definition lift {A} (r : Res A) : M A := fun w => (r, w).

(** [p.then(k)] *)
Definition mbind {A B} (m : M A) (k : A -> M B) : M B :=
  fun w =>
    match m w with
    | (Ok a, w') => k a w'
    | (Throw t, w') => (Throw t, w')
    end.

(** [p.then(k, h)]: [h] sees a rejection of [p], not one of [k] *)
Definition mthen {A B} (m : M A) (k : A -> M B) (h : Thrown -> M B) : M B :=
  fun w =>
    match m w with
    | (Ok a, w') => k a w'
    | (Throw t, w') => h t w'
    end.

(** [p.catch(h)] *)
Definition mcatch {A} (m : M A) (h : Thrown -> M A) : M A :=
  fun w =>
    match m w with
    | (Ok a, w') => (Ok a, w')
    | (Throw t, w') => h t w'
    end.

Notation "'let!' x ':=' m 'in' k" := (mbind m (fun x => k))
  (at level 10, x name, m at level 100, k at level 200).
Notation "m '>>' k" := (mbind m (fun _ => k))
  (at level 62, right associativity).

Definition set_data (d : Props) : M unit :=
  fun w => (Ok tt, mkWorld d (perms w) (cache w) (db w)).
Definition set_perms (p : Props) : M unit :=
  fun w => (Ok tt, mkWorld (data w) p (cache w) (db w)).
Definition get_data : M Props := fun w => (Ok (data w), w).
Definition get_perms : M Props := fun w => (Ok (perms w), w).

(** A call of the storage adapter *)
Definition call_db {A} (op : DB -> Res A * DB) : M A :=
  fun w =>
    let (r, d) := op (db w) in (r, mkWorld (data w) (perms w) (cache w) d).

(** A read of the schema cache *)
Definition read_cache {A} (op : C -> A * C) : M A :=
  fun w =>
    let (a, c) := op (cache w) in (Ok a, mkWorld (data w) (perms w) c (db w)).

(** An update of the schema cache *)
Definition write_cache (op : C -> C) : M unit :=
  fun w => (Ok tt, mkWorld (data w) (perms w) (op (cache w)) (db w)).

Definition when (b : bool) (m : M unit) : M unit := if b then m else ret tt.

Definition getAllClasses (clearCache : bool) : M (list Schema) :=
  when clearCache (write_cache cache_clear) >>
  let! allClasses := read_cache cache_getAllClasses in
  let fromAdapter :=
    let! allSchemas := call_db db_getAllClasses in
    let allSchemas := map injectDefaultSchema allSchemas in
    write_cache (cache_setAllClasses allSchemas) >>
    ret allSchemas in
  match allClasses with
  | Some (s :: l) => if negb clearCache then ret (s :: l) else fromAdapter
  | _ => fromAdapter
  end.

(** The body of the callback of [reloadData]: the view is filled from the
    schemas, then the in-memory classes are injected, each as its whole
    schema object. *)
Definition fillView (allSchemas : list Schema) : M unit :=
  fun w =>
    let d :=
      fold_left (fun d schema =>
                   oset (className schema)
                        (JObj (fields (injectDefaultSchema schema))) d)
                allSchemas (data w) in
    let p :=
      fold_left (fun p schema =>
                   oset (className schema) (classLevelPermissions schema) p)
                allSchemas (perms w) in
    let d :=
      fold_left (fun d className =>
                   oset className
                        (schema_object
                           (injectDefaultSchema
                              (mkSchema className [] (JObj [])))) d)
                volatileClasses d in
    (Ok tt, mkWorld d p (cache w) (db w)).

(** [reloadData] as one task runs it: no reload of this task is in flight
    when it calls, so [reloadDataPromise] is unset; the sharing of a reload
    in flight between tasks is the subject of [Module Reload]. *)
Definition reloadData (clearCache : bool) : M unit :=
  when clearCache (write_cache cache_clear) >>
  set_data [] >>
  set_perms [] >>
  let! allSchemas := getAllClasses clearCache in
  fillView allSchemas.

(** [getOneSchema(className, false, options)]: the shortcut for volatile
    classes needs [allowVolatileClasses], which no caller in this file sets. *)
Definition getOneSchema (className : string) (clearCache : bool) : M Schema :=
  when clearCache (write_cache cache_clear) >>
  let! cached := read_cache (cache_getOneSchema className) in
  let fromAdapter :=
    let! result := call_db (db_getClass className) in
    let result := injectDefaultSchema result in
    write_cache (cache_setOneSchema className result) >>
    ret result in
  match cached with
  | Some s => if negb clearCache then ret s else fromAdapter
  | None => fromAdapter
  end.

(** The first loop of [validateSchemaData] *)
Fixpoint checkNewFields (className : string) (existingFieldNames : list string)
  (fields : Props) : Res (option ParseError) :=
  match fields with
  | [] => Ok None
  | (fieldName, decl) :: rest =>
      if negb (str_mem fieldName existingFieldNames) then
        if negb (fieldNameIsValid fieldName) then
          Ok (Some (mkError INVALID_KEY_NAME
                      ("invalid field name: " ++ fieldName)))
        else if negb (fieldNameIsValidForClass fieldName className) then
          Ok (Some (mkError (Code 136)
                      ("field " ++ fieldName ++ " cannot be added")))
        else
          error <- fieldTypeIsInvalid decl ;;
          match error with
          | Some e => Ok (Some e)
          | None => checkNewFields className existingFieldNames rest
          end
      else checkNewFields className existingFieldNames rest
  end.

Definition isGeoPointField (kv : string * JsVal) : bool :=
  truthy (snd kv)
  && match vget "type" (snd kv) with
     | Ok t => is_str "GeoPoint" t
     | Throw _ => false
     end.

(** [validateSchemaData] writes into the [fields] object it is given: the
    second component of the result is that object when the call ends. *)
Definition validateSchemaData (className : string) (fields : Props)
  (classLevelPermissions : JsVal) (existingFieldNames : list string)
  : Res (option ParseError) * Props :=
  match checkNewFields className existingFieldNames fields with
  | Throw t => (Throw t, fields)
  | Ok (Some e) => (Ok (Some e), fields)
  | Ok None =>
      let fields :=
        match defaultColumnsFor className with
        | Some cols =>
            fold_left (fun f kv => oset (fst kv) (snd kv) f) cols fields
        | None => fields
        end in
      let geoPoints := okeys (filter isGeoPointField fields) in
      match geoPoints with
      | g0 :: g1 :: _ =>
          (Ok (Some (mkError INCORRECT_TYPE
             ("currently, only one GeoPoint field may exist in an object. Adding "
              ++ g1 ++ " when " ++ g0 ++ " already exists."))), fields)
      | _ =>
          (_ <- validateCLP classLevelPermissions fields ;; Ok None, fields)
      end
  end.

Definition validateNewClass (data : Props) (className : string)
  (fields : Props) (classLevelPermissions : JsVal)
  : Res (option ParseError) * Props :=
  if truthy_at className data then
    (Throw (ParseErr (mkError INVALID_CLASS_NAME
              ("Class " ++ className ++ " already exists."))), fields)
  else if negb (classNameIsValid className) then
    (Ok (Some (mkError INVALID_CLASS_NAME (invalidClassNameMessage className))),
     fields)
  else validateSchemaData className fields classLevelPermissions [].

Definition addClassIfNotExists (className : string) (fields : Props)
  (classLevelPermissions : JsVal) : M Schema :=
  let! d := get_data in
  let (validationError, fields) :=
    validateNewClass d className fields classLevelPermissions in
  let! validationError := lift validationError in
  match validationError with
  | Some e => throw (ParseErr e)
  | None =>
      mcatch
        (let! created :=
           call_db (db_createClass className
                      (convertSchemaToAdapterSchema
                         (mkSchema className fields classLevelPermissions))) in
         let res := convertAdapterSchemaToParseSchema created in
         write_cache cache_clear >>
         ret res)
        (fun error =>
           match error with
           | ParseErr e =>
               match code e with
               | DUPLICATE_VALUE =>
                   throw (ParseErr (mkError INVALID_CLASS_NAME
                            ("Class " ++ className ++ " already exists.")))
               | _ => throw error
               end
           | _ => throw error
           end)
  end.

Definition enforceClassExists (className : string) : M unit :=
  let! d := get_data in
  if truthy_at className d then ret tt
  else
    mcatch
      (mcatch
         (addClassIfNotExists className [] JUndefined >> reloadData true)
         (fun _ => reloadData true)
       >>
       let! d := get_data in
       if truthy_at className d then ret tt
       else throw (ParseErr (mkError INVALID_JSON
                     ("Failed to add " ++ className))))
      (fun _ =>
         throw (ParseErr (mkError INVALID_JSON
                  "schema class name does not revalidate"))).

(** Sets the Class-level permissions for a given className, which must
    exist. *)
Definition setPermissions (className : string) (perms : JsVal)
  (newSchema : Props) : M unit :=
  match perms with
  | JUndefined => ret tt
  | _ =>
      lift (validateCLP perms newSchema) >>
      call_db (db_setClassLevelPermissions className perms) >>
      reloadData true
  end.

(** Returns the expected type for a className+key combination or
    undefined if the schema is not set.  Both names are read as own
    properties: for a name that [Object.prototype] defines and the view
    does not, the source finds a built-in function, which the values of
    this model do not include. *)
Definition getExpectedType (d : Props) (className fieldName : string) : JsVal :=
  let cls := oget className d in
  if truthy cls then
    match vget fieldName cls with
    | Ok expectedType =>
        if is_str "map" expectedType then JStr "Object" else expectedType
    | Throw _ => JUndefined
    end
  else JUndefined.

(** [s.indexOf('.') > 0] *)
Fixpoint has_inner_dot (first : bool) (s : string) : bool :=
  match s with
  | EmptyString => false
  | String c r => if Ascii.eqb c "." then negb first else has_inner_dot false r
  end.

(** [s.split('.')[0]] *)
Fixpoint before_dot (s : string) : string :=
  match s with
  | EmptyString => EmptyString
  | String c r => if Ascii.eqb c "." then EmptyString else String c (before_dot r)
  end.

Definition schemaMismatch (className fieldName : string)
  (expectedType type : JsVal) : Res Thrown :=
  et <- vget "type" expectedType ;;
  tt' <- vget "type" type ;;
  Ok (ParseErr (mkError INCORRECT_TYPE
        ("schema mismatch for " ++ className ++ "." ++ fieldName
         ++ "; expected "
         ++ to_js_string (if truthy et then et else expectedType)
         ++ " but got " ++ to_js_string tt'))).

Definition enforceFieldExists (className fieldName : string) (type : JsVal)
  : M unit :=
  let dotted := has_inner_dot true fieldName in
  let fieldName := if dotted then before_dot fieldName else fieldName in
  let type := if dotted then JStr "Object" else type in
  if negb (fieldNameIsValid fieldName) then
    throw (ParseErr (mkError INVALID_KEY_NAME
             ("Invalid field name: " ++ fieldName ++ ".")))
  else if negb (truthy type) then ret tt
  else
    reloadData false >>
    let! d := get_data in
    let expectedType := getExpectedType d className fieldName in
    let type :=
      match type with JStr _ => JObj [("type", type)] | _ => type end in
    if truthy expectedType then
      let! matches := lift (dbTypeMatchesObjectType expectedType type) in
      if negb matches then
        let! e := lift (schemaMismatch className fieldName expectedType type) in
        throw e
      else ret tt
    else
      mthen (call_db (db_addFieldIfNotExists className fieldName type))
        (fun _ => reloadData true)
        (fun _ => reloadData true)
      >>
      let! d := get_data in
      let! matches :=
        lift (dbTypeMatchesObjectType
                (getExpectedType d className fieldName) type) in
      if negb matches then
        throw (ParseErr (mkError INVALID_JSON
                 ("Could not add field " ++ fieldName)))
      else write_cache cache_clear.

(** A property of a value that is known to be neither undefined nor null *)
Definition prop (k : string) (v : JsVal) : JsVal :=
  match vget k v with Ok x => x | Throw _ => JUndefined end.

(** Delete a field, and remove that data from all objects.  The [database]
    argument of the source is the adapter of the controller. *)
Definition deleteField (fieldName className : string) : M unit :=
  if negb (classNameIsValid className) then
    throw (ParseErr (mkError INVALID_CLASS_NAME
             (invalidClassNameMessage className)))
  else if negb (fieldNameIsValid fieldName) then
    throw (ParseErr (mkError INVALID_KEY_NAME
             ("invalid field name: " ++ fieldName)))
  else if negb (fieldNameIsValidForClass fieldName className) then
    throw (ParseErr (mkError (Code 136)
             ("field " ++ fieldName ++ " cannot be changed")))
  else
    let! schema :=
      mcatch (getOneSchema className true)
        (fun error =>
           match error with
           | Undef =>
               throw (ParseErr (mkError INVALID_CLASS_NAME
                        ("Class " ++ className ++ " does not exist.")))
           | _ => throw error
           end) in
    let f := oget fieldName (fields schema) in
    if negb (truthy f) then
      throw (ParseErr (mkError (Code 255)
               ("Field " ++ fieldName ++ " does not exist, cannot delete.")))
    else
      (if loose_eq_lit "Relation" (prop "type" f) then
         call_db (db_deleteFields className schema [fieldName]) >>
         call_db (db_deleteClass ("_Join:" ++ fieldName ++ ":" ++ className))
       else call_db (db_deleteFields className schema [fieldName]))
      >> write_cache cache_clear.

(** [typeof v === 'object'] *)
Definition is_object (v : JsVal) : bool :=
  match v with JNull | JArr _ | JObj _ => true | _ => false end.

Fixpoint requiredColumnsFor (className : string)
  (t : list (string * list string)) : option (list string) :=
  match t with
  | [] => None
  | (c, cols) :: t' =>
      if String.eqb className c then Some cols
      else requiredColumnsFor className t'
  end.

(** The filter of [validateRequiredColumns] *)
Definition isMissingColumn (object : Props) (query : JsVal) (column : string)
  : bool :=
  if truthy query && truthy (prop "objectId" query) then
    let v := oget column object in
    if truthy v && is_object v then loose_eq_lit "Delete" (prop "__op" v)
    else false
  else negb (truthy (oget column object)).

(** Validates that all the properties are set for the object.  For a
    class name that [Object.prototype] defines, [requiredColumns[className]]
    is the inherited value: with a [length] of zero the source returns as
    for an empty list; otherwise it calls [columns.filter], which is not a
    function. *)
Definition validateRequiredColumns (className : string) (object : Props)
  (query : JsVal) : Res unit :=
  match requiredColumnsFor className requiredColumns with
  | None =>
      if inherited className && negb (inheritedLengthIsZero className)
      then Throw TypeErr else Ok tt
  | Some [] => Ok tt
  | Some columns =>
      match filter (isMissingColumn object query) columns with
      | missing :: _ =>
          Throw (ParseErr (mkError INCORRECT_TYPE (missing ++ " is required.")))
      | [] => Ok tt
      end
  end.

(** How the loop of [validateObject] ends *)
Inductive LoopEnd : Type :=
| Finished                 (* every field was looked at *)
| TooManyGeoPoints         (* [geocount > 1] *)
| Thrown_ (t : Thrown).    (* [getType] threw *)

(** The loop of [validateObject]: the calls of [enforceFieldExists] it
    chains, in order, and how it ends. *)
Fixpoint scanObject (geocount : nat) (object : Props)
  : list (string * JsVal) * LoopEnd :=
  match object with
  | [] => ([], Finished)
  | (fieldName, v) :: rest =>
      if strict_eq v JUndefined then scanObject geocount rest
      else
        match getType v with
        | Throw t => ([], Thrown_ t)
        | Ok expected =>
            let geocount :=
              if is_str "GeoPoint" expected then S geocount else geocount in
            if Nat.ltb 1 geocount then ([], TooManyGeoPoints)
            else if negb (truthy expected) then scanObject geocount rest
            else if String.eqb fieldName "ACL" then scanObject geocount rest
            else
              let (steps, e) := scanObject geocount rest in
              ((fieldName, expected) :: steps, e)
        end
  end.

Fixpoint enforceFields (className : string) (steps : list (string * JsVal))
  : M unit :=
  match steps with
  | [] => ret tt
  | (fieldName, expected) :: rest =>
      enforceFieldExists className fieldName expected >>
      enforceFields className rest
  end.

Definition geoPointError : Thrown :=
  ParseErr (mkError INCORRECT_TYPE
              "there can only be one geopoint field in a class").

(** Validates an object provided in REST format.  The loop runs at once
    and only chains work onto the promise of [enforceClassExists]; the
    chain runs afterwards.  When [getType] throws, the call throws, and
    the chain built so far still runs. *)
Definition validateObject (className : string) (object : Props)
  (query : JsVal) : M unit :=
  let (steps, e) := scanObject 0 object in
  let promise := enforceClassExists className >> enforceFields className steps in
  match e with
  | Finished =>
      promise >> lift (validateRequiredColumns className object query)
  | TooManyGeoPoints => promise >> throw geoPointError
  | Thrown_ t => fun w => (Throw t, snd (promise w))
  end.

(** Validates the base CLP for an operation.  The class name is read as
    an own property of [this.perms]: for a class name that
    [Object.prototype] defines and the view does not, the source goes on
    to read the operation on a built-in function, which the values of
    this model do not include. *)
Definition testBaseCLP (p : Props) (className : string)
  (aclGroup : list string) (operation : string) : bool :=
  let classPerms := oget className p in
  if negb (truthy classPerms) || negb (truthy (prop operation classPerms))
  then true
  else
    let perms := prop operation classPerms in
    if truthy (prop "*" perms) then true
    else if existsb (fun acl => strict_eq (prop acl perms) (JBool true)) aclGroup
    then true
    else false.

(** What [validatePermission] hands back when it does not throw *)
Inductive Granted : Type :=
| Resolved        (* [Promise.resolve()] *)
| ReturnedTrue.   (* [true] *)

Definition permissionDenied (operation className : string) : Thrown :=
  ParseErr (mkError OPERATION_FORBIDDEN
    ("Permission denied for action " ++ operation ++ " on class "
     ++ className ++ ".")).

(** [Array.isArray(v) && v.length > 0] *)
Definition nonEmptyArray (v : JsVal) : bool :=
  match v with JArr (_ :: _) => true | _ => false end.

(** Validates an operation passes class-level-permissions set in the
    schema. *)
Definition validatePermission (p : Props) (className : string)
  (aclGroup : list string) (operation : string) : Res Granted :=
  if testBaseCLP p className aclGroup operation then Ok Resolved
  else
    let classPerms := oget className p in
    if negb (truthy classPerms) || negb (truthy (prop operation classPerms))
    then Ok ReturnedTrue
    else
      let permissionField :=
        if str_mem operation ["get"; "find"] then "readUserFields"
        else "writeUserFields" in
      if String.eqb permissionField "writeUserFields"
         && String.eqb operation "create" then
        Throw (permissionDenied operation className)
      else if nonEmptyArray (prop permissionField classPerms) then Ok Resolved
      else Throw (permissionDenied operation className).

(** Checks if a given class is in the schema. *)
Definition hasClass (className : string) : M bool :=
  reloadData false >>
  let! d := get_data in
  ret (truthy_at className d).

End Controller.

(** Builds a new schema out of an existing schema and a put request. *)
Definition buildMergedSchemaObject (existingFields putRequest : Props)
  : Res Props :=
  let sysSchemaField :=
    match oget "_id" existingFields with
    | JStr id =>
        match defaultColumnsFor id with Some cols => okeys cols | None => [] end
    | _ => []
    end in
  let isSys f :=
    Nat.ltb 0 (List.length sysSchemaField) && str_mem f sysSchemaField in
  let kept :=
    fold_left (fun newSchema kv =>
      let oldField := fst kv in
      if negb (str_mem oldField
                 ["_id"; "ACL"; "updatedAt"; "createdAt"; "objectId"]) then
        if isSys oldField then newSchema
        else
          let r := oget oldField putRequest in
          let fieldIsDeleted := truthy r && is_str "Delete" (prop "__op" r) in
          if negb fieldIsDeleted then oset oldField (snd kv) newSchema
          else newSchema
      else newSchema) existingFields [] in
  fold_left (fun acc kv =>
    newSchema <- acc ;;
    let newField := fst kv in
    if String.eqb newField "objectId" then Ok newSchema
    else
      op <- vget "__op" (snd kv) ;;
      if negb (is_str "Delete" op) then
        if isSys newField then Ok newSchema
        else Ok (oset newField (snd kv) newSchema)
      else Ok newSchema) putRequest (Ok kept).

(* ================================================================= *)
(** ** Objects shared between a caller and a callee

    [validateSchemaData] assigns into the object it receives.  To say
    which object that is, field mappings live in a store and are passed
    by reference. *)

Definition Ref : Type := nat.
Definition Store : Type := list Props.

Definition deref (r : Ref) (st : Store) : Props := nth r st [].

Fixpoint assign (r : Ref) (o : Props) (st : Store) : Store :=
  match r, st with
  | _, [] => []
  | O, _ :: st' => o :: st'
  | S r', x :: st' => x :: assign r' o st'
  end.

(** A new object [{...}] *)
Definition alloc (o : Props) (st : Store) : Ref * Store :=
  (List.length st, st ++ [o]).

Definition validateSchemaData_at (className : string) (fields : Ref)
  (classLevelPermissions : JsVal) (existingFieldNames : list string)
  (st : Store) : Res (option ParseError) * Store :=
  let (r, f) :=
    validateSchemaData className (deref fields st) classLevelPermissions
      existingFieldNames in
  (r, assign fields f st).

Definition validateNewClass_at (d : Props) (className : string) (fields : Ref)
  (classLevelPermissions : JsVal) (st : Store)
  : Res (option ParseError) * Store :=
  let (r, f) :=
    validateNewClass d className (deref fields st) classLevelPermissions in
  (r, assign fields f st).

(** The first loop of the callback of [updateClass] *)
Fixpoint checkSubmitted (existingFields submittedFields : Props) : Res unit :=
  match submittedFields with
  | [] => Ok tt
  | (name, field) :: rest =>
      let existing := truthy_at name existingFields in
      exists_ <-
        (if existing then
           op <- vget "__op" field ;; Ok (negb (is_str "Delete" op))
         else Ok false) ;;
      if exists_ then
        Throw (ParseErr (mkError (Code 255)
                 ("Field " ++ name ++ " exists, cannot update.")))
      else
        missing <-
          (if negb existing then
             op <- vget "__op" field ;; Ok (is_str "Delete" op)
           else Ok false) ;;
        if missing then
          Throw (ParseErr (mkError (Code 255)
                   ("Field " ++ name ++ " does not exist, cannot delete.")))
        else checkSubmitted existingFields rest
  end.

(** The callback of [updateClass] up to the validation of the merged
    schema: [existingFields] is the [fields] object of the schema read,
    [submittedFields] the object of the caller.  It answers with the
    reference of the merged schema. *)
Definition updateClass_validate (className : string)
  (existingFields submittedFields : Ref) (classLevelPermissions : JsVal)
  (st : Store) : Res Ref * Store :=
  match checkSubmitted (deref existingFields st) (deref submittedFields st) with
  | Throw t => (Throw t, st)
  | Ok _ =>
      let st :=
        assign existingFields
          (odelete "_wperm" (odelete "_rperm" (deref existingFields st))) st in
      match buildMergedSchemaObject (deref existingFields st)
              (deref submittedFields st) with
      | Throw t => (Throw t, st)
      | Ok merged =>
          let (newSchema, st) := alloc merged st in
          let (validationError, st) :=
            validateSchemaData_at className newSchema classLevelPermissions
              (okeys (deref existingFields st)) st in
          match validationError with
          | Throw t => (Throw t, st)
          | Ok (Some e) => (Throw (ParseErr e), st)
          | Ok None => (Ok newSchema, st)
          end
      end
  end.

(* ================================================================= *)
(** ** Reloads in flight

    [reloadData] keeps the promise of the reload it started in
    [reloadDataPromise] and removes it in the callbacks of that promise.
    Between the call and the callback other tasks run.  The state below
    records what matters for sharing: the promise kept, the reloads whose
    callback has not run yet, and the calls of [getAllClasses] made.
    Promises are numbered in the order of their creation. *)
Module Reload.

Record State : Type := mkState {
  reloadDataPromise : option nat;
  pending : list nat;
  fetches : nat;
  cacheClears : nat
}.

Definition init : State := mkState None [] 0 0.

(** [reloadData(options)] up to its [return]: the promise returned and
    the new state.  A call that starts a reload clears the cache once
    itself and once more inside [getAllClasses] when [clearCache] is set. *)
Definition call (clearCache : bool) (st : State) : nat * State :=
  let clears :=
    if clearCache then S (cacheClears st) else cacheClears st in
  match reloadDataPromise st, clearCache with
  | Some p, false => (p, mkState (Some p) (pending st) (fetches st) clears)
  | _, _ =>
      let p := fetches st in
      (p, mkState (Some p) (p :: pending st) (S (fetches st))
            (if clearCache then S clears else clears))
  end.

(** The callback of promise [p], on fulfilment or on rejection: both
    [delete this.reloadDataPromise]. *)
Definition settle (p : nat) (st : State) : State :=
  if existsb (Nat.eqb p) (pending st) then
    mkState None (filter (fun q => negb (Nat.eqb p q)) (pending st))
      (fetches st) (cacheClears st)
  else st.

Inductive Event : Type :=
| Call (clearCache : bool)
| Settle (p : nat).

Definition step (st : State) (e : Event) : State :=
  match e with
  | Call c => snd (call c st)
  | Settle p => settle p st
  end.

Definition run (events : list Event) : State := fold_left step events init.

(** A reload is in flight when the callback of its promise has not run. *)
Definition inFlight (st : State) : bool :=
  match pending st with [] => false | _ :: _ => true end.

End Reload.

(* ================================================================= *)
(** ** A storage adapter and a schema cache in memory *)

Module Mem.

Fixpoint findClass (name : string) (db : list Schema) : option Schema :=
  match db with
  | [] => None
  | s :: db' =>
      if String.eqb (className s) name then Some s else findClass name db'
  end.

Definition onClass (name : string) (f : Schema -> Schema) (db : list Schema)
  : list Schema :=
  map (fun s => if String.eqb (className s) name then f s else s) db.

Definition createClass (name : string) (schema : Schema) (db : list Schema)
  : Res Schema * list Schema :=
  match findClass name db with
  | Some _ =>
      (Throw (ParseErr (mkError DUPLICATE_VALUE "Class already exists.")), db)
  | None => (Ok schema, db ++ [schema])
  end.

Definition addFieldIfNotExists (name fieldName : string) (type : JsVal)
  (db : list Schema) : Res unit * list Schema :=
  match findClass name db with
  | None => (Throw Undef, db)
  | Some _ =>
      (Ok tt,
       onClass name
         (fun s =>
            if has_key fieldName (fields s) then s
            else mkSchema (className s) (oset fieldName type (fields s))
                   (classLevelPermissions s)) db)
  end.

#[export] Instance adapter : StorageAdapter (list Schema) := {
  db_getAllClasses db := (Ok db, db);
  db_getClass name db :=
    (match findClass name db with Some s => Ok s | None => Throw Undef end, db);
  db_createClass := createClass;
  db_addFieldIfNotExists := addFieldIfNotExists;
  db_deleteFields name _ fieldNames db :=
    (Ok tt,
     onClass name
       (fun s =>
          mkSchema (className s)
            (fold_left (fun f k => odelete k f) fieldNames (fields s))
            (classLevelPermissions s)) db);
  db_deleteClass name db :=
    (Ok tt, filter (fun s => negb (String.eqb (className s) name)) db);
  db_setClassLevelPermissions name clp db :=
    (Ok tt, onClass name (fun s => mkSchema (className s) (fields s) clp) db)
}.

Record Cache : Type := mkCache {
  allClasses : option (list Schema);
  oneSchema : list (string * Schema)
}.

Fixpoint findCached (name : string) (l : list (string * Schema))
  : option Schema :=
  match l with
  | [] => None
  | (n, s) :: l' => if String.eqb n name then Some s else findCached name l'
  end.

#[export] Instance schemaCache : SchemaCache Cache := {
  cache_getAllClasses c := (allClasses c, c);
  cache_getOneSchema name c := (findCached name (oneSchema c), c);
  cache_setAllClasses l c := mkCache (Some l) (oneSchema c);
  cache_setOneSchema name s c := mkCache (allClasses c) ((name, s) :: oneSchema c);
  cache_clear _ := mkCache None []
}.

Definition world (db : list Schema) : World (list Schema) Cache :=
  mkWorld [] [] (mkCache None []) db.

End Mem.
Import Mem.

(* ================================================================= *)
(** ** The statements of the specification

    Definitions that follow the words of the specification, to be compared
    with the ones above that follow the source. *)

(** The longest prefix of [s] of characters in [p] *)
Fixpoint take_while (p : ascii -> bool) (s : string) : string :=
  match s with
  | EmptyString => EmptyString
  | String c r => if p c then String c (take_while p r) else EmptyString
  end.

(** A non-empty string over [[A-Za-z0-9_]] *)
Definition wordString (s : string) : Prop :=
  s <> EmptyString /\ all_chars is_word s = true.

(** The field-name pattern [[A-Za-z][A-Za-z0-9_]*] *)
Definition spec_fieldName (s : string) : Prop :=
  exists c r, s = String c r /\ is_alpha c = true /\ all_chars is_word r = true.

(** The join-table naming pattern [_Join:<field>:<class>] *)
Definition spec_joinName (s : string) : Prop :=
  exists field cls,
    s = ("_Join:" ++ field ++ ":" ++ cls)%string
    /\ wordString field /\ wordString cls.

Definition spec_isValidClassName (s : string) : Prop :=
  In s systemClasses \/ spec_joinName s \/ spec_fieldName s.

(** What [joinClassRegex] accepts: a join-table name followed by anything *)
Definition joinPrefix (s : string) : Prop :=
  exists field cls rest,
    s = ("_Join:" ++ field ++ ":" ++ cls ++ rest)%string
    /\ wordString field /\ wordString cls.

(** The ten scalar tags of the data model of the specification *)
Definition spec_scalarTags : list string :=
  ["Number"; "String"; "Boolean"; "Date"; "Object"; "Array"; "GeoPoint";
   "File"; "Bytes"; "ACL"].

(** A declaration that the specification calls valid, over a list of
    scalar tags *)
Definition validDeclaration (scalars : list string) (decl : JsVal) : Prop :=
  (exists t, vget "type" decl = Ok (JStr t) /\ In t scalars)
  \/ (exists t c,
        vget "type" decl = Ok (JStr t) /\ In t ["Pointer"; "Relation"]
        /\ vget "targetClass" decl = Ok (JStr c)
        /\ classNameIsValid c = true).

(** The field types of the data model *)
Inductive FieldType : Type :=
| Scalar (tag : string)
| Pointer (targetClass : string)
| Relation (targetClass : string).

Definition tagOf (t : FieldType) : string :=
  match t with
  | Scalar tag => tag
  | Pointer _ => "Pointer"
  | Relation _ => "Relation"
  end.

(** A field type is well formed when its scalar tag is one of the ten. *)
Definition wellFormed (t : FieldType) : Prop :=
  match t with Scalar tag => In tag spec_scalarTags | _ => True end.

(** The object [{ type }] or [{ type, targetClass }] of a field type *)
Definition declOf (t : FieldType) : JsVal :=
  match t with
  | Scalar tag => ty tag
  | Pointer c => ty_to "Pointer" c
  | Relation c => ty_to "Relation" c
  end.

(** The ways [enforceFieldExists] is handed a field type: as the object,
    or for a scalar as the bare tag *)
Definition denotes (arg : JsVal) (t : FieldType) : Prop :=
  arg = declOf t \/ exists tag, t = Scalar tag /\ arg = JStr tag.

(** The fields the two conversions touch *)
Definition touchedFields (className : string) : list string :=
  if String.eqb className "_User"
  then ["ACL"; "_rperm"; "_wperm"; "password"; "_hashed_password"]
  else ["ACL"; "_rperm"; "_wperm"].

(** Two field mappings agree on a list of keys. *)
Definition agreeOn (keys : list string) (a b : Props) : Prop :=
  forall k, In k keys -> lookup k a = lookup k b.

(** The shape of the public representation on the touched fields *)
Definition publicShape (s : Schema) : Prop :=
  lookup "ACL" (fields s) = Some (ty "ACL")
  /\ lookup "_rperm" (fields s) = None
  /\ lookup "_wperm" (fields s) = None
  /\ (className s = "_User" ->
      lookup "password" (fields s) = Some (ty "String")
      /\ lookup "_hashed_password" (fields s) = None).

(** The shape of the adapter representation on the touched fields *)
Definition adapterShape (s : Schema) : Prop :=
  lookup "ACL" (fields s) = None
  /\ lookup "_rperm" (fields s) = Some (ty "Array")
  /\ lookup "_wperm" (fields s) = Some (ty "Array")
  /\ (className s = "_User" ->
      lookup "password" (fields s) = None
      /\ lookup "_hashed_password" (fields s) = Some (ty "String")).

(** A default field of a class: objectId, createdAt, updatedAt, ACL, or
    a class-specific default column *)
Definition isDefaultField (fieldName className : string) : Prop :=
  In fieldName (okeys defaultColumns_Default)
  \/ exists cols,
       defaultColumnsFor className = Some cols /\ In fieldName (okeys cols).

(** A field mapping carries the class-specific default columns. *)
Definition carriesDefaults (className : string) (f : Props) : Prop :=
  forall cols k v,
    defaultColumnsFor className = Some cols ->
    lookup k cols = Some v -> lookup k f = Some v.

(** [after] has every entry of [before] as it was, but for the fields
    that are class-specific default columns of the class. *)
Definition keepsOthers (className : string) (before after : Props) : Prop :=
  forall k,
    match defaultColumnsFor className with
    | Some cols => lookup k cols = None
    | None => True
    end ->
    lookup k after = lookup k before.

(** No string occurs twice. *)
Fixpoint distinct (l : list string) : bool :=
  match l with
  | [] => true
  | x :: l' => negb (str_mem x l') && distinct l'
  end.

(** An event that is not a call with [clearCache] *)
Definition unforced (e : Reload.Event) : bool :=
  match e with Reload.Call true => false | _ => true end.

(** The reloads in flight are exactly the one whose promise is kept. *)
Definition keptIsPending (st : Reload.State) : Prop :=
  Reload.pending st
  = match Reload.reloadDataPromise st with Some p => [p] | None => [] end.

(** Every exception a computation can end with satisfies [P]. *)
Definition throws {DB C A : Type} (m : @M DB C A) (P : Thrown -> Prop) : Prop :=
  forall w e, fst (m w) = Throw e -> P e.

(** An exception other than the one for too many GeoPoint fields *)
Definition benign (t : Thrown) : Prop := t <> geoPointError.

(** Every value of the object that is not undefined classifies. *)
Definition allClassify (object : Props) : Prop :=
  forall k v, In (k, v) object ->
              v = JUndefined \/ exists t, getType v = Ok t.

(** The six operations of class-level permissions *)
Definition CLPOperations : list string :=
  ["find"; "get"; "create"; "update"; "delete"; "addField"].

(** The number of fields of an object whose value classifies as GeoPoint *)
Definition geoPointCount (object : Props) : nat :=
  List.length
    (filter (fun kv =>
               match getType (snd kv) with
               | Ok t => is_str "GeoPoint" t
               | Throw _ => false
               end) object).

(* ================================================================= *)
(** ** Further statements

    Predicates for the properties of the functions beside the ones the
    specification singles out. *)

(** The scalar tags a classified value can have *)
Definition classifiedTags : list string :=
  ["Boolean"; "String"; "Number"; "Array"; "Object"; "File"; "Date";
   "GeoPoint"].

(** The results of a classification: no type ([undefined]), a removal
    ([null]), a scalar tag, or a Pointer or Relation with its target *)
Definition classified (t : JsVal) : Prop :=
  t = JUndefined \/ t = JNull
  \/ (exists tag, In tag classifiedTags /\ t = JStr tag)
  \/ (exists c, truthy c = true
                /\ t = JObj [("type", JStr "Pointer"); ("targetClass", c)])
  \/ (exists c, t = JObj [("type", JStr "Relation"); ("targetClass", c)]).

(** The type as [enforceFieldExists] compares it: a bare tag becomes the
    object [{ type }]. *)
Definition asTypeObject (type : JsVal) : JsVal :=
  match type with JStr _ => JObj [("type", type)] | _ => type end.

(** No character of the string is a dot. *)
Definition noDot (s : string) : Prop :=
  all_chars (fun c => negb (Ascii.eqb c ".")) s = true.

(** The error with which [enforceClassExists] gives up *)
Definition doesNotRevalidate : Thrown :=
  ParseErr (mkError INVALID_JSON "schema class name does not revalidate").

(** The entry of the view for a class that lives in memory only *)
Definition volatileEntry (className : string) : JsVal :=
  schema_object (injectDefaultSchema (mkSchema className [] (JObj []))).

(** The error with which [enforceFieldExists] reports a recorded type
    that the classified type does not match *)
Definition mismatchError (className fieldName expected actual : string)
  : Thrown :=
  ParseErr (mkError INCORRECT_TYPE
    ("schema mismatch for " ++ className ++ "." ++ fieldName
     ++ "; expected " ++ expected ++ " but got " ++ actual)).

(** A permission key: a user id of ten letters and digits, a role
    reference, or the wildcard *)
Definition validPermissionKey (key : string) : Prop :=
  userIdRegex key = true \/ roleRegex key = true \/ publicRegex key = true.

(** A key of [readUserFields] or [writeUserFields] that names a field
    pointing to a user *)
Definition pointerToUser (fields : Props) (key : JsVal) : Prop :=
  let f := oget (to_js_string key) fields in
  truthy f = true
  /\ loose_eq_lit "Pointer" (prop "type" f) = true
  /\ loose_eq_lit "_User" (prop "targetClass" f) = true.

(** [readUserFields] or [writeUserFields] *)
Definition isPointerPermission (operation : string) : bool :=
  String.eqb operation "readUserFields"
  || String.eqb operation "writeUserFields".

(** The error of [addClassIfNotExists] and [validateNewClass] for a class
    that is there already *)
Definition alreadyExists (className : string) : Thrown :=
  ParseErr (mkError INVALID_CLASS_NAME
              ("Class " ++ className ++ " already exists.")).

(** The error of [deleteField] and [updateClass] for a class that the
    adapter does not know *)
Definition classDoesNotExist (className : string) : Thrown :=
  ParseErr (mkError INVALID_CLASS_NAME
              ("Class " ++ className ++ " does not exist.")).

(** The error of [deleteField] for a field that the class does not have *)
Definition fieldDoesNotExist (fieldName : string) : Thrown :=
  ParseErr (mkError (Code 255)
              ("Field " ++ fieldName ++ " does not exist, cannot delete.")).

(** The class-specific default columns of a class, none for a class
    without an entry in [defaultColumns] *)
Definition classColumns (className : string) : Props :=
  match defaultColumnsFor className with Some cols => cols | None => [] end.

(** The fields that the two conversions between the public and the
    adapter representation write or delete *)
Definition conversionFields : list string :=
  ["ACL"; "_rperm"; "_wperm"; "password"; "_hashed_password"; "authData"].

(** The fields that [buildMergedSchemaObject] never takes over from the
    existing schema *)
Definition mergeProtected : list string :=
  ["_id"; "ACL"; "updatedAt"; "createdAt"; "objectId"].

(** [sysSchemaField] of [buildMergedSchemaObject]: the default columns of
    the class that the [_id] of the existing fields names *)
Definition sysSchemaField (existingFields : Props) : list string :=
  match oget "_id" existingFields with
  | JStr id =>
      match defaultColumnsFor id with Some cols => okeys cols | None => [] end
  | _ => []
  end.

(** A submitted field that asks for a deletion: [field.__op === 'Delete'] *)
Definition isDeleteOp (field : JsVal) : bool :=
  is_str "Delete" (prop "__op" field).

(* ================================================================= *)
(** * Properties *)

#[local] Arguments str_mem : simpl never.
#[local] Arguments classNameIsValid : simpl never.
#[local] Arguments fieldNameIsValid : simpl never.
#[local] Arguments fieldNameIsValidForClass : simpl never.

(** ** Strings and patterns *)

Lemma strip_prefix_spec (lit s r : string) :
  strip_prefix lit s = Some r <-> s = (lit ++ r)%string.
Proof.
  revert s; induction lit as [|a lit IH]; intros s; simpl.
  - split; [intros [= ->]; reflexivity | intros ->; reflexivity].
  - destruct s as [|b s]; [split; discriminate|].
    destruct (Ascii.eqb a b) eqn:E.
    + apply Ascii.eqb_eq in E; subst b. rewrite IH.
      split; [intros ->; reflexivity | intros [= ->]; reflexivity].
    + split; [discriminate|].
      intros [= -> _]. rewrite Ascii.eqb_refl in E. discriminate.
Qed.

Lemma take_skip (p : ascii -> bool) (s : string) :
  s = (take_while p s ++ skip_while p s)%string
  /\ all_chars p (take_while p s) = true.
Proof.
  induction s as [|c r [IH1 IH2]]; simpl; [auto|].
  destruct (p c) eqn:E; simpl; [|auto].
  rewrite E, IH2. split; [f_equal; exact IH1 | reflexivity].
Qed.

Lemma all_chars_app (p : ascii -> bool) (a b : string) :
  all_chars p (a ++ b)%string = all_chars p a && all_chars p b.
Proof.
  induction a as [|c a IH]; simpl; [reflexivity|].
  rewrite IH. apply andb_assoc.
Qed.

Lemma skip_while_stop (p : ascii -> bool) (a : string) (c : ascii) (b : string) :
  all_chars p a = true -> p c = false ->
  skip_while p (a ++ String c b)%string = String c b.
Proof.
  intros Ha Hc. induction a as [|x a IH]; simpl in *.
  - rewrite Hc. reflexivity.
  - apply andb_prop in Ha as [Hx Ha]. rewrite Hx. auto.
Qed.

Lemma append_assoc (a b c : string) :
  ((a ++ b) ++ c)%string = (a ++ b ++ c)%string.
Proof. induction a as [|x a IH]; simpl; [reflexivity | now rewrite IH]. Qed.

Lemma words_plus_spec (s r : string) :
  words_plus s = Some r ->
  exists w, s = (w ++ r)%string /\ wordString w.
Proof.
  unfold words_plus. destruct s as [|c s]; [discriminate|].
  destruct (is_word c) eqn:E; [|discriminate].
  intros [= <-]. destruct (take_skip is_word s) as [H1 H2].
  exists (String c (take_while is_word s)). split.
  - simpl. f_equal. exact H1.
  - split; [discriminate|]. simpl. now rewrite E, H2.
Qed.

Lemma joinClassRegex_spec (s : string) :
  joinClassRegex s = true <-> joinPrefix s.
Proof.
  unfold joinClassRegex, joinPrefix. split.
  - destruct (strip_prefix "_Join:" s) as [r|] eqn:P; [|discriminate].
    apply strip_prefix_spec in P.
    destruct (words_plus r) as [[|c r']|] eqn:W1; try discriminate.
    destruct (Ascii.eqb c ":") eqn:Ec.
    2:{ intros H. exfalso. revert H Ec.
        destruct c as [[] [] [] [] [] [] [] []]; simpl; congruence. }
    apply Ascii.eqb_eq in Ec. subst c.
    replace (match r' with _ => _ end)
      with (match words_plus r' with Some _ => true | None => false end)
      by reflexivity.
    destruct (words_plus r') as [r''|] eqn:W2.
    2:{ intros H. exfalso. revert H. simpl. discriminate. }
    intros _.
    apply words_plus_spec in W1 as (field & Hr & Hf).
    destruct r' as [|c' t]; [discriminate|].
    unfold words_plus in W2. destruct (is_word c') eqn:Ec'; [|discriminate].
    exists field, (String c' EmptyString), t. split.
    + rewrite P, Hr. reflexivity.
    + split; [exact Hf|]. split; [discriminate|]. simpl. now rewrite Ec'.
  - intros (field & cls & rest & -> & [Hf1 Hf2] & [Hc1 Hc2]).
    assert (P : strip_prefix "_Join:"
                  ("_Join:" ++ field ++ ":" ++ cls ++ rest)%string
                = Some (field ++ ":" ++ cls ++ rest)%string)
      by (apply strip_prefix_spec; reflexivity).
    rewrite P.
    destruct field as [|c f]; [congruence|].
    simpl in Hf2. apply andb_prop in Hf2 as [Hc Hf].
    simpl. rewrite Hc.
    rewrite (skip_while_stop is_word f ":" (cls ++ rest) Hf eq_refl).
    destruct cls as [|c' cl]; [congruence|].
    simpl in Hc2. apply andb_prop in Hc2 as [Hc' _].
    simpl. now rewrite Hc'.
Qed.

Lemma classAndFieldRegex_spec (s : string) :
  classAndFieldRegex s = true <-> spec_fieldName s.
Proof.
  unfold classAndFieldRegex, spec_fieldName. split.
  - destruct s as [|c r]; [discriminate|].
    intros H. apply andb_prop in H as [H1 H2]. eauto.
  - intros (c & r & -> & H1 & H2). now rewrite H1, H2.
Qed.

Lemma str_mem_In (s : string) (l : list string) :
  str_mem s l = true <-> In s l.
Proof.
  unfold str_mem. rewrite existsb_exists. split.
  - intros (x & Hx & E). apply String.eqb_eq in E. now subst.
  - intros H. exists s. split; [exact H | apply String.eqb_refl].
Qed.

(** What [classNameIsValid] accepts, exactly: the join pattern matches a
    prefix of the name. *)
Lemma classNameIsValid_exact (s : string) :
  classNameIsValid s = true
  <-> In s systemClasses \/ joinPrefix s \/ spec_fieldName s.
Proof.
  unfold classNameIsValid, fieldNameIsValid.
  rewrite !orb_true_iff, str_mem_In, joinClassRegex_spec,
    classAndFieldRegex_spec.
  tauto.
Qed.

(** Every name the specification calls valid is accepted. *)
Lemma classNameIsValid_complete (s : string) :
  spec_isValidClassName s -> classNameIsValid s = true.
Proof.
  intros H. apply classNameIsValid_exact.
  destruct H as [H | [(field & cls & -> & Hf & Hc) | H]]; auto.
  right; left. exists field, cls, EmptyString.
  split; [|auto]. f_equal.
  repeat (rewrite <- ?append_assoc; simpl).
  clear. induction field as [|c f IH]; simpl.
  - f_equal. induction cls as [|c cl IH]; simpl; [reflexivity | now rewrite <- IH].
  - now rewrite <- IH.
Qed.

(** C7.  The specification has [isValidClassName] true exactly for the
    system classes, the names [_Join:<field>:<class>] and the names that
    match the field-name pattern, and false for every other string.
    [joinClassRegex] has no [$] at its end, unlike [classAndFieldRegex]:
    the name [_Join:a:b!] is none of the three and is accepted. *)
Theorem classNameIsValid_join_trailing :
  classNameIsValid "_Join:a:b!" = true
  /\ ~ spec_isValidClassName "_Join:a:b!".
Proof.
  split; [reflexivity|].
  intros [H | [(field & cls & E & [_ Hf] & [_ Hc]) | (c & r & E & Ha & _)]].
  - simpl in H. intuition discriminate.
  - simpl in E. injection E as E.
    destruct field as [|c f]; [simpl in E; discriminate|].
    simpl in E. injection E as <- E.
    destruct f as [|c2 f2]; simpl in E.
    + injection E as <-. simpl in Hc. discriminate.
    + injection E as <- _. simpl in Hf. discriminate.
  - injection E as <- _. simpl in Ha. discriminate.
Qed.

(** ** Field type declarations *)

Lemma vget_cases (k : string) (v : JsVal) :
  (not_nullish v = false /\ vget k v = Throw TypeErr)
  \/ (not_nullish v = true /\ exists x, vget k v = Ok x).
Proof.
  destruct v; simpl; auto; right; (split; [reflexivity|]);
    try destruct (index_of_key k); eauto.
Qed.

Lemma vget_Ok_not_nullish (k : string) (v x : JsVal) :
  vget k v = Ok x -> not_nullish v = true.
Proof.
  destruct (vget_cases k v) as [[_ E] | [H _]]; [congruence | auto].
Qed.

Lemma classNameIsValid_nonempty (c : string) :
  classNameIsValid c = true -> truthy (JStr c) = true.
Proof. destruct c; [discriminate | reflexivity]. Qed.

Lemma fieldTypeIsInvalid_none (decl : JsVal) :
  fieldTypeIsInvalid decl = Ok None
  <-> validDeclaration validNonRelationOrPointerTypes decl.
Proof.
  unfold fieldTypeIsInvalid, validDeclaration. split.
  - destruct (vget_cases "type" decl) as [[_ E] | [N [t Et]]];
      rewrite ?E, ?Et; simpl; [discriminate|].
    destruct (vget_cases "targetClass" decl) as [[N' _] | [_ [c Ec]]];
      [congruence|].
    rewrite Ec. simpl.
    destruct (includes ["Pointer"; "Relation"] t) eqn:PR.
    + destruct t as [| | | |s| |]; try discriminate. simpl in PR.
      destruct (truthy c) eqn:Tc; simpl; [|discriminate].
      destruct c as [| | | |cn| |]; try discriminate.
      destruct (classNameIsValid cn) eqn:V; simpl; [|discriminate].
      intros _. right. exists s, cn.
      split; [reflexivity|].
      split; [exact (proj1 (str_mem_In s ["Pointer"; "Relation"]) PR)|].
      split; [reflexivity | exact V].
    + destruct t as [| | | |s| |]; simpl; try discriminate.
      destruct (str_mem s validNonRelationOrPointerTypes) eqn:V; simpl;
        [|discriminate].
      intros _. left. exists s. split; [reflexivity|].
      exact (proj1 (str_mem_In s validNonRelationOrPointerTypes) V).
  - intros [(t & Et & Hin) | (t & c & Et & Hin & Ec & V)].
    + rewrite Et. simpl.
      destruct (vget_cases "targetClass" decl) as [[N' _] | [_ [c Ec]]].
      * apply vget_Ok_not_nullish in Et. congruence.
      * rewrite Ec. simpl.
        simpl in Hin.
        repeat (destruct Hin as [<- | Hin]; [reflexivity|]).
        contradiction.
    + rewrite Et, Ec.
      pose proof (proj2 (str_mem_In t ["Pointer"; "Relation"]) Hin) as PR.
      pose proof (classNameIsValid_nonempty c V) as T.
      cbn [rbind includes]. rewrite PR, T, V. reflexivity.
Qed.

(** C5, as the source has it.  [fieldTypeIsInvalid] answers with no error
    exactly for the eight scalar tags Number, String, Boolean, Date,
    Object, Array, GeoPoint and File, and for Pointer and Relation with a
    string target class that passes class-name validation; every other
    declaration yields an error, thrown by the runtime only when the
    declaration itself is undefined or null. *)
Theorem fieldTypeIsInvalid_exact (decl : JsVal) :
  (fieldTypeIsInvalid decl = Ok None
   <-> validDeclaration validNonRelationOrPointerTypes decl)
  /\ (fieldTypeIsInvalid decl = Ok None
      \/ (exists e, fieldTypeIsInvalid decl = Ok (Some e))
      \/ (fieldTypeIsInvalid decl = Throw TypeErr
          /\ not_nullish decl = false)).
Proof.
  split; [apply fieldTypeIsInvalid_none|].
  unfold fieldTypeIsInvalid.
  destruct (vget_cases "type" decl) as [[N E] | [N [t Et]]];
    rewrite ?E, ?Et; simpl; [auto|].
  destruct (vget_cases "targetClass" decl) as [[N' _] | [_ [c Ec]]];
    [congruence|].
  rewrite Ec. simpl.
  destruct (includes ["Pointer"; "Relation"] t).
  - destruct (truthy c); simpl; [|eauto].
    destruct c; eauto.
    destruct (classNameIsValid s); simpl; eauto.
  - destruct (is_string t); simpl; [|eauto].
    destruct (includes validNonRelationOrPointerTypes t); simpl; eauto.
Qed.

(** C5, as the specification states it, fails: Bytes is one of its ten
    scalar tags, and the declaration [{type: 'Bytes'}] is answered with
    the error "invalid field type: Bytes". *)
Lemma fieldTypeIsInvalid_Bytes_rejected :
  ~ (fieldTypeIsInvalid (ty "Bytes") = Ok None
     <-> validDeclaration spec_scalarTags (ty "Bytes")).
Proof.
  intros [_ H].
  assert (V : validDeclaration spec_scalarTags (ty "Bytes")).
  { left. exists "Bytes". split; [reflexivity|]. simpl. tauto. }
  specialize (H V). discriminate.
Qed.

(** ** Classification of values *)

Lemma lookup_size (k : string) (o : Props) (v : JsVal) :
  lookup k o = Some v -> size v < size (JObj o).
Proof.
  simpl. induction o as [|[k' v'] o IH]; simpl; [discriminate|].
  destruct (String.eqb k k'); [intros [= ->]; lia|].
  intros H. apply IH in H. lia.
Qed.

Lemma nth_size (i : nat) (l : list JsVal) :
  size (nth i l JUndefined) <= size (JArr l).
Proof.
  simpl. revert i. induction l as [|x l IH]; intros [|i]; simpl; try lia.
  specialize (IH i). lia.
Qed.

Lemma vget_size (k : string) (v x : JsVal) :
  vget k v = Ok x -> size x <= size v.
Proof.
  destruct v; simpl; try discriminate.
  - intros [= <-]. simpl. lia.
  - intros [= <-]. simpl. lia.
  - destruct (index_of_key k) as [i|]; intros [= <-]; simpl; [|lia].
    destruct (nth_in_or_default i (char_strings s) JUndefined) as [H|H].
    + apply in_map_iff in H as (c & <- & _). simpl. lia.
    + rewrite H. simpl. lia.
  - destruct (index_of_key k); intros [= <-]; [apply nth_size | simpl; lia].
  - intros [= <-]. unfold oget. destruct (lookup k props) eqn:E.
    + apply lookup_size in E. simpl in *. lia.
    + simpl. lia.
Qed.

Lemma oget_not_nullish_size (k : string) (o : Props) :
  not_nullish (oget k o) = true -> size (oget k o) < size (JObj o).
Proof.
  unfold oget. destruct (lookup k o) eqn:E; [|discriminate].
  intros _. eapply lookup_size; eauto.
Qed.

Lemma truthy_not_nullish (v : JsVal) : truthy v = true -> not_nullish v = true.
Proof. destruct v; simpl; congruence. Qed.

(** The calls of [getObjectType] on itself end: fuel beyond the size of
    the value is never used up. *)
Lemma getObjectType_fuel_enough (n : nat) :
  forall obj, size obj < n -> exists r, getObjectType_fuel n obj = Some r.
Proof.
  induction n as [|n IH]; intros obj H; [lia|].
  destruct obj as [| | | | | |o]; simpl; eauto.
  destruct (truthy (oget "__type" o)); eauto.
  destruct (truthy (oget "$ne" o)) eqn:Ne.
  { apply IH. apply truthy_not_nullish, oget_not_nullish_size in Ne. lia. }
  destruct (truthy (oget "__op" o)); simpl; eauto.
  repeat match goal with
         | |- context [if ?b then _ else _] => destruct b; eauto
         end.
  destruct (vget "0" (oget "ops" o)) as [first|t] eqn:F; simpl; eauto.
  apply IH.
  pose proof (vget_size _ _ _ F).
  pose proof (vget_Ok_not_nullish _ _ _ F) as NN.
  apply oget_not_nullish_size in NN. lia.
Qed.

Lemma getObjectType_total (obj : JsVal) :
  getObjectType_fuel (S (size obj)) obj = Some (getObjectType obj).
Proof.
  unfold getObjectType.
  destruct (getObjectType_fuel_enough (S (size obj)) obj) as [r ->];
    [lia | reflexivity].
Qed.

(** C9.  A tagged object that fails the test of its own tag is tested as
    the tags after it: an object tagged Pointer with no class name and a
    truthy [name] classifies as File, and an object tagged File with no
    name and a truthy [iso] classifies as Date; neither raises an error. *)
Theorem getObjectType_falls_through (o : Props) :
  (oget "__type" o = JStr "Pointer" ->
   truthy (oget "className" o) = false ->
   truthy (oget "name" o) = true ->
   getObjectType (JObj o) = Ok (JStr "File"))
  /\ (oget "__type" o = JStr "File" ->
      truthy (oget "name" o) = false ->
      truthy (oget "iso" o) = true ->
      getObjectType (JObj o) = Ok (JStr "Date")).
Proof.
  split; intros Ht H1 H2; unfold getObjectType; simpl;
    rewrite Ht; simpl; unfold typeSwitch; simpl;
    rewrite H1, H2; reflexivity.
Qed.

Lemma getObjectType_falls_through_witness :
  getObjectType (JObj [("__type", JStr "Pointer"); ("name", JStr "a.txt")])
  = Ok (JStr "File")
  /\ getObjectType (JObj [("__type", JStr "File"); ("iso", JStr "2016")])
     = Ok (JStr "Date").
Proof.
  split.
  - apply (proj1 (getObjectType_falls_through
                    [("__type", JStr "Pointer"); ("name", JStr "a.txt")]));
      reflexivity.
  - apply (proj2 (getObjectType_falls_through
                    [("__type", JStr "File"); ("iso", JStr "2016")]));
      reflexivity.
Defined.

(** ** Objects as finite maps *)

Lemma lookup_oset_same (k : string) (v : JsVal) (o : Props) :
  lookup k (oset k v o) = Some v.
Proof.
  induction o as [|[k' v'] o IH]; simpl.
  - now rewrite String.eqb_refl.
  - destruct (String.eqb k k') eqn:E; simpl.
    + now rewrite String.eqb_refl.
    + now rewrite E.
Qed.

Lemma lookup_oset_other (k k' : string) (v : JsVal) (o : Props) :
  k <> k' -> lookup k (oset k' v o) = lookup k o.
Proof.
  intros N. apply String.eqb_neq in N.
  induction o as [|[k2 v2] o IH]; simpl.
  - now rewrite N.
  - destruct (String.eqb k' k2) eqn:E; simpl.
    + apply String.eqb_eq in E. subst k2. now rewrite N.
    + now rewrite IH.
Qed.

Lemma lookup_odelete_same (k : string) (o : Props) :
  lookup k (odelete k o) = None.
Proof.
  induction o as [|[k' v'] o IH]; simpl; [reflexivity|].
  destruct (String.eqb k k') eqn:E; simpl; [exact IH | now rewrite E].
Qed.

Lemma lookup_odelete_other (k k' : string) (o : Props) :
  k <> k' -> lookup k (odelete k' o) = lookup k o.
Proof.
  intros N. apply String.eqb_neq in N.
  induction o as [|[k2 v2] o IH]; simpl; [reflexivity|].
  destruct (String.eqb k' k2) eqn:E; simpl.
  - apply String.eqb_eq in E. subst k2. now rewrite N.
  - now rewrite IH.
Qed.

Create Rewrite HintDb objmap.
#[local] Hint Rewrite lookup_oset_same lookup_odelete_same : objmap.
#[local] Hint Rewrite lookup_oset_other lookup_odelete_other
  using discriminate : objmap.

Ltac objmap := simpl; autorewrite with objmap; try reflexivity; try congruence.

(** ** The two representations of a schema *)

(** Whatever it is given, [convertSchemaToAdapterSchema] answers in the
    adapter shape and [convertAdapterSchemaToParseSchema] in the public
    shape. *)
Lemma convertSchemaToAdapterSchema_shape (s : Schema) :
  adapterShape (convertSchemaToAdapterSchema s).
Proof.
  unfold adapterShape, convertSchemaToAdapterSchema.
  cbn [fields className injectDefaultSchema].
  destruct (String.eqb (className s) "_User") eqn:U.
  - split; [|split; [|split; [|intros _; split]]]; objmap.
  - split; [|split; [|split]]; try (objmap; fail).
    intros H. apply String.eqb_eq in H. congruence.
Qed.

Lemma convertAdapterSchemaToParseSchema_shape (s : Schema) :
  publicShape (convertAdapterSchemaToParseSchema s).
Proof.
  unfold publicShape, convertAdapterSchemaToParseSchema.
  cbn [fields className].
  destruct (String.eqb (className s) "_User") eqn:U.
  - split; [|split; [|split; [|intros _; split]]]; objmap.
  - split; [|split; [|split]]; try (objmap; fail).
    intros H. apply String.eqb_eq in H. congruence.
Qed.

Lemma className_toAdapter (s : Schema) :
  className (convertSchemaToAdapterSchema s) = className s.
Proof. reflexivity. Qed.

Lemma className_toParse (s : Schema) :
  className (convertAdapterSchemaToParseSchema s) = className s.
Proof. reflexivity. Qed.

Lemma shapes_agree (a b : Schema) :
  className a = className b ->
  (publicShape a /\ publicShape b) \/ (adapterShape a /\ adapterShape b) ->
  agreeOn (touchedFields (className a)) (fields a) (fields b).
Proof.
  intros Hc H k Hk. unfold touchedFields in Hk.
  destruct (String.eqb (className a) "_User") eqn:U.
  - apply String.eqb_eq in U. assert (U' : className b = "_User") by congruence.
    destruct H as [[(A1 & A2 & A3 & A4) (B1 & B2 & B3 & B4)]
                  |[(A1 & A2 & A3 & A4) (B1 & B2 & B3 & B4)]];
      destruct (A4 U) as [A5 A6]; destruct (B4 U') as [B5 B6];
      simpl in Hk;
      repeat (destruct Hk as [<- | Hk]; [congruence|]); contradiction.
  - destruct H as [[(A1 & A2 & A3 & _) (B1 & B2 & B3 & _)]
                  |[(A1 & A2 & A3 & _) (B1 & B2 & B3 & _)]];
      simpl in Hk;
      repeat (destruct Hk as [<- | Hk]; [congruence|]); contradiction.
Qed.

(** C2, as the source has it.  On a schema in the public shape the way to
    the adapter representation and back is the identity on the touched
    fields, on a schema in the adapter shape so is the way to the public
    representation and back; and from any schema at all the round trip
    ends in the public, respectively the adapter, shape. *)
Theorem conversions_round_trip (s : Schema) :
  (publicShape s ->
   agreeOn (touchedFields (className s))
     (fields (convertAdapterSchemaToParseSchema
                (convertSchemaToAdapterSchema s)))
     (fields s))
  /\ (adapterShape s ->
      agreeOn (touchedFields (className s))
        (fields (convertSchemaToAdapterSchema
                   (convertAdapterSchemaToParseSchema s)))
        (fields s))
  /\ publicShape (convertAdapterSchemaToParseSchema
                    (convertSchemaToAdapterSchema s))
  /\ adapterShape (convertSchemaToAdapterSchema
                     (convertAdapterSchemaToParseSchema s)).
Proof.
  split; [|split; [|split]].
  - intros P.
    apply (shapes_agree
             (convertAdapterSchemaToParseSchema (convertSchemaToAdapterSchema s))
             s); [reflexivity|].
    left. split; [apply convertAdapterSchemaToParseSchema_shape | exact P].
  - intros A.
    apply (shapes_agree
             (convertSchemaToAdapterSchema (convertAdapterSchemaToParseSchema s))
             s); [reflexivity|].
    right. split; [apply convertSchemaToAdapterSchema_shape | exact A].
  - apply convertAdapterSchemaToParseSchema_shape.
  - apply convertSchemaToAdapterSchema_shape.
Qed.

Lemma conversions_round_trip_witness :
  agreeOn (touchedFields "_User")
    (fields (convertAdapterSchemaToParseSchema
               (convertSchemaToAdapterSchema
                  (mkSchema "_User"
                     [("ACL", ty "ACL"); ("password", ty "String");
                      ("nick", ty "String")] JUndefined))))
    [("ACL", ty "ACL"); ("password", ty "String"); ("nick", ty "String")]
  /\ agreeOn (touchedFields "Game")
       (fields (convertSchemaToAdapterSchema
                  (convertAdapterSchemaToParseSchema
                     (mkSchema "Game"
                        [("_rperm", ty "Array"); ("_wperm", ty "Array");
                         ("score", ty "Number")] JUndefined))))
       [("_rperm", ty "Array"); ("_wperm", ty "Array"); ("score", ty "Number")].
Proof.
  split.
  - apply (proj1 (conversions_round_trip
                    (mkSchema "_User"
                       [("ACL", ty "ACL"); ("password", ty "String");
                        ("nick", ty "String")] JUndefined))).
    split; [|split; [|split; [|intros _; split]]]; reflexivity.
  - apply (proj1 (proj2 (conversions_round_trip
                    (mkSchema "Game"
                       [("_rperm", ty "Array"); ("_wperm", ty "Array");
                        ("score", ty "Number")] JUndefined)))).
    split; [|split; [|split; [|intros [=]]]]; reflexivity.
Defined.

(** C2, as the specification states it, fails: the schema of a class Game
    with the one field [score], as a caller of [addClassIfNotExists] hands
    it over, has no ACL field, and comes back with one. *)
Lemma conversions_round_trip_adds_ACL :
  ~ agreeOn (touchedFields "Game")
      (fields (convertAdapterSchemaToParseSchema
                 (convertSchemaToAdapterSchema
                    (mkSchema "Game" [("score", ty "Number")] JUndefined))))
      (fields (mkSchema "Game" [("score", ty "Number")] JUndefined)).
Proof.
  intros H. specialize (H "ACL" (or_introl eq_refl)). discriminate.
Qed.

(** ** Class-level permissions *)

(** When the base check denies, the class has permissions and an entry
    for the operation: the second test of [validatePermission] cannot
    succeed. *)
Lemma testBaseCLP_denied (p : Props) (className : string)
  (aclGroup : list string) (operation : string) :
  testBaseCLP p className aclGroup operation = false ->
  negb (truthy (oget className p))
  || negb (truthy (prop operation (oget className p))) = false.
Proof.
  unfold testBaseCLP.
  destruct (negb (truthy (oget className p))
            || negb (truthy (prop operation (oget className p))));
    [discriminate | reflexivity].
Qed.

(** C3.  When the base check denies one of the six operations:
    [validatePermission] resolves for get and find when [readUserFields]
    is a non-empty array, resolves for update, delete and addField when
    [writeUserFields] is a non-empty array, throws OperationForbidden for
    create whatever [writeUserFields] is, and throws OperationForbidden in
    every other case. *)
Theorem validatePermission_denied (p : Props) (className : string)
  (aclGroup : list string) (operation : string) :
  In operation CLPOperations ->
  testBaseCLP p className aclGroup operation = false ->
  let classPerms := oget className p in
  let forbidden := Throw (permissionDenied operation className) in
  let result := validatePermission p className aclGroup operation in
  (In operation ["get"; "find"] ->
   result = if nonEmptyArray (prop "readUserFields" classPerms)
            then Ok Resolved else forbidden)
  /\ (In operation ["update"; "delete"; "addField"] ->
      result = if nonEmptyArray (prop "writeUserFields" classPerms)
               then Ok Resolved else forbidden)
  /\ (operation = "create" -> result = forbidden).
Proof.
  intros Hop Hdenied classPerms forbidden result.
  pose proof (testBaseCLP_denied _ _ _ _ Hdenied) as Hentry.
  subst result forbidden classPerms. unfold validatePermission.
  rewrite Hdenied, Hentry.
  split; [|split].
  - intros [<- | [<- | []]]; reflexivity.
  - intros [<- | [<- | [<- | []]]]; reflexivity.
  - intros ->. reflexivity.
Qed.

Lemma validatePermission_denied_witness :
  let p := [("Game",
             JObj [("find", JObj [("role:admin", JBool true)]);
                   ("update", JObj [("role:admin", JBool true)]);
                   ("create", JObj [("role:admin", JBool true)]);
                   ("readUserFields", JArr [JStr "owner"]);
                   ("writeUserFields", JArr [JStr "owner"])])] in
  validatePermission p "Game" ["aUserId123"] "find" = Ok Resolved
  /\ validatePermission p "Game" ["aUserId123"] "update" = Ok Resolved
  /\ validatePermission p "Game" ["aUserId123"] "create"
     = Throw (permissionDenied "create" "Game").
Proof.
  intros p. split; [|split].
  - apply (proj1 (validatePermission_denied p "Game" ["aUserId123"] "find"
                    (or_introl eq_refl) eq_refl)).
    right. left. reflexivity.
  - apply (proj1 (proj2 (validatePermission_denied p "Game" ["aUserId123"]
                           "update"
                           (or_intror (or_intror (or_intror (or_introl eq_refl))))
                           eq_refl))).
    left. reflexivity.
  - apply (proj2 (proj2 (validatePermission_denied p "Game" ["aUserId123"]
                           "create"
                           (or_intror (or_intror (or_introl eq_refl)))
                           eq_refl))).
    reflexivity.
Defined.

(** ** Default fields *)

Lemma default_field_protected (fieldName className : string) :
  isDefaultField fieldName className ->
  fieldNameIsValid fieldName = true
  /\ fieldNameIsValidForClass fieldName className = false.
Proof.
  intros [H | (cols & Hc & H)].
  - simpl in H.
    repeat (destruct H as [<- | H]; [split; reflexivity|]). contradiction.
  - unfold defaultColumnsFor, defaultColumns in Hc. simpl in Hc.
    repeat match type of Hc with
           | (if String.eqb ?c ?lit then _ else _) = _ =>
               destruct (String.eqb c lit) eqn:E;
               [apply String.eqb_eq in E; subst c; injection Hc as <-;
                simpl in H;
                repeat (destruct H as [<- | H]; [split; reflexivity|]);
                contradiction
               | clear E]
           end.
    discriminate.
Qed.

Section DeleteField.

Context {DB C : Type} {adapter : StorageAdapter DB} {schemaCache : SchemaCache C}.

(** C6, as the source has it.  For a default field and a valid class
    name [deleteField] throws the error 136 "field ... cannot be changed";
    for a class name that is not valid the check of the class name comes
    first and throws the invalid-class-name error.  Both happen before any
    call of the adapter or the cache, and leave the world as it was. *)
Theorem deleteField_default_field (w : World DB C)
  (fieldName className : string) :
  isDefaultField fieldName className ->
  (classNameIsValid className = true ->
   deleteField fieldName className w
   = (Throw (ParseErr (mkError (Code 136)
               ("field " ++ fieldName ++ " cannot be changed"))), w))
  /\ (classNameIsValid className = false ->
      deleteField fieldName className w
      = (Throw (ParseErr (mkError INVALID_CLASS_NAME
                  (invalidClassNameMessage className))), w)).
Proof.
  intros Hd. destruct (default_field_protected _ _ Hd) as [Hf Hc].
  unfold deleteField. split; intros Hv; rewrite Hv; simpl.
  - rewrite Hf, Hc. reflexivity.
  - reflexivity.
Qed.

End DeleteField.

Lemma deleteField_default_field_witness :
  deleteField "objectId" "Game" (Mem.world [])
  = (Throw (ParseErr (mkError (Code 136) "field objectId cannot be changed")),
     Mem.world [])
  /\ deleteField "sessionToken" "_Session" (Mem.world [])
     = (Throw (ParseErr (mkError (Code 136)
                  "field sessionToken cannot be changed")),
        Mem.world [])
  /\ deleteField "ACL" "my-class" (Mem.world [])
     = (Throw (ParseErr (mkError INVALID_CLASS_NAME
                  (invalidClassNameMessage "my-class"))),
        Mem.world []).
Proof.
  split; [|split].
  - apply (proj1 (deleteField_default_field (Mem.world []) "objectId" "Game"
                    (or_introl (or_introl eq_refl)))).
    reflexivity.
  - apply (proj1 (deleteField_default_field (Mem.world []) "sessionToken"
                    "_Session"
                    (or_intror
                       (ex_intro _ _
                          (conj eq_refl
                             (or_intror (or_intror (or_intror
                                (or_introl eq_refl))))))))).
    reflexivity.
  - apply (proj2 (deleteField_default_field (Mem.world []) "ACL" "my-class"
                    (or_introl (or_intror (or_intror (or_intror
                       (or_introl eq_refl))))))).
    reflexivity.
Defined.

(** C6, as the specification states it, fails for a class name that is
    not valid: the error is then the one for the class name. *)
Lemma deleteField_invalid_class_name :
  fst (deleteField "objectId" "my-class" (Mem.world []))
  <> Throw (ParseErr (mkError (Code 136) "field objectId cannot be changed"))
  /\ isDefaultField "objectId" "my-class".
Proof.
  split; [discriminate|]. left. left. reflexivity.
Qed.

(** ** The object [validateSchemaData] writes into *)

Lemma distinct_NoDup (l : list string) : distinct l = true -> NoDup l.
Proof.
  induction l as [|x l IH]; simpl; [constructor|].
  intros H. apply andb_prop in H as [H1 H2]. constructor; [|auto].
  intros Hin. apply str_mem_In in Hin. rewrite Hin in H1. discriminate.
Qed.

Lemma defaultColumns_distinct (className : string) (cols : Props) :
  defaultColumnsFor className = Some cols -> NoDup (okeys cols).
Proof.
  unfold defaultColumnsFor, defaultColumns. simpl. intros Hc.
  repeat match type of Hc with
         | (if String.eqb ?c ?lit then _ else _) = _ =>
             destruct (String.eqb c lit);
             [injection Hc as <-; apply distinct_NoDup; reflexivity|]
         end.
  discriminate.
Qed.

Lemma lookup_assign_all_other (k : string) (cols f : Props) :
  ~ In k (okeys cols) ->
  lookup k (fold_left (fun f kv => oset (fst kv) (snd kv) f) cols f)
  = lookup k f.
Proof.
  revert f. induction cols as [|[k' v] cols IH]; intros f H; simpl;
    [reflexivity|].
  simpl in H. rewrite IH by tauto.
  apply lookup_oset_other. intros ->. tauto.
Qed.

Lemma lookup_assign_all (k : string) (v : JsVal) (cols f : Props) :
  NoDup (okeys cols) -> lookup k cols = Some v ->
  lookup k (fold_left (fun f kv => oset (fst kv) (snd kv) f) cols f) = Some v.
Proof.
  revert f. induction cols as [|[k' v'] cols IH]; intros f N H; simpl in *;
    [discriminate|].
  inversion N as [|? ? Hnotin N']; subst.
  destruct (String.eqb k k') eqn:E.
  - apply String.eqb_eq in E. subst k'. injection H as ->.
    rewrite lookup_assign_all_other by exact Hnotin.
    apply lookup_oset_same.
  - apply IH; assumption.
Qed.

Lemma lookup_None_okeys (k : string) (o : Props) :
  lookup k o = None <-> ~ In k (okeys o).
Proof.
  induction o as [|[k' v] o IH]; simpl; [tauto|].
  destruct (String.eqb k k') eqn:E.
  - apply String.eqb_eq in E. subst k'. split; [discriminate | tauto].
  - apply String.eqb_neq in E. rewrite IH.
    split; [intros H [X|X]; [congruence | tauto] | tauto].
Qed.

(** Past its first loop, [validateSchemaData] has written every default
    column of the class into [fields]; stopped in that loop, it has
    written nothing. *)
Lemma validateSchemaData_fields (className : string) (fields : Props)
  (clp : JsVal) (existingFieldNames : list string) :
  match checkNewFields className existingFieldNames fields with
  | Ok None =>
      carriesDefaults className
        (snd (validateSchemaData className fields clp existingFieldNames))
  | r =>
      validateSchemaData className fields clp existingFieldNames = (r, fields)
  end.
Proof.
  unfold validateSchemaData.
  destruct (checkNewFields className existingFieldNames fields)
    as [[e|]|t]; try reflexivity.
  assert (D : carriesDefaults className
                match defaultColumnsFor className with
                | Some cols =>
                    fold_left (fun f kv => oset (fst kv) (snd kv) f) cols fields
                | None => fields
                end).
  { intros cols k v Hc Hk. rewrite Hc.
    apply lookup_assign_all; [eapply defaultColumns_distinct; eauto | exact Hk]. }
  destruct (okeys (filter isGeoPointField _)) as [|g0 [|g1 l]]; exact D.
Qed.

(** What [validateSchemaData] writes, it writes at the default columns of
    the class: every other entry of [fields] is as before. *)
Lemma validateSchemaData_keeps (className : string) (fields : Props)
  (clp : JsVal) (existingFieldNames : list string) :
  keepsOthers className fields
    (snd (validateSchemaData className fields clp existingFieldNames)).
Proof.
  unfold validateSchemaData.
  destruct (checkNewFields className existingFieldNames fields)
    as [[e|]|t]; try (intros k _; reflexivity).
  assert (D : keepsOthers className fields
                match defaultColumnsFor className with
                | Some cols =>
                    fold_left (fun f kv => oset (fst kv) (snd kv) f) cols fields
                | None => fields
                end).
  { intros k Hk. destruct (defaultColumnsFor className) as [cols|];
      [|reflexivity].
    apply lookup_assign_all_other. now apply lookup_None_okeys. }
  destruct (okeys (filter isGeoPointField _)) as [|g0 [|g1 l]]; exact D.
Qed.

Lemma assign_deref (r : Ref) (st : Store) : assign r (deref r st) st = st.
Proof.
  unfold deref. revert r. induction st as [|x st IH]; intros [|r]; simpl;
    try reflexivity.
  now rewrite IH.
Qed.

Lemma deref_assign_same (r : Ref) (o : Props) (st : Store) :
  r < List.length st -> deref r (assign r o st) = o.
Proof.
  unfold deref. revert r. induction st as [|x st IH]; intros [|r] H; simpl in *;
    try lia; [reflexivity|].
  apply IH. lia.
Qed.

Lemma deref_assign_other (r r' : Ref) (o : Props) (st : Store) :
  r <> r' -> deref r (assign r' o st) = deref r st.
Proof.
  unfold deref. revert r r'.
  induction st as [|x st IH]; intros [|r] [|r'] H; simpl; try reflexivity.
  - congruence.
  - apply IH. congruence.
Qed.

Lemma length_assign (r : Ref) (o : Props) (st : Store) :
  List.length (assign r o st) = List.length st.
Proof.
  revert r. induction st as [|x st IH]; intros [|r]; simpl; auto.
Qed.

Lemma deref_alloc (r : Ref) (o : Props) (st : Store) :
  r < List.length st -> deref r (snd (alloc o st)) = deref r st.
Proof. intros H. unfold deref, alloc. simpl. now rewrite app_nth1. Qed.

(** C10, as the source has it.  [validateSchemaData] writes into the
    object it is given when its loop over the fields finds no error: that
    object then carries every class-specific default column, and every
    other entry of it is as the caller passed it, whatever the rest of
    the call answers.  When the loop answers with an error the object,
    like the whole store, is as before.  [validateNewClass] hands on the
    object of its caller for a valid class name that [this.data] does not
    answer to.  [updateClass] validates a merged object it has just
    built: the [submittedFields] of its caller is not written to, and it
    is the merged object that carries the default columns, besides the
    entries the merge gave it. *)
Theorem validateSchemaData_writes_defaults
  (d : Props) (className : string)
  (fields existingFields submittedFields : Ref)
  (clp : JsVal) (existingFieldNames : list string) (st : Store) :
  fields < List.length st ->
  existingFields < List.length st ->
  submittedFields < List.length st ->
  submittedFields <> existingFields ->
  let loop := checkNewFields className existingFieldNames (deref fields st) in
  let run := validateSchemaData_at className fields clp existingFieldNames st in
  let update :=
    updateClass_validate className existingFields submittedFields clp st in
  (loop = Ok None ->
   carriesDefaults className (deref fields (snd run))
   /\ keepsOthers className (deref fields st) (deref fields (snd run))
   /\ forall other, other <> fields ->
                    deref other (snd run) = deref other st)
  /\ (loop <> Ok None -> run = (loop, st))
  /\ (truthy_at className d = false ->
      classNameIsValid className = true ->
      validateNewClass_at d className fields clp st
      = validateSchemaData_at className fields clp [] st)
  /\ deref submittedFields (snd update) = deref submittedFields st
  /\ (forall newSchema,
        fst update = Ok newSchema ->
        newSchema = List.length st
        /\ carriesDefaults className (deref newSchema (snd update))
        /\ exists merged,
             buildMergedSchemaObject
               (odelete "_wperm" (odelete "_rperm" (deref existingFields st)))
               (deref submittedFields st) = Ok merged
             /\ keepsOthers className merged
                  (deref newSchema (snd update))).
Proof.
  intros Hf He Hs Hne loop run update.
  split; [|split; [|split; [|split]]].
  - intros Hl. subst run loop. unfold validateSchemaData_at.
    pose proof (validateSchemaData_fields className (deref fields st) clp
                  existingFieldNames) as V.
    pose proof (validateSchemaData_keeps className (deref fields st) clp
                  existingFieldNames) as K.
    rewrite Hl in V.
    destruct (validateSchemaData className (deref fields st) clp
                existingFieldNames) as [r f].
    simpl in *. rewrite deref_assign_same by exact Hf.
    split; [exact V|]. split; [exact K|].
    intros other Ho. now apply deref_assign_other.
  - intros Hl. subst run loop. unfold validateSchemaData_at.
    pose proof (validateSchemaData_fields className (deref fields st) clp
                  existingFieldNames) as V.
    destruct (checkNewFields className existingFieldNames (deref fields st))
      as [[e|]|t]; try congruence; rewrite V, assign_deref; reflexivity.
  - intros Hd Hv. unfold validateNewClass_at, validateNewClass.
    rewrite Hd, Hv. reflexivity.
  - subst update. unfold updateClass_validate.
    destruct (checkSubmitted _ _); [|reflexivity].
    set (st1 := assign existingFields _ st).
    assert (L1 : List.length st1 = List.length st) by apply length_assign.
    assert (D1 : deref submittedFields st1 = deref submittedFields st)
      by (apply deref_assign_other; exact Hne).
    destruct (buildMergedSchemaObject _ _) as [merged|t]; [|exact D1].
    unfold alloc, validateSchemaData_at.
    destruct (validateSchemaData className _ clp _) as [r f].
    assert (D3 : deref submittedFields
                   (assign (List.length st1) f (st1 ++ [merged]))
                 = deref submittedFields st).
    { rewrite deref_assign_other by lia.
      rewrite <- D1. apply (deref_alloc submittedFields merged st1). lia. }
    destruct r as [[e|]|t]; exact D3.
  - intros newSchema. subst update. unfold updateClass_validate.
    destruct (checkSubmitted _ _); [|discriminate].
    set (st1 := assign existingFields _ st).
    assert (L1 : List.length st1 = List.length st) by apply length_assign.
    assert (E1 : deref existingFields st1
                 = odelete "_wperm" (odelete "_rperm" (deref existingFields st)))
      by (apply deref_assign_same; exact He).
    assert (S1 : deref submittedFields st1 = deref submittedFields st)
      by (apply deref_assign_other; exact Hne).
    rewrite E1, S1.
    destruct (buildMergedSchemaObject _ _) as [merged|t] eqn:B; [|discriminate].
    unfold alloc, validateSchemaData_at.
    assert (D : deref (List.length st1) (st1 ++ [merged]) = merged).
    { unfold deref. rewrite app_nth2 by lia. now rewrite Nat.sub_diag. }
    rewrite D.
    pose proof (validateSchemaData_fields className merged clp
                  (okeys (deref existingFields (st1 ++ [merged])))) as V.
    pose proof (validateSchemaData_keeps className merged clp
                  (okeys (deref existingFields (st1 ++ [merged])))) as K.
    destruct (validateSchemaData className merged clp _) as [r f].
    destruct r as [[e|]|t]; try discriminate.
    simpl. intros [= <-]. split; [exact L1|].
    assert (Df : deref (List.length st1)
                   (assign (List.length st1) f (st1 ++ [merged])) = f).
    { apply deref_assign_same. rewrite length_app. simpl. lia. }
    rewrite Df. simpl in K.
    split.
    + destruct (checkNewFields className _ merged) as [[e|]|t];
        try (injection V as V _; discriminate).
      exact V.
    + exists merged. split; [reflexivity | exact K].
Qed.

Lemma validateSchemaData_writes_defaults_witness :
  let st : Store :=
    [ [("nick", ty "String")];
      [("objectId", ty "String"); ("score", ty "Number")];
      [("level", ty "Number")];
      [("9lives", ty "Number")] ] in
  (carriesDefaults "_Role"
     (deref 0 (snd (validateSchemaData_at "_Role" 0 JUndefined [] st)))
   /\ keepsOthers "_Role" [("nick", ty "String")]
        (deref 0 (snd (validateSchemaData_at "_Role" 0 JUndefined [] st)))
   /\ forall other, other <> 0 ->
        deref other (snd (validateSchemaData_at "_Role" 0 JUndefined [] st))
        = deref other st)
  /\ validateSchemaData_at "_Role" 3 JUndefined [] st
     = (Ok (Some (mkError INVALID_KEY_NAME "invalid field name: 9lives")), st)
  /\ validateNewClass_at [] "_Role" 0 JUndefined st
     = validateSchemaData_at "_Role" 0 JUndefined [] st
  /\ deref 2 (snd (updateClass_validate "_Role" 1 2 JUndefined st))
     = [("level", ty "Number")]
  /\ carriesDefaults "_Role"
       (deref 4 (snd (updateClass_validate "_Role" 1 2 JUndefined st))).
Proof.
  intros st.
  pose proof (validateSchemaData_writes_defaults [] "_Role" 0 1 2 JUndefined []
                st) as H.
  pose proof (validateSchemaData_writes_defaults [] "_Role" 3 1 2 JUndefined []
                st) as H'.
  simpl in H, H'.
  specialize (H ltac:(lia) ltac:(lia) ltac:(lia) ltac:(lia)).
  specialize (H' ltac:(lia) ltac:(lia) ltac:(lia) ltac:(lia)).
  destruct H as (H1 & _ & H3 & H4 & H5).
  destruct H' as (_ & H2 & _).
  split; [apply H1; reflexivity|].
  split; [apply H2; discriminate|].
  split; [apply H3; reflexivity|].
  split; [exact H4|].
  apply (H5 4). reflexivity.
Defined.

(** C10, as the claim states it, fails: a call that reports an invalid
    field name has not written the default columns of the class. *)
Lemma validateSchemaData_error_leaves_fields :
  let st : Store := [ [("1bad", ty "String")] ] in
  fst (validateSchemaData_at "_User" 0 JUndefined [] st)
  = Ok (Some (mkError INVALID_KEY_NAME "invalid field name: 1bad"))
  /\ ~ carriesDefaults "_User"
         (deref 0 (snd (validateSchemaData_at "_User" 0 JUndefined [] st))).
Proof.
  intros st. split; [reflexivity|].
  intros H.
  specialize (H _ "username" (ty "String") eq_refl eq_refl).
  discriminate.
Qed.

(** ** Reloads in flight *)

(** A call without [clearCache] is handed the promise the controller
    keeps, and nothing else happens. *)
Lemma reload_shares_kept_promise (st : Reload.State) (p : nat) :
  Reload.reloadDataPromise st = Some p ->
  Reload.call false st = (p, st).
Proof. intros H. unfold Reload.call. rewrite H. destruct st; simpl in *. now subst. Qed.

(** A call with [clearCache] always starts a reload of its own. *)
Lemma reload_forced_is_fresh (st : Reload.State) :
  fst (Reload.call true st) = Reload.fetches st
  /\ Reload.fetches (snd (Reload.call true st)) = S (Reload.fetches st)
  /\ Reload.reloadDataPromise (snd (Reload.call true st))
     = Some (Reload.fetches st).
Proof. unfold Reload.call. destruct (Reload.reloadDataPromise st); auto. Qed.

Lemma unforced_step (st : Reload.State) (e : Reload.Event) :
  unforced e = true -> keptIsPending st -> keptIsPending (Reload.step st e).
Proof.
  unfold keptIsPending. destruct e as [[|]|p]; simpl; [discriminate| |];
    intros _ H.
  - unfold Reload.call. destruct (Reload.reloadDataPromise st); simpl.
    + exact H.
    + now rewrite H.
  - unfold Reload.settle. rewrite H.
    destruct (Reload.reloadDataPromise st) as [q|] eqn:E; simpl.
    + destruct (Nat.eqb p q) eqn:Epq; simpl; [reflexivity|].
      now rewrite E.
    + now rewrite E.
Qed.

Lemma unforced_run_kept (events : list Reload.Event) :
  forall s, forallb unforced events = true ->
            keptIsPending s -> keptIsPending (fold_left Reload.step events s).
Proof.
  induction events as [|e ev IH]; intros s Hu Hs; simpl; [exact Hs|].
  simpl in Hu. apply andb_prop in Hu as [He Hev].
  apply IH; [exact Hev | apply unforced_step; assumption].
Qed.

(** As long as no call sets [clearCache], the reload in flight is the one
    the controller keeps: every call shares it. *)
Lemma unforced_runs_share (events : list Reload.Event) :
  forallb unforced events = true ->
  let st := Reload.run events in
  Reload.inFlight st = true ->
  exists p, Reload.pending st = [p] /\ Reload.call false st = (p, st).
Proof.
  intros Hu st Hin.
  assert (K : keptIsPending st).
  { subst st. unfold Reload.run.
    apply unforced_run_kept; [exact Hu | reflexivity]. }
  unfold keptIsPending in K. unfold Reload.inFlight in Hin.
  destruct (Reload.reloadDataPromise st) as [p|] eqn:E.
  - exists p. split; [exact K | apply reload_shares_kept_promise; exact E].
  - rewrite K in Hin. discriminate.
Qed.

(** C8.  A reload started with [clearCache] while another is in flight
    replaces the promise kept; the callback of the older reload then
    deletes the promise of the newer one.  After the calls
    [reloadData()], [reloadData({clearCache: true})] and the callback of
    the first, the second reload (promise 1) is still in flight, and a
    call without [clearCache] is not handed its promise: it starts a third
    reload (promise 2) with a fetch of its own. *)
Theorem reload_forgets_forced_reload :
  let st :=
    Reload.run [Reload.Call false; Reload.Call true; Reload.Settle 0] in
  Reload.inFlight st = true
  /\ Reload.pending st = [1]
  /\ Reload.reloadDataPromise st = None
  /\ fst (Reload.call false st) = 2
  /\ Reload.fetches (snd (Reload.call false st)) = S (Reload.fetches st).
Proof. repeat split. Qed.

(** ** Fields with a recorded type *)

Lemma is_word_not_dot (c : ascii) : is_word c = true -> Ascii.eqb c "." = false.
Proof.
  intros H. destruct (Ascii.eqb c ".") eqn:E; [|reflexivity].
  apply Ascii.eqb_eq in E. subst c. discriminate.
Qed.

Lemma words_have_no_dot (s : string) (first : bool) :
  all_chars is_word s = true -> has_inner_dot first s = false.
Proof.
  revert first. induction s as [|c r IH]; intros first H; simpl in *;
    [reflexivity|].
  apply andb_prop in H as [Hc Hr]. rewrite (is_word_not_dot c Hc). auto.
Qed.

Lemma valid_field_name_no_dot (fieldName : string) :
  fieldNameIsValid fieldName = true -> has_inner_dot true fieldName = false.
Proof.
  unfold fieldNameIsValid, classAndFieldRegex.
  destruct fieldName as [|c r]; [discriminate|].
  intros H. apply andb_prop in H as [Hc Hr].
  apply words_have_no_dot. simpl. rewrite Hr.
  unfold is_word, is_alnum. now rewrite Hc.
Qed.

Lemma wellFormed_tag (t : FieldType) : wellFormed t -> tagOf t <> EmptyString.
Proof.
  destruct t as [tag| |]; simpl; try discriminate.
  intros H. repeat (destruct H as [<- | H]; [discriminate|]). contradiction.
Qed.

Lemma truthy_declOf (t : FieldType) : truthy (declOf t) = true.
Proof. destruct t; reflexivity. Qed.

Lemma type_of_declOf (t : FieldType) :
  vget "type" (declOf t) = Ok (JStr (tagOf t)).
Proof. destruct t; reflexivity. Qed.

Lemma strict_eq_JStr (a b : string) :
  strict_eq (JStr a) (JStr b) = String.eqb a b.
Proof. reflexivity. Qed.

(** Two well-formed field types match exactly when they are the same. *)
Lemma dbTypeMatches_declOf (T T' : FieldType) :
  wellFormed T -> wellFormed T' ->
  (T' = T -> dbTypeMatchesObjectType (declOf T) (declOf T') = Ok true)
  /\ (T' <> T -> dbTypeMatchesObjectType (declOf T) (declOf T') = Ok false).
Proof.
  intros W W'. split.
  - intros ->. unfold dbTypeMatchesObjectType.
    destruct T; simpl; rewrite ?String.eqb_refl; reflexivity.
  - intros N. unfold dbTypeMatchesObjectType.
    rewrite !type_of_declOf. cbn [rbind]. rewrite strict_eq_JStr.
    destruct (String.eqb (tagOf T) (tagOf T')) eqn:E; cbn [negb];
      [|reflexivity].
    apply String.eqb_eq in E.
    destruct T as [a|c|c], T' as [a'|c'|c']; cbn [tagOf] in E;
      try discriminate;
      try solve [subst; exfalso; cbn in W, W'; intuition discriminate].
    + cbn. destruct (String.eqb c c') eqn:Ec; [|reflexivity].
      apply String.eqb_eq in Ec. congruence.
    + cbn. destruct (String.eqb c c') eqn:Ec; [|reflexivity].
      apply String.eqb_eq in Ec. congruence.
Qed.

Lemma schemaMismatch_declOf (className fieldName : string) (T T' : FieldType) :
  wellFormed T ->
  schemaMismatch className fieldName (declOf T) (declOf T')
  = Ok (ParseErr (mkError INCORRECT_TYPE
          ("schema mismatch for " ++ className ++ "." ++ fieldName
           ++ "; expected " ++ tagOf T ++ " but got " ++ tagOf T'))).
Proof.
  intros W. unfold schemaMismatch. rewrite !type_of_declOf. simpl.
  apply wellFormed_tag, String.eqb_neq in W. rewrite W. reflexivity.
Qed.

Lemma denotes_normal (arg : JsVal) (T : FieldType) :
  wellFormed T -> denotes arg T ->
  truthy arg = true
  /\ match arg with JStr _ => JObj [("type", arg)] | _ => arg end = declOf T.
Proof.
  intros W [-> | (tag & -> & ->)].
  - split; [apply truthy_declOf | destruct T; reflexivity].
  - split; [|reflexivity].
    apply wellFormed_tag in W. simpl in *.
    apply String.eqb_neq in W. now rewrite W.
Qed.

Section RecordedType.

Context {DB C : Type} {adapter : StorageAdapter DB} {schemaCache : SchemaCache C}.

(** C4.  Let the field [fieldName] of the class have the recorded type
    [T]: a reload shows it in the view.  Then [enforceFieldExists] with a
    field type [T'] other than [T] fails with the type-mismatch error
    that names the expected and the actual type, and with [T' = T] it
    succeeds having done nothing but the reload: no field is added and
    the cache is not cleared. *)
Theorem enforceFieldExists_recorded (w : World DB C)
  (className fieldName : string) (T T' : FieldType) (arg : JsVal) :
  fieldNameIsValid fieldName = true ->
  wellFormed T -> wellFormed T' -> denotes arg T' ->
  fst (reloadData false w) = Ok tt ->
  getExpectedType (data (snd (reloadData false w))) className fieldName
  = declOf T ->
  (T' = T ->
   enforceFieldExists className fieldName arg w
   = (Ok tt, snd (reloadData false w)))
  /\ (T' <> T ->
      enforceFieldExists className fieldName arg w
      = (Throw (ParseErr (mkError INCORRECT_TYPE
                  ("schema mismatch for " ++ className ++ "." ++ fieldName
                   ++ "; expected " ++ tagOf T ++ " but got " ++ tagOf T'))),
         snd (reloadData false w))).
Proof.
  intros Hname W W' Hden Hreload Hrec.
  destruct (denotes_normal arg T' W' Hden) as [Htruthy Hnorm].
  destruct (dbTypeMatches_declOf T T' W W') as [Hsame Hother].
  split; intros HT; unfold enforceFieldExists;
    rewrite (valid_field_name_no_dot fieldName Hname), Hname, Htruthy;
    cbn [negb]; unfold mbind at 1;
    destruct (reloadData false w) as [r w1]; simpl in Hreload, Hrec; subst r;
    unfold mbind at 1, get_data;
    rewrite Hrec, Hnorm, truthy_declOf;
    unfold mbind, lift.
  - rewrite (Hsame HT). reflexivity.
  - rewrite (Hother HT). cbn [negb].
    rewrite (schemaMismatch_declOf className fieldName T T' W). reflexivity.
Qed.

End RecordedType.

(** The world after a first [enforceFieldExists] has recorded the type
    Number for the field [score] of the class Game: a second call with
    String fails, a second call with Number does nothing. *)
Lemma enforceFieldExists_recorded_witness :
  let w0 := Mem.world [mkSchema "Game" [] JUndefined] in
  let w1 := snd (enforceFieldExists "Game" "score" (JStr "Number") w0) in
  fst (enforceFieldExists "Game" "score" (JStr "Number") w0) = Ok tt
  /\ enforceFieldExists "Game" "score" (JStr "Number") w1
     = (Ok tt, snd (reloadData false w1))
  /\ fst (enforceFieldExists "Game" "score" (JStr "String") w1)
     = Throw (ParseErr (mkError INCORRECT_TYPE
         "schema mismatch for Game.score; expected Number but got String")).
Proof.
  intros w0 w1.
  assert (Hin : forall tag, In tag ["Number"; "String"] ->
                            wellFormed (Scalar tag)).
  { intros tag [<- | [<- | []]]; simpl; tauto. }
  assert (Hreload : fst (reloadData false w1) = Ok tt)
    by (vm_compute; reflexivity).
  assert (Hrec : getExpectedType (data (snd (reloadData false w1)))
                   "Game" "score" = declOf (Scalar "Number"))
    by (vm_compute; reflexivity).
  split; [vm_compute; reflexivity|]. split.
  - apply (proj1 (enforceFieldExists_recorded w1 "Game" "score"
                    (Scalar "Number") (Scalar "Number") (JStr "Number")
                    eq_refl (Hin _ (or_introl eq_refl))
                    (Hin _ (or_introl eq_refl))
                    (or_intror (ex_intro _ "Number" (conj eq_refl eq_refl)))
                    Hreload Hrec)).
    reflexivity.
  - rewrite (proj2 (enforceFieldExists_recorded w1 "Game" "score"
                    (Scalar "Number") (Scalar "String") (JStr "String")
                    eq_refl (Hin _ (or_introl eq_refl))
                    (Hin _ (or_intror (or_introl eq_refl)))
                    (or_intror (ex_intro _ "String" (conj eq_refl eq_refl)))
                    Hreload Hrec)); [reflexivity | discriminate].
Defined.

(** ** GeoPoint fields in [validateObject] *)

Lemma message_differs (c : ErrCode) (m : string) :
  m <> "there can only be one geopoint field in a class" ->
  benign (ParseErr (mkError c m)).
Proof. intros H E. injection E as _ E. contradiction. Qed.

Lemma code_differs (c : ErrCode) (m : string) :
  c <> INCORRECT_TYPE -> benign (ParseErr (mkError c m)).
Proof. intros H E. injection E as E _. contradiction. Qed.

Lemma typeSwitch_benign (obj tag : JsVal) (t : Thrown) :
  typeSwitch obj tag = Throw t -> benign t.
Proof.
  unfold typeSwitch.
  assert (N : benign (notValid tag))
    by (apply message_differs; simpl; discriminate).
  assert (V : forall k (f : JsVal -> Res JsVal),
             (forall x t, f x = Throw t -> benign t) ->
             forall t, (x <- vget k obj ;; f x) = Throw t -> benign t).
  { intros k f Hf t'. destruct (vget_cases k obj) as [[_ ->] | [_ [x ->]]]; simpl.
    - intros [= <-]. discriminate.
    - apply Hf. }
  assert (B : forall t, (b <- vget "base64" obj ;;
                         if truthy b then Ok JUndefined else Throw (notValid tag))
                        = Throw t -> benign t).
  { apply V. intros x t'. destruct (truthy x); [discriminate|].
    intros [= <-]. exact N. }
  assert (G : forall t, (la <- vget "latitude" obj ;;
                         lo <- vget "longitude" obj ;;
                         if not_nullish la && not_nullish lo
                         then Ok (JStr "GeoPoint")
                         else b <- vget "base64" obj ;;
                              if truthy b then Ok JUndefined
                              else Throw (notValid tag))
                        = Throw t -> benign t).
  { apply V. intros la. apply V. intros lo t'.
    destruct (not_nullish la && not_nullish lo); [discriminate | apply B]. }
  assert (D : forall t, (i <- vget "iso" obj ;;
                         if truthy i then Ok (JStr "Date")
                         else la <- vget "latitude" obj ;;
                              lo <- vget "longitude" obj ;;
                              if not_nullish la && not_nullish lo
                              then Ok (JStr "GeoPoint")
                              else b <- vget "base64" obj ;;
                                   if truthy b then Ok JUndefined
                                   else Throw (notValid tag))
                        = Throw t -> benign t).
  { apply V. intros i t'. destruct (truthy i); [discriminate | apply G]. }
  assert (F : forall t, (n <- vget "name" obj ;;
                         if truthy n then Ok (JStr "File")
                         else i <- vget "iso" obj ;;
                              if truthy i then Ok (JStr "Date")
                              else la <- vget "latitude" obj ;;
                                   lo <- vget "longitude" obj ;;
                                   if not_nullish la && not_nullish lo
                                   then Ok (JStr "GeoPoint")
                                   else b <- vget "base64" obj ;;
                                        if truthy b then Ok JUndefined
                                        else Throw (notValid tag))
                        = Throw t -> benign t).
  { apply V. intros n t'. destruct (truthy n); [discriminate | apply D]. }
  destruct (is_str "Pointer" tag).
  { revert t. apply V. intros c t'. destruct (truthy c); [discriminate | apply F]. }
  destruct (is_str "File" tag); [apply F|].
  destruct (is_str "Date" tag); [apply D|].
  destruct (is_str "GeoPoint" tag); [apply G|].
  destruct (is_str "Bytes" tag); [apply B|].
  intros [= <-]. exact N.
Qed.

Lemma rbind_throw {A B} (r : Res A) (f : A -> Res B) (t : Thrown) :
  rbind r f = Throw t ->
  r = Throw t \/ exists x, r = Ok x /\ f x = Throw t.
Proof. destruct r; simpl; [eauto | intros [= ->]; auto]. Qed.

Lemma vget_benign (k : string) (v : JsVal) (t : Thrown) :
  vget k v = Throw t -> benign t.
Proof.
  destruct (vget_cases k v) as [[_ ->] | [_ [x ->]]]; intros [= <-].
  discriminate.
Qed.

Lemma getObjectType_fuel_benign (n : nat) :
  forall obj t, getObjectType_fuel n obj = Some (Throw t) -> benign t.
Proof.
  induction n as [|n IH]; intros obj t; [discriminate|].
  cbn [getObjectType_fuel].
  destruct obj as [| | | | |l|o]; try (intros [= <-]; discriminate).
  destruct (vget "__type" (JObj o)) as [tag|t0] eqn:Et;
    [|intros [= <-]; eapply vget_benign; eauto].
  destruct (truthy tag).
  { intros [= H]. eapply typeSwitch_benign; eauto. }
  destruct (vget "$ne" (JObj o)) as [ne|t0] eqn:En;
    [|intros [= <-]; eapply vget_benign; eauto].
  destruct (truthy ne); [apply IH|].
  destruct (vget "__op" (JObj o)) as [op|t0] eqn:Eo;
    [|intros [= <-]; eapply vget_benign; eauto].
  destruct (negb (truthy op)); [discriminate|].
  destruct (is_str "Increment" op); [discriminate|].
  destruct (is_str "Delete" op); [discriminate|].
  destruct (is_str "Add" op || is_str "AddUnique" op || is_str "Remove" op);
    [discriminate|].
  destruct (is_str "AddRelation" op || is_str "RemoveRelation" op).
  { intros [= H].
    repeat (apply rbind_throw in H as [H | (? & _ & H)];
            [eapply vget_benign; eauto|]).
    discriminate. }
  destruct (is_str "Batch" op).
  { destruct (ops <- vget "ops" (JObj o) ;; vget "0" ops) as [first|t0] eqn:E1;
      [apply IH|].
    intros [= <-].
    apply rbind_throw in E1 as [H | (ops & _ & H)];
      eapply vget_benign; eauto. }
  intros [= <-]. discriminate.
Qed.

Lemma getType_benign (v : JsVal) (t : Thrown) :
  getType v = Throw t -> benign t.
Proof.
  assert (O : forall obj, getObjectType obj = Throw t -> benign t).
  { intros obj. unfold getObjectType.
    destruct (getObjectType_fuel (S (size obj)) obj) as [r|] eqn:E.
    - intros ->. eapply getObjectType_fuel_benign; eauto.
    - intros [= <-]. discriminate. }
  destruct v; simpl; try discriminate; try apply O.
  intros [= <-]. discriminate.
Qed.

Lemma dbTypeMatches_benign (a b : JsVal) (t : Thrown) :
  dbTypeMatchesObjectType a b = Throw t -> benign t.
Proof.
  unfold dbTypeMatchesObjectType. intros H.
  apply rbind_throw in H as [H | (dt & _ & H)]; [eapply vget_benign; eauto|].
  apply rbind_throw in H as [H | (ot & _ & H)]; [eapply vget_benign; eauto|].
  destruct (negb (strict_eq dt ot)); [discriminate|].
  apply rbind_throw in H as [H | (dc & _ & H)]; [eapply vget_benign; eauto|].
  apply rbind_throw in H as [H | (oc & _ & H)]; [eapply vget_benign; eauto|].
  destruct (negb (strict_eq dc oc)); [discriminate|].
  destruct (strict_eq a ot); [discriminate|].
  destruct (strict_eq dt ot); discriminate.
Qed.

Lemma schemaMismatch_benign (c f : string) (a b : JsVal) :
  match schemaMismatch c f a b with Ok e => benign e | Throw e => benign e end.
Proof.
  unfold schemaMismatch.
  destruct (vget "type" a) as [et|t] eqn:E1; cbn [rbind];
    [|eapply vget_benign; eauto].
  destruct (vget "type" b) as [tt'|t] eqn:E2; cbn [rbind];
    [|eapply vget_benign; eauto].
  apply message_differs. simpl. discriminate.
Qed.

Lemma filter_head {A} (f : A -> bool) (l : list A) (x : A) (r : list A) :
  filter f l = x :: r -> In x l.
Proof.
  intros H. assert (I : In x (filter f l)) by (rewrite H; left; reflexivity).
  apply filter_In in I. tauto.
Qed.

Lemma validateRequiredColumns_benign (className : string) (object : Props)
  (query : JsVal) (t : Thrown) :
  validateRequiredColumns className object query = Throw t -> benign t.
Proof.
  unfold validateRequiredColumns, requiredColumns. simpl.
  destruct (String.eqb className "_Product").
  { destruct (filter _ _) as [|missing r] eqn:F; [discriminate|].
    intros [= <-]. apply filter_head in F. simpl in F.
    repeat (destruct F as [<- | F]; [apply message_differs; discriminate|]).
    contradiction. }
  destruct (String.eqb className "_Role");
    [| destruct (inherited className && negb (inheritedLengthIsZero className));
       [intros [= <-]; unfold benign; discriminate | discriminate] ].
  destruct (filter _ _) as [|missing r] eqn:F; [discriminate|].
  intros [= <-]. apply filter_head in F. simpl in F.
  repeat (destruct F as [<- | F]; [apply message_differs; discriminate|]).
  contradiction.
Qed.

Lemma strict_eq_undefined (v : JsVal) :
  strict_eq v JUndefined = true <-> v = JUndefined.
Proof. destruct v; simpl; split; congruence. Qed.

(** A loop of [validateObject] that ends on a thrown value ends on one
    that [getType] threw. *)
Lemma scanObject_benign (object : Props) :
  forall g steps t, scanObject g object = (steps, Thrown_ t) -> benign t.
Proof.
  induction object as [|[k v] rest IH]; intros g steps t; simpl;
    [discriminate|].
  destruct (strict_eq v JUndefined); [apply IH|].
  destruct (getType v) as [expected|t0] eqn:E;
    [|intros [= _ <-]; eapply getType_benign; eauto].
  destruct (Nat.ltb 1 _); [discriminate|].
  destruct (negb (truthy expected)); [apply IH|].
  destruct (String.eqb k "ACL"); [apply IH|].
  destruct (scanObject _ rest) as [steps' e] eqn:S.
  intros [= _ ->]. eapply IH; eauto.
Qed.

(** The loop ends on [geocount > 1] only when the object holds enough
    GeoPoint values. *)
Lemma scanObject_counts (object : Props) :
  forall g steps,
    scanObject g object = (steps, TooManyGeoPoints) ->
    2 <= g + geoPointCount object.
Proof.
  unfold geoPointCount.
  induction object as [|[k v] rest IH]; intros g steps; simpl;
    [discriminate|].
  destruct (strict_eq v JUndefined) eqn:U.
  { apply strict_eq_undefined in U. subst v. simpl. apply IH. }
  destruct (getType v) as [expected|t0] eqn:E; [|discriminate].
  destruct (is_str "GeoPoint" expected) eqn:G; simpl.
  - destruct (Nat.ltb 1 (S g)) eqn:L;
      [apply Nat.ltb_lt in L; intros _; lia|].
    destruct (negb (truthy expected));
      [intros H; apply IH in H; lia|].
    destruct (String.eqb k "ACL"); [intros H; apply IH in H; lia|].
    destruct (scanObject _ rest) as [steps' e] eqn:S.
    intros [= _ ->]. apply IH in S. lia.
  - destruct (Nat.ltb 1 g) eqn:L; [apply Nat.ltb_lt in L; intros _; lia|].
    destruct (negb (truthy expected)); [apply IH|].
    destruct (String.eqb k "ACL"); [apply IH|].
    destruct (scanObject _ rest) as [steps' e] eqn:S.
    intros [= _ ->]. eapply IH; eauto.
Qed.

(** With two GeoPoint values in an object whose values all classify, the
    loop ends on [geocount > 1]. *)
Lemma scanObject_two (object : Props) :
  forall g,
    allClassify object -> g <= 1 -> 2 <= g + geoPointCount object ->
    snd (scanObject g object) = TooManyGeoPoints.
Proof.
  unfold geoPointCount.
  induction object as [|[k v] rest IH]; intros g Hall Hg Hc; simpl in *;
    [lia|].
  assert (Hrest : allClassify rest)
    by (intros k' v' Hin; apply (Hall k' v'); right; exact Hin).
  destruct (Hall k v (or_introl eq_refl)) as [-> | [expected E]].
  { simpl in *. apply IH; assumption. }
  destruct (strict_eq v JUndefined) eqn:U.
  { apply strict_eq_undefined in U. subst v. discriminate. }
  rewrite E in *.
  destruct (is_str "GeoPoint" expected) eqn:G; simpl in *.
  - destruct g as [|g]; simpl.
    + assert (R : snd (scanObject 1 rest) = TooManyGeoPoints)
        by (apply IH; [assumption | lia | lia]).
      destruct (negb (truthy expected)); [exact R|].
      destruct (String.eqb k "ACL"); [exact R|].
      destruct (scanObject 1 rest); exact R.
    + reflexivity.
  - assert (L : Nat.ltb 1 g = false) by (apply Nat.ltb_ge; lia).
    rewrite L.
    assert (R : snd (scanObject g rest) = TooManyGeoPoints)
      by (apply IH; assumption).
    destruct (negb (truthy expected)); [exact R|].
    destruct (String.eqb k "ACL"); [exact R|].
    destruct (scanObject g rest); exact R.
Qed.

Section GeoPoints.

Context {DB C : Type} {adapter : StorageAdapter DB} {schemaCache : SchemaCache C}.

Lemma throws_ret {A} (a : A) (P : Thrown -> Prop) :
  throws (@ret DB C A a) P.
Proof. intros w e. discriminate. Qed.

Lemma throws_throw {A} (t : Thrown) (P : Thrown -> Prop) :
  P t -> throws (@throw DB C A t) P.
Proof. intros H w e [= <-]. exact H. Qed.

Lemma throws_lift {A} (r : Res A) (P : Thrown -> Prop) :
  (forall e, r = Throw e -> P e) -> throws (@lift DB C A r) P.
Proof. intros H w e E. apply H. exact E. Qed.

Lemma throws_bind {A B} (m : @M DB C A) (k : A -> M B) (P : Thrown -> Prop) :
  throws m P -> (forall a, throws (k a) P) -> throws (mbind m k) P.
Proof.
  intros Hm Hk w e. unfold mbind.
  destruct (m w) as [[a|t] w'] eqn:E.
  - apply Hk.
  - intros [= <-]. apply (Hm w). now rewrite E.
Qed.

Lemma throws_catch {A} (m : @M DB C A) (h : Thrown -> M A)
  (P : Thrown -> Prop) :
  (forall t, throws (h t) P) -> throws (mcatch m h) P.
Proof.
  intros Hh w e. unfold mcatch.
  destruct (m w) as [[a|t] w']; [discriminate | apply Hh].
Qed.

Lemma throws_then {A B} (m : @M DB C A) (k : A -> M B) (h : Thrown -> M B)
  (P : Thrown -> Prop) :
  (forall a, throws (k a) P) -> (forall t, throws (h t) P) ->
  throws (mthen m k h) P.
Proof.
  intros Hk Hh w e. unfold mthen.
  destruct (m w) as [[a|t] w']; [apply Hk | apply Hh].
Qed.

Lemma throws_state (P : Thrown -> Prop) :
  (forall d, throws (@set_data DB C d) P)
  /\ (forall p, throws (@set_perms DB C p) P)
  /\ throws (@get_data DB C) P
  /\ (forall op, throws (@write_cache DB C op) P)
  /\ (forall A (op : C -> A * C), throws (@read_cache DB C A op) P).
Proof.
  repeat split; try (intros ? w e; discriminate).
  intros A op w e. unfold read_cache. destruct (op (cache w)). discriminate.
Qed.

Lemma throws_when (b : bool) (m : @M DB C unit) (P : Thrown -> Prop) :
  throws m P -> throws (when b m) P.
Proof. destruct b; [auto | intros _; apply throws_ret]. Qed.

Ltac throws_state :=
  first [ apply throws_ret
        | apply (proj1 (throws_state _))
        | apply (proj1 (proj2 (throws_state _)))
        | apply (proj1 (proj2 (proj2 (throws_state _))))
        | apply (proj1 (proj2 (proj2 (proj2 (throws_state _)))))
        | apply (proj2 (proj2 (proj2 (proj2 (throws_state _)))))
        | apply throws_when; apply (proj1 (proj2 (proj2 (proj2 (throws_state _))))) ].

(** The adapter does not itself answer a read of all classes with the
    error for too many GeoPoint fields. *)
Hypothesis reads_benign :
  forall d e, fst (db_getAllClasses d) = Throw e -> benign e.

Lemma getAllClasses_benign (clearCache : bool) :
  throws (getAllClasses clearCache) benign.
Proof.
  unfold getAllClasses.
  apply throws_bind; [throws_state|]. intros _.
  apply throws_bind; [throws_state|]. intros allClasses.
  assert (F : throws
                (mbind (call_db db_getAllClasses)
                   (fun allSchemas =>
                      mbind (write_cache
                               (cache_setAllClasses
                                  (map injectDefaultSchema allSchemas)))
                        (fun _ => ret (map injectDefaultSchema allSchemas))))
                benign).
  { apply throws_bind.
    - intros w e. unfold call_db.
      destruct (db_getAllClasses (db w)) as [r d] eqn:E. simpl. intros ->.
      apply (reads_benign (db w)). now rewrite E.
    - intros l. apply throws_bind; [throws_state|]. intros _. throws_state. }
  destruct allClasses as [[|s l]|]; try exact F.
  destruct (negb clearCache); [throws_state | exact F].
Qed.

Lemma reloadData_benign (clearCache : bool) :
  throws (reloadData clearCache) benign.
Proof.
  unfold reloadData.
  apply throws_bind; [throws_state|]. intros _.
  apply throws_bind; [throws_state|]. intros _.
  apply throws_bind; [throws_state|]. intros _.
  apply throws_bind; [apply getAllClasses_benign|]. intros l.
  intros w e. discriminate.
Qed.

Lemma enforceClassExists_benign (className : string) :
  throws (enforceClassExists className) benign.
Proof.
  unfold enforceClassExists.
  apply throws_bind; [throws_state|]. intros d.
  destruct (truthy_at className d); [throws_state|].
  apply throws_catch. intros _.
  apply throws_throw, code_differs. discriminate.
Qed.

Lemma enforceFieldExists_benign (className fieldName : string) (type : JsVal) :
  throws (enforceFieldExists className fieldName type) benign.
Proof.
  unfold enforceFieldExists.
  destruct (negb (fieldNameIsValid _));
    [apply throws_throw, code_differs; discriminate|].
  destruct (negb (truthy _)); [throws_state|].
  apply throws_bind; [apply reloadData_benign|]. intros _.
  apply throws_bind; [throws_state|]. intros d.
  destruct (truthy (getExpectedType d className _)).
  - apply throws_bind;
      [apply throws_lift; intros e; apply dbTypeMatches_benign|].
    intros matches. destruct (negb matches); [|throws_state].
    match goal with
    | |- throws (mbind (lift (schemaMismatch ?c ?f ?a ?b)) _) _ =>
        pose proof (schemaMismatch_benign c f a b) as S;
        destruct (schemaMismatch c f a b) as [e|e]
    end.
    + intros w e'. unfold mbind, lift, throw. simpl. intros [= <-]. exact S.
    + intros w e'. unfold mbind, lift. simpl. intros [= <-]. exact S.
  - apply throws_bind.
    { apply throws_then; intros _; apply reloadData_benign. }
    intros _.
    apply throws_bind; [throws_state|]. intros d'.
    apply throws_bind;
      [apply throws_lift; intros e; apply dbTypeMatches_benign|].
    intros matches. destruct (negb matches); [|throws_state].
    apply throws_throw, code_differs. discriminate.
Qed.

Lemma enforceFields_benign (className : string) (steps : list (string * JsVal)) :
  throws (enforceFields className steps) benign.
Proof.
  induction steps as [|[f e] rest IH]; simpl; [throws_state|].
  apply throws_bind; [apply enforceFieldExists_benign | intros _; exact IH].
Qed.

(** C1, as the source has it.  [validateObject] counts the GeoPoint
    values of the object it is given, not the GeoPoint fields of the
    class.  An object with at most one GeoPoint value never fails with
    the error for too many GeoPoint fields, whatever fields the class
    has.  An object with two or more GeoPoint values, all of whose values
    classify, always fails: with that error when the class and the fields
    chained before the second GeoPoint value are enforced without error,
    and with the error of that enforcement otherwise. *)
Theorem validateObject_geoPoints (w : World DB C) (className : string)
  (object : Props) (query : JsVal) :
  (geoPointCount object <= 1 ->
   fst (validateObject className object query w) <> Throw geoPointError)
  /\ (2 <= geoPointCount object -> allClassify object ->
      exists steps,
        scanObject 0 object = (steps, TooManyGeoPoints)
        /\ fst (validateObject className object query w)
           = match fst (mbind (enforceClassExists className)
                          (fun _ => enforceFields className steps) w) with
             | Ok _ => Throw geoPointError
             | Throw t => Throw t
             end).
Proof.
  assert (P : forall steps,
             throws (mbind (enforceClassExists className)
                       (fun _ => enforceFields className steps)) benign).
  { intros steps. apply throws_bind; [apply enforceClassExists_benign|].
    intros _. apply enforceFields_benign. }
  split.
  - intros Hc. unfold validateObject.
    destruct (scanObject 0 object) as [steps e] eqn:S.
    destruct e as [| |t].
    + assert (T : throws
                    (mbind (mbind (enforceClassExists className)
                              (fun _ => enforceFields className steps))
                       (fun _ => lift (validateRequiredColumns className
                                         object query))) benign).
      { apply throws_bind; [apply P|]. intros _.
        apply throws_lift. intros e. apply validateRequiredColumns_benign. }
      intros E. exact (T w _ E eq_refl).
    + apply scanObject_counts in S. lia.
    + simpl. intros [= ->]. apply scanObject_benign in S. now apply S.
  - intros Hc Hall.
    pose proof (scanObject_two object 0 Hall ltac:(lia) ltac:(lia)) as S.
    unfold validateObject.
    destruct (scanObject 0 object) as [steps e]. simpl in S. subst e.
    exists steps. split; [reflexivity|].
    unfold mbind at 1.
    destruct (mbind (enforceClassExists className)
                (fun _ => enforceFields className steps) w) as [[a|t] w'];
      reflexivity.
Qed.

End GeoPoints.

Lemma validateObject_geoPoints_witness :
  let geo := JObj [("__type", JStr "GeoPoint"); ("latitude", JNum 48);
                   ("longitude", JNum 2)] in
  let w := Mem.world [mkSchema "Place" [("loc", ty "GeoPoint")] JUndefined] in
  fst (validateObject "Place" [("name", JStr "x"); ("spot", geo)] JUndefined w)
  <> Throw geoPointError
  /\ fst (validateObject "Place" [("here", geo); ("there", geo)] JUndefined w)
     = Throw geoPointError.
Proof.
  intros geo w.
  assert (R : forall (d : list Schema) e,
             fst (db_getAllClasses d) = Throw e -> benign e)
    by (intros d e; discriminate).
  split.
  - apply (proj1 (validateObject_geoPoints R w "Place"
                    [("name", JStr "x"); ("spot", geo)] JUndefined)).
    vm_compute. lia.
  - destruct (proj2 (validateObject_geoPoints R w "Place"
                       [("here", geo); ("there", geo)] JUndefined))
      as (steps & S & E).
    + vm_compute. lia.
    + intros k v [H | [H | []]]; injection H as _ <-; right;
        eexists; vm_compute; reflexivity.
    + vm_compute in S. injection S as <-. rewrite E. vm_compute. reflexivity.
Defined.

(** C1, as the specification states it, fails: the class Place has the
    GeoPoint field [loc], the object brings a GeoPoint value for a second
    field [spot], and [validateObject] succeeds; the adapter in memory
    then holds two GeoPoint fields for the class. *)
Lemma validateObject_second_geoPoint_accepted :
  let geo := JObj [("__type", JStr "GeoPoint"); ("latitude", JNum 48);
                   ("longitude", JNum 2)] in
  let w := Mem.world [mkSchema "Place" [("loc", ty "GeoPoint")] JUndefined] in
  let r := validateObject "Place" [("spot", geo)] JUndefined w in
  fst r = Ok tt
  /\ db (snd r)
     = [mkSchema "Place" [("loc", ty "GeoPoint"); ("spot", ty "GeoPoint")]
          JUndefined].
Proof. split; vm_compute; reflexivity. Qed.

(* ================================================================= *)
(** * Further properties *)

(** ** Names *)

Lemma truthy_oget_In (f : string) (cols : Props) :
  forallb (fun kv => truthy (snd kv)) cols = true ->
  (truthy (oget f cols) = true <-> In f (okeys cols)).
Proof.
  unfold oget. induction cols as [|[k v] cols IH]; simpl.
  - intros _. split; [discriminate | contradiction].
  - intros H. apply andb_prop in H as [Hv Hc].
    destruct (String.eqb f k) eqn:E.
    + apply String.eqb_eq in E. subst k. split; auto.
    + rewrite (IH Hc). apply String.eqb_neq in E. split; [auto|].
      intros [H | H]; [congruence | exact H].
Qed.

Lemma defaultColumns_truthy (className : string) (cols : Props) :
  defaultColumnsFor className = Some cols ->
  forallb (fun kv => truthy (snd kv)) cols = true.
Proof.
  unfold defaultColumnsFor, defaultColumns. simpl. intros Hc.
  repeat match type of Hc with
         | (if String.eqb ?c ?lit then _ else _) = _ =>
             destruct (String.eqb c lit); [injection Hc as <-; reflexivity|]
         end.
  discriminate.
Qed.

Lemma truthy_at_In (f : string) (cols : Props) :
  forallb (fun kv => truthy (snd kv)) cols = true ->
  (truthy_at f cols = true <-> In f (okeys cols) \/ inherited f = true).
Proof.
  intros H. pose proof (truthy_oget_In f cols H) as T.
  unfold truthy_at. unfold oget in T.
  destruct (lookup f cols) as [v|] eqn:L.
  - split; [intros E; left; now apply T|].
    intros _. destruct (truthy v) eqn:V; [reflexivity|].
    assert (I : In f (okeys cols)).
    { destruct (in_dec string_dec f (okeys cols)) as [I|I]; [exact I|].
      apply lookup_None_okeys in I. congruence. }
    now apply T in I.
  - split; [now right|]. intros [I | I]; [|exact I].
    apply lookup_None_okeys in L. contradiction.
Qed.

(** X1.  For a class name that [Object.prototype] does not define, a field
    name is allowed for the class exactly when it matches the field-name
    pattern, is not a default column, neither one of every class nor one
    of this class, and is not the name of a property of
    [Object.prototype]. *)
Theorem fieldNameIsValidForClass_exact (fieldName className : string) :
  inherited className = false ->
  (fieldNameIsValidForClass fieldName className = true
   <-> fieldNameIsValid fieldName = true
       /\ ~ isDefaultField fieldName className
       /\ inherited fieldName = false).
Proof.
  intros _. unfold fieldNameIsValidForClass, isDefaultField.
  pose proof (truthy_at_In fieldName defaultColumns_Default eq_refl) as D.
  destruct (fieldNameIsValid fieldName); simpl;
    [|split; [discriminate | intros [H _]; discriminate]].
  destruct (truthy_at fieldName defaultColumns_Default) eqn:T.
  { split; [discriminate|]. intros (_ & H & I). exfalso.
    destruct (proj1 D eq_refl) as [K | K]; [apply H; now left | congruence]. }
  assert (ND : ~ In fieldName (okeys defaultColumns_Default))
    by (intros H; pose proof (proj2 D (or_introl H)); discriminate).
  assert (NI : inherited fieldName = false).
  { destruct (inherited fieldName) eqn:I; [|reflexivity].
    pose proof (proj2 D (or_intror eq_refl)). discriminate. }
  destruct (defaultColumnsFor className) as [cols|] eqn:Ec.
  - pose proof (truthy_at_In fieldName cols
                  (defaultColumns_truthy _ _ Ec)) as K.
    destruct (truthy_at fieldName cols) eqn:T'.
    + split; [discriminate|]. intros (_ & H & _). exfalso. apply H. right.
      exists cols. split; [reflexivity|].
      destruct (proj1 K eq_refl) as [X | X]; [exact X | congruence].
    + split; [|reflexivity]. intros _. split; [reflexivity|].
      split; [|exact NI].
      intros [H | (cols' & [= <-] & H)]; [exact (ND H)|].
      pose proof (proj2 K (or_introl H)). discriminate.
  - split; [|reflexivity]. intros _. split; [reflexivity|].
    split; [|exact NI].
    intros [H | (cols' & H & _)]; [exact (ND H) | discriminate].
Qed.

Lemma fieldNameIsValidForClass_exact_witness :
  (fieldNameIsValidForClass "constructor" "Game" = true
   <-> fieldNameIsValid "constructor" = true
       /\ ~ isDefaultField "constructor" "Game"
       /\ inherited "constructor" = false).
Proof.
  apply (fieldNameIsValidForClass_exact "constructor" "Game"). reflexivity.
Defined.

Lemma append_empty (s : string) : (s ++ "")%string = s.
Proof. induction s as [|c s IH]; simpl; [reflexivity | now rewrite IH]. Qed.

Lemma valid_class_name_word_prefix (c : string) :
  classNameIsValid c = true ->
  exists w rest, c = (w ++ rest)%string /\ wordString w.
Proof.
  intros H. apply classNameIsValid_exact in H.
  destruct H as [H | [(f & cl & rest & -> & _ & _) | (a & r & -> & Ha & Hr)]].
  - exists c, EmptyString. split; [now rewrite append_empty|].
    simpl in H.
    repeat (destruct H as [<- | H]; [split; [discriminate | reflexivity]|]).
    contradiction.
  - exists "_Join", (":" ++ f ++ ":" ++ cl ++ rest)%string.
    split; [reflexivity|]. split; [discriminate | reflexivity].
  - exists (String a r), EmptyString. split; [now rewrite append_empty|].
    split; [discriminate|]. simpl. rewrite Hr.
    unfold is_word, is_alnum. now rewrite Ha.
Qed.

(** X2.  The join class that [deleteField] drops with a relation field,
    [_Join:<field>:<class>], has a valid class name whenever the field name
    and the class name are valid. *)
Theorem join_class_name_valid (fieldName className : string) :
  fieldNameIsValid fieldName = true ->
  classNameIsValid className = true ->
  classNameIsValid ("_Join:" ++ fieldName ++ ":" ++ className) = true.
Proof.
  intros Hf Hc. apply classNameIsValid_exact. right. left.
  destruct (valid_class_name_word_prefix className Hc) as (w & rest & -> & Hw).
  exists fieldName, w, rest. split; [reflexivity|]. split; [|exact Hw].
  apply classAndFieldRegex_spec in Hf as (a & r & -> & Ha & Hr).
  split; [discriminate|]. simpl. rewrite Hr.
  unfold is_word, is_alnum. now rewrite Ha.
Qed.

Lemma join_class_name_valid_witness :
  classNameIsValid "_Join:users:_Role" = true.
Proof. apply (join_class_name_valid "users" "_Role"); reflexivity. Defined.

(** ** Class-level permissions *)

Lemma testBaseCLP_app (p : Props) (className : string)
  (g1 g2 : list string) (operation : string) :
  testBaseCLP p className (g1 ++ g2) operation
  = testBaseCLP p className g1 operation
    || testBaseCLP p className g2 operation.
Proof.
  unfold testBaseCLP.
  destruct (negb (truthy (oget className p))
            || negb (truthy (prop operation (oget className p))));
    [reflexivity|].
  destruct (truthy (prop "*" (prop operation (oget className p))));
    [reflexivity|].
  rewrite existsb_app.
  destruct (existsb _ g1), (existsb _ g2); reflexivity.
Qed.

(** X3.  An access group passes the base check exactly when one of its
    two halves does: the check looks at one identifier at a time. *)
Theorem testBaseCLP_union (p : Props) (className : string)
  (g1 g2 : list string) (operation : string) :
  testBaseCLP p className (g1 ++ g2) operation
  = testBaseCLP p className g1 operation
    || testBaseCLP p className g2 operation.
Proof. exact (testBaseCLP_app p className g1 g2 operation). Qed.

(** X4.  [validatePermission] resolves or throws the permission-denied
    error for this operation and class; its [return true] is never
    reached. *)
Theorem validatePermission_outcomes (p : Props) (className : string)
  (aclGroup : list string) (operation : string) :
  validatePermission p className aclGroup operation = Ok Resolved
  \/ validatePermission p className aclGroup operation
     = Throw (permissionDenied operation className).
Proof.
  unfold validatePermission.
  destruct (testBaseCLP p className aclGroup operation) eqn:B; [auto|].
  rewrite (testBaseCLP_denied _ _ _ _ B).
  destruct (_ && _); [auto|].
  destruct (nonEmptyArray _); auto.
Qed.

(** X5.  A larger access group is never worse off: what is granted to a
    group is granted to the group with more identifiers. *)
Theorem validatePermission_monotone (p : Props) (className : string)
  (g more : list string) (operation : string) :
  validatePermission p className g operation = Ok Resolved ->
  validatePermission p className (g ++ more) operation = Ok Resolved.
Proof.
  unfold validatePermission. rewrite testBaseCLP_app.
  destruct (testBaseCLP p className g operation) eqn:B; [reflexivity|].
  rewrite (testBaseCLP_denied _ _ _ _ B). simpl.
  destruct (testBaseCLP p className more operation); [reflexivity|].
  destruct (_ && _); [discriminate|].
  destruct (nonEmptyArray _); [reflexivity | discriminate].
Qed.

Lemma validatePermission_monotone_witness :
  validatePermission
    [("Game", JObj [("update", JObj [("role:admin", JBool true)])])]
    "Game" (["role:admin"] ++ ["aUserId123"]) "update" = Ok Resolved.
Proof.
  apply (validatePermission_monotone
           [("Game", JObj [("update", JObj [("role:admin", JBool true)])])]
           "Game" ["role:admin"] ["aUserId123"] "update").
  reflexivity.
Defined.

(** ** Classification of values *)

Lemma rbind_ok {A B} (r : Res A) (f : A -> Res B) (b : B) :
  rbind r f = Ok b -> exists x, r = Ok x /\ f x = Ok b.
Proof. destruct r; simpl; [eauto | discriminate]. Qed.

Lemma classified_tag (tag : string) :
  In tag classifiedTags -> classified (JStr tag).
Proof. intros H. right. right. left. eauto. Qed.

Lemma typeSwitch_classified (obj tag t : JsVal) :
  typeSwitch obj tag = Ok t -> classified t.
Proof.
  unfold typeSwitch.
  assert (V : forall k (f : JsVal -> Res JsVal),
             (forall x t, f x = Ok t -> classified t) ->
             forall t, (x <- vget k obj ;; f x) = Ok t -> classified t).
  { intros k f Hf t' H. apply rbind_ok in H as (x & _ & H). eapply Hf; eauto. }
  assert (B : forall t, (b <- vget "base64" obj ;;
                         if truthy b then Ok JUndefined else Throw (notValid tag))
                        = Ok t -> classified t).
  { apply V. intros x t'. destruct (truthy x); [|discriminate].
    intros [= <-]. left. reflexivity. }
  assert (G : forall t, (la <- vget "latitude" obj ;;
                         lo <- vget "longitude" obj ;;
                         if not_nullish la && not_nullish lo
                         then Ok (JStr "GeoPoint")
                         else b <- vget "base64" obj ;;
                              if truthy b then Ok JUndefined
                              else Throw (notValid tag))
                        = Ok t -> classified t).
  { apply V. intros la. apply V. intros lo t'.
    destruct (not_nullish la && not_nullish lo); [|apply B].
    intros [= <-]. apply classified_tag. simpl. tauto. }
  assert (D : forall t, (i <- vget "iso" obj ;;
                         if truthy i then Ok (JStr "Date")
                         else la <- vget "latitude" obj ;;
                              lo <- vget "longitude" obj ;;
                              if not_nullish la && not_nullish lo
                              then Ok (JStr "GeoPoint")
                              else b <- vget "base64" obj ;;
                                   if truthy b then Ok JUndefined
                                   else Throw (notValid tag))
                        = Ok t -> classified t).
  { apply V. intros i t'. destruct (truthy i); [|apply G].
    intros [= <-]. apply classified_tag. simpl. tauto. }
  assert (F : forall t, (n <- vget "name" obj ;;
                         if truthy n then Ok (JStr "File")
                         else i <- vget "iso" obj ;;
                              if truthy i then Ok (JStr "Date")
                              else la <- vget "latitude" obj ;;
                                   lo <- vget "longitude" obj ;;
                                   if not_nullish la && not_nullish lo
                                   then Ok (JStr "GeoPoint")
                                   else b <- vget "base64" obj ;;
                                        if truthy b then Ok JUndefined
                                        else Throw (notValid tag))
                        = Ok t -> classified t).
  { apply V. intros n t'. destruct (truthy n); [|apply D].
    intros [= <-]. apply classified_tag. simpl. tauto. }
  destruct (is_str "Pointer" tag).
  { revert t. apply V. intros c t'. destruct (truthy c) eqn:T; [|apply F].
    intros [= <-]. right. right. right. left. eauto. }
  destruct (is_str "File" tag); [apply F|].
  destruct (is_str "Date" tag); [apply D|].
  destruct (is_str "GeoPoint" tag); [apply G|].
  destruct (is_str "Bytes" tag); [apply B|].
  discriminate.
Qed.

Lemma getObjectType_fuel_classified (n : nat) :
  forall obj t, getObjectType_fuel n obj = Some (Ok t) -> classified t.
Proof.
  induction n as [|n IH]; intros obj t; [discriminate|].
  cbn [getObjectType_fuel].
  destruct obj as [| | | | |l|o];
    try (intros [= <-]; apply classified_tag; simpl; tauto);
    try discriminate.
  destruct (vget "__type" (JObj o)) as [tag|t0]; [|discriminate].
  destruct (truthy tag).
  { intros [= H]. eapply typeSwitch_classified; eauto. }
  destruct (vget "$ne" (JObj o)) as [ne|t0]; [|discriminate].
  destruct (truthy ne); [apply IH|].
  destruct (vget "__op" (JObj o)) as [op|t0]; [|discriminate].
  destruct (negb (truthy op));
    [intros [= <-]; apply classified_tag; simpl; tauto|].
  destruct (is_str "Increment" op);
    [intros [= <-]; apply classified_tag; simpl; tauto|].
  destruct (is_str "Delete" op); [intros [= <-]; right; left; reflexivity|].
  destruct (is_str "Add" op || is_str "AddUnique" op || is_str "Remove" op);
    [intros [= <-]; apply classified_tag; simpl; tauto|].
  destruct (is_str "AddRelation" op || is_str "RemoveRelation" op).
  { intros [= H].
    repeat (apply rbind_ok in H as (? & _ & H)).
    injection H as <-. right. right. right. right. eauto. }
  destruct (is_str "Batch" op); [|discriminate].
  destruct (ops <- vget "ops" (JObj o) ;; vget "0" ops) as [first|t0];
    [apply IH | discriminate].
Qed.

Lemma getType_classes (v t : JsVal) :
  getType v = Ok t -> classified t.
Proof.
  assert (O : forall obj, getObjectType obj = Ok t -> classified t).
  { intros obj. unfold getObjectType.
    destruct (getObjectType_fuel (S (size obj)) obj) as [r|] eqn:E;
      [|discriminate].
    intros ->. eapply getObjectType_fuel_classified; eauto. }
  destruct v; simpl; try discriminate; try apply O;
    intros [= <-]; try (apply classified_tag; simpl; tauto).
  left. reflexivity.
Qed.

(** X6.  A value classifies as no type, as a removal, as one of the eight
    tags Boolean, String, Number, Array, Object, File, Date and GeoPoint,
    or as a Pointer or Relation with its target; never as Bytes or ACL. *)
Theorem getType_classified (v t : JsVal) :
  getType v = Ok t -> classified t.
Proof. exact (getType_classes v t). Qed.

Lemma getType_classified_witness :
  classified (JObj [("type", JStr "Pointer"); ("targetClass", JStr "_User")]).
Proof.
  apply (getType_classified
           (JObj [("__type", JStr "Pointer"); ("className", JStr "_User")])).
  reflexivity.
Defined.

(** X7.  Every scalar tag a value classifies as is a field type that may
    be declared: [fieldTypeIsInvalid] has no error for it. *)
Theorem getType_declarable (v : JsVal) (tag : string) :
  getType v = Ok (JStr tag) -> fieldTypeIsInvalid (ty tag) = Ok None.
Proof.
  intros H. apply getType_classes in H.
  destruct H as [H | [H | [(tag' & Hin & [= ->]) | [(c & _ & H) | (c & H)]]]];
    try discriminate.
  simpl in Hin.
  repeat (destruct Hin as [<- | Hin]; [reflexivity|]). contradiction.
Qed.

Lemma getType_declarable_witness :
  fieldTypeIsInvalid (ty "GeoPoint") = Ok None.
Proof.
  apply (getType_declarable
           (JObj [("__type", JStr "GeoPoint"); ("latitude", JNum 1);
                  ("longitude", JNum 2)])).
  reflexivity.
Defined.

Lemma getObjectType_fuel_step (n : nat) :
  forall obj r, getObjectType_fuel n obj = Some r ->
                getObjectType_fuel (S n) obj = Some r.
Proof.
  induction n as [|n IH]; intros obj r; [discriminate|].
  intros H. cbn [getObjectType_fuel] in H. cbn [getObjectType_fuel].
  destruct obj as [| | | | |l|o]; try exact H.
  destruct (vget "__type" (JObj o)) as [tag|t0]; [|exact H].
  destruct (truthy tag); [exact H|].
  destruct (vget "$ne" (JObj o)) as [ne|t0]; [|exact H].
  destruct (truthy ne); [apply IH; exact H|].
  destruct (vget "__op" (JObj o)) as [op|t0]; [|exact H].
  destruct (negb (truthy op)); [exact H|].
  destruct (is_str "Increment" op); [exact H|].
  destruct (is_str "Delete" op); [exact H|].
  destruct (is_str "Add" op || is_str "AddUnique" op || is_str "Remove" op);
    [exact H|].
  destruct (is_str "AddRelation" op || is_str "RemoveRelation" op);
    [exact H|].
  destruct (is_str "Batch" op); [|exact H].
  destruct (ops <- vget "ops" (JObj o) ;; vget "0" ops) as [first|t0];
    [apply IH; exact H | exact H].
Qed.

Lemma getObjectType_fuel_more (n m : nat) (obj : JsVal) :
  size obj < n -> n <= m ->
  getObjectType_fuel m obj = Some (getObjectType obj).
Proof.
  intros Hs Hm.
  assert (G : forall k, getObjectType_fuel (S (size obj) + k) obj
                        = Some (getObjectType obj)).
  { induction k as [|k IH].
    - rewrite Nat.add_0_r. apply getObjectType_total.
    - rewrite Nat.add_succ_r. apply getObjectType_fuel_step. exact IH. }
  replace m with (S (size obj) + (m - S (size obj))) by lia. apply G.
Qed.

(** X8.  A constraint [{$ne: v}] classifies as [v] does, and a batch of
    operations as its first operation does. *)
Theorem getObjectType_delegates (o : Props) :
  truthy (oget "__type" o) = false ->
  (truthy (oget "$ne" o) = true ->
   getObjectType (JObj o) = getObjectType (oget "$ne" o))
  /\ (truthy (oget "$ne" o) = false ->
      oget "__op" o = JStr "Batch" ->
      forall first,
        vget "0" (oget "ops" o) = Ok first ->
        getObjectType (JObj o) = getObjectType first).
Proof.
  intros Ht. split.
  - intros Hne. unfold getObjectType at 1.
    cbn [getObjectType_fuel]. simpl vget. cbv beta iota. rewrite Ht, Hne.
    rewrite (getObjectType_fuel_more (size (JObj o)) (size (JObj o)));
      [reflexivity | | lia].
    apply oget_not_nullish_size, truthy_not_nullish. exact Hne.
  - intros Hne Hop first Hfirst. unfold getObjectType at 1.
    cbn [getObjectType_fuel]. simpl vget. cbv beta iota.
    rewrite Ht, Hne, Hop. cbn -[getObjectType_fuel size vget].
    cbn [rbind]. rewrite Hfirst.
    rewrite (getObjectType_fuel_more (size (JObj o)) (size (JObj o)));
      [reflexivity | | lia].
    pose proof (vget_size _ _ _ Hfirst).
    pose proof (vget_Ok_not_nullish _ _ _ Hfirst) as NN.
    apply oget_not_nullish_size in NN. lia.
Qed.

Lemma getObjectType_delegates_witness :
  getObjectType (JObj [("$ne", JObj [("__type", JStr "Date");
                                     ("iso", JStr "2016")])])
  = getObjectType (JObj [("__type", JStr "Date"); ("iso", JStr "2016")])
  /\ getObjectType (JObj [("__op", JStr "Batch");
                          ("ops", JArr [JObj [("__op", JStr "Increment")]])])
     = getObjectType (JObj [("__op", JStr "Increment")]).
Proof.
  split.
  - apply (proj1 (getObjectType_delegates
                    [("$ne", JObj [("__type", JStr "Date");
                                   ("iso", JStr "2016")])] eq_refl)).
    reflexivity.
  - apply (proj2 (getObjectType_delegates
                    [("__op", JStr "Batch");
                     ("ops", JArr [JObj [("__op", JStr "Increment")]])]
                    eq_refl)); reflexivity.
Defined.

(** ** The loop of [validateObject] *)

(** X9.  Every call of [enforceFieldExists] that [validateObject] chains
    is for a field of the object other than ACL, with the type its value
    classifies as, and that type is neither absent nor a removal. *)
Theorem scanObject_steps (object : Props) :
  forall g steps e,
    scanObject g object = (steps, e) ->
    forall f t,
      In (f, t) steps ->
      f <> "ACL" /\ truthy t = true
      /\ exists v, In (f, v) object /\ getType v = Ok t.
Proof.
  induction object as [|[k v] rest IH]; intros g steps e; simpl.
  - intros [= <- _] f t [].
  - assert (R : forall g' steps',
               scanObject g' rest = (steps', e) ->
               forall f t, In (f, t) steps' ->
                 f <> "ACL" /\ truthy t = true
                 /\ exists v', In (f, v') ((k, v) :: rest) /\ getType v' = Ok t).
    { intros g' steps' S f t Hin.
      destruct (IH _ _ _ S f t Hin) as (A & B & v' & C & D).
      split; [exact A|]. split; [exact B|]. exists v'. split; [right|]; auto. }
    destruct (strict_eq v JUndefined); [apply R|].
    destruct (getType v) as [expected|t0] eqn:E;
      [|intros [= <- _] f t []].
    destruct (Nat.ltb 1 _); [intros [= <- _] f t []|].
    destruct (negb (truthy expected)) eqn:T; [apply R|].
    destruct (String.eqb k "ACL") eqn:A; [apply R|].
    destruct (scanObject _ rest) as [steps' e'] eqn:S.
    intros [= <- <-] f t [[= <- <-] | Hin].
    + apply String.eqb_neq in A. apply negb_false_iff in T.
      split; [exact A|]. split; [exact T|]. exists v. split; [left|]; auto.
    + eapply R; eauto.
Qed.

Lemma scanObject_steps_witness :
  "score" <> "ACL" /\ truthy (JStr "Number") = true
  /\ exists v, In ("score", v) [("ACL", JObj []); ("score", JNum 3);
                                ("gone", JObj [("__op", JStr "Delete")])]
               /\ getType v = Ok (JStr "Number").
Proof.
  apply (scanObject_steps
           [("ACL", JObj []); ("score", JNum 3);
            ("gone", JObj [("__op", JStr "Delete")])]
           0 [("score", JStr "Number")] Finished).
  - vm_compute. reflexivity.
  - now left.
Defined.

Lemma scanObject_finished (object : Props) :
  forall g steps,
    scanObject g object = (steps, Finished) -> g <= 1 ->
    g + geoPointCount object <= 1 /\ allClassify object.
Proof.
  unfold geoPointCount.
  induction object as [|[k v] rest IH]; intros g steps; simpl.
  - intros _ Hg. split; [lia | intros k v []].
  - assert (A : forall v0, (v0 = JUndefined \/ exists t, getType v0 = Ok t) ->
                 allClassify rest -> v = v0 ->
                 allClassify ((k, v) :: rest)).
    { intros v0 H0 Hr -> k' v' [[= <- <-] | Hin]; [exact H0 | eapply Hr; eauto]. }
    destruct (strict_eq v JUndefined) eqn:U.
    { apply strict_eq_undefined in U. subst v. simpl.
      intros S Hg. destruct (IH _ _ S Hg) as [Hc Ha].
      split; [exact Hc | eapply A; eauto]. }
    destruct (getType v) as [expected|t0] eqn:E; [|discriminate].
    assert (Cl : v = JUndefined \/ exists t, getType v = Ok t) by eauto.
    destruct (is_str "GeoPoint" expected) eqn:G; simpl.
    + destruct (Nat.ltb 1 (S g)) eqn:L; [discriminate|].
      apply Nat.ltb_ge in L.
      assert (R : forall steps', scanObject (S g) rest = (steps', Finished) ->
                    g <= 1 ->
                    g + S (List.length
                             (filter (fun kv =>
                                match getType (snd kv) with
                                | Ok t => is_str "GeoPoint" t
                                | Throw _ => false
                                end) rest)) <= 1
                    /\ allClassify ((k, v) :: rest)).
      { intros steps' S Hg. destruct (IH _ _ S ltac:(lia)) as [Hc Ha].
        split; [lia | eapply A; eauto]. }
      destruct (negb (truthy expected)); [apply R|].
      destruct (String.eqb k "ACL"); [apply R|].
      destruct (scanObject _ rest) as [steps' e'] eqn:S.
      intros [= _ ->]. eapply R; eauto.
    + destruct (Nat.ltb 1 g) eqn:L; [discriminate|].
      assert (R : forall steps', scanObject g rest = (steps', Finished) ->
                    g <= 1 ->
                    g + List.length
                          (filter (fun kv =>
                             match getType (snd kv) with
                             | Ok t => is_str "GeoPoint" t
                             | Throw _ => false
                             end) rest) <= 1
                    /\ allClassify ((k, v) :: rest)).
      { intros steps' S Hg. destruct (IH _ _ S Hg) as [Hc Ha].
        split; [exact Hc | eapply A; eauto]. }
      destruct (negb (truthy expected)); [apply R|].
      destruct (String.eqb k "ACL"); [apply R|].
      destruct (scanObject _ rest) as [steps' e'] eqn:S.
      intros [= _ ->]. eapply R; eauto.
Qed.

Section Behaviour.

Context {DB C : Type} {adapter : StorageAdapter DB} {schemaCache : SchemaCache C}.

Lemma mbind_ok {A B} (m : @M DB C A) (k : A -> M B) (w : World DB C) (b : B)
  (w' : World DB C) :
  mbind m k w = (Ok b, w') ->
  exists a w1, m w = (Ok a, w1) /\ k a w1 = (Ok b, w').
Proof.
  unfold mbind. destruct (m w) as [[a|t] w1]; [eauto | discriminate].
Qed.

(** X10.  When [validateObject] succeeds, the object holds at most one
    GeoPoint value, each of its values classifies, and the required
    columns of the class are there. *)
Theorem validateObject_success (w : World DB C) (className : string)
  (object : Props) (query : JsVal) :
  fst (validateObject className object query w) = Ok tt ->
  geoPointCount object <= 1
  /\ allClassify object
  /\ validateRequiredColumns className object query = Ok tt.
Proof.
  unfold validateObject.
  destruct (scanObject 0 object) as [steps e] eqn:S.
  destruct e as [| |t].
  - intros H.
    destruct (scanObject_finished object 0 steps S ltac:(lia)) as [Hc Ha].
    split; [lia|]. split; [exact Ha|].
    destruct (mbind _ _ w) as [r w'] eqn:E. simpl in H. subst r.
    apply mbind_ok in E as (a & w1 & _ & E).
    unfold lift in E. injection E as E _.
    destruct (validateRequiredColumns className object query) as [[]|];
      [reflexivity | discriminate].
  - unfold mbind at 1. destruct (mbind _ _ w) as [[a|t] w']; discriminate.
  - discriminate.
Qed.

End Behaviour.

Lemma validateObject_success_witness :
  geoPointCount [("name", JStr "admin"); ("ACL", JObj [])] <= 1
  /\ allClassify [("name", JStr "admin"); ("ACL", JObj [])]
  /\ validateRequiredColumns "_Role" [("name", JStr "admin"); ("ACL", JObj [])]
       JUndefined = Ok tt.
Proof.
  apply (validateObject_success
           (Mem.world [mkSchema "_Role" [] JUndefined]) "_Role"
           [("name", JStr "admin"); ("ACL", JObj [])] JUndefined).
  vm_compute. reflexivity.
Defined.

(** ** Reloading the view *)

(** An own property with a truthy value is found before the prototype. *)
Lemma truthy_at_own (k : string) (o : Props) :
  truthy (oget k o) = true -> truthy_at k o = true.
Proof.
  unfold truthy_at, oget. now destruct (lookup k o).
Qed.

Section Reloading.

Context {DB C : Type} {adapter : StorageAdapter DB} {schemaCache : SchemaCache C}.

(** [getAllClasses] talks to the cache and the adapter only. *)
Lemma getAllClasses_view (clearCache : bool) (w : World DB C) :
  data (snd (getAllClasses clearCache w)) = data w
  /\ perms (snd (getAllClasses clearCache w)) = perms w.
Proof.
  unfold getAllClasses, mbind, when, write_cache, read_cache, call_db, ret.
  destruct clearCache; simpl.
  - destruct (cache_getAllClasses _) as [[[|s l]|] c']; simpl;
      destruct (db_getAllClasses _) as [[l'|t] d']; simpl; auto.
  - destruct (cache_getAllClasses _) as [[[|s l]|] c']; simpl; auto;
      destruct (db_getAllClasses _) as [[l'|t] d']; simpl; auto.
Qed.

Lemma fillView_volatile (l : list Schema) (w : World DB C) (c : string) :
  In c volatileClasses ->
  fst (fillView l w) = Ok tt
  /\ oget c (data (snd (fillView l w))) = volatileEntry c.
Proof.
  intros H. split; [reflexivity|].
  unfold fillView, oget, volatileEntry. cbn [snd data fold_left volatileClasses].
  simpl in H. destruct H as [<- | [<- | [<- | []]]];
    autorewrite with objmap; reflexivity.
Qed.

Lemma reloadData_outcome (clearCache : bool) (w : World DB C) :
  (forall e, fst (reloadData clearCache w) = Throw e ->
             data (snd (reloadData clearCache w)) = []
             /\ perms (snd (reloadData clearCache w)) = [])
  /\ (fst (reloadData clearCache w) = Ok tt ->
      forall c, In c volatileClasses ->
                oget c (data (snd (reloadData clearCache w))) = volatileEntry c).
Proof.
  unfold reloadData.
  set (w0 := snd (mbind (when clearCache (write_cache cache_clear))
                    (fun _ => mbind (set_data []) (fun _ => set_perms [])) w)).
  assert (E : mbind (when clearCache (write_cache cache_clear))
                (fun _ => mbind (set_data [])
                   (fun _ => mbind (set_perms [])
                      (fun _ => mbind (getAllClasses clearCache)
                         (fun allSchemas => fillView allSchemas)))) w
              = mbind (getAllClasses clearCache)
                  (fun allSchemas => fillView allSchemas) w0).
  { subst w0. destruct clearCache; reflexivity. }
  assert (V : data w0 = [] /\ perms w0 = [])
    by (subst w0; destruct clearCache; split; reflexivity).
  rewrite E. unfold mbind.
  destruct (getAllClasses_view clearCache w0) as [Hd Hp].
  destruct (getAllClasses clearCache w0) as [[l|t] w1]; simpl in *.
  - split; [discriminate|]. intros _ c Hc.
    apply (proj2 (fillView_volatile l w1 c Hc)).
  - split; [|discriminate]. intros e _. destruct V. split; congruence.
Qed.

(** X11.  A reload that fails leaves the view empty, for data and
    permissions alike; a reload that succeeds leaves every class that
    lives in memory only in the view, as its whole schema object. *)
Theorem reloadData_view (clearCache : bool) (w : World DB C) :
  (forall e, fst (reloadData clearCache w) = Throw e ->
             data (snd (reloadData clearCache w)) = []
             /\ perms (snd (reloadData clearCache w)) = [])
  /\ (fst (reloadData clearCache w) = Ok tt ->
      forall c, In c volatileClasses ->
                oget c (data (snd (reloadData clearCache w))) = volatileEntry c).
Proof. exact (reloadData_outcome clearCache w). Qed.

(** X12.  [hasClass] answers true for every class that lives in memory
    only, whenever it answers at all. *)
Theorem hasClass_volatile (className : string) (w : World DB C) (b : bool) :
  In className volatileClasses ->
  fst (hasClass className w) = Ok b -> b = true.
Proof.
  intros Hc. unfold hasClass, mbind, get_data, ret.
  pose proof (proj2 (reloadData_outcome false w)) as R.
  destruct (reloadData false w) as [[[]|t] w1]; simpl in *; [|discriminate].
  intros [= <-]. apply truthy_at_own. rewrite (R eq_refl className Hc).
  reflexivity.
Qed.

(** X13.  [enforceClassExists] gives up with one error only, "schema class
    name does not revalidate"; when it succeeds [this.data] answers to the
    class name, with a class of the view or with a property inherited
    from [Object.prototype]; and when [this.data] answers to the class
    name at the start it does nothing at all. *)
Theorem enforceClassExists_outcomes (className : string) (w : World DB C) :
  (forall e, fst (enforceClassExists className w) = Throw e ->
             e = doesNotRevalidate)
  /\ (fst (enforceClassExists className w) = Ok tt ->
      truthy_at className (data (snd (enforceClassExists className w)))
      = true)
  /\ (truthy_at className (data w) = true ->
      enforceClassExists className w = (Ok tt, w)).
Proof.
  remember (enforceClassExists className w) as r eqn:Hr.
  unfold enforceClassExists in Hr. unfold mbind at 1 in Hr.
  unfold get_data in Hr. cbv beta iota in Hr.
  destruct (truthy_at className (data w)) eqn:T.
  { subst r. split; [discriminate|].
    split; [intros _; exact T | reflexivity]. }
  unfold mcatch at 1 in Hr.
  destruct (mbind _ _ w) as [[a|t] w1] eqn:E; subst r; simpl.
  - split; [discriminate|]. split; [|discriminate].
    intros _. apply mbind_ok in E as (a' & w2 & _ & E).
    unfold mbind in E. simpl in E.
    destruct (truthy_at className (data w2)) eqn:T2; [|discriminate].
    injection E as _ <-. exact T2.
  - split; [intros e [= <-]; reflexivity|].
    split; discriminate.
Qed.

Lemma reloadData_reads_ok (clearCache : bool) (w : World DB C) :
  (forall d, exists l d', db_getAllClasses d = (Ok l, d')) ->
  fst (reloadData clearCache w) = Ok tt.
Proof.
  intros Hr.
  assert (G : forall w0, exists l w1, getAllClasses clearCache w0 = (Ok l, w1)).
  { intros w0.
    unfold getAllClasses, mbind, when, write_cache, read_cache, call_db, ret.
    destruct clearCache; simpl.
    - destruct (cache_getAllClasses _) as [[[|s l]|] c']; simpl;
        match goal with
        | |- context [db_getAllClasses ?d] =>
            destruct (Hr d) as (l' & d' & ->)
        end; simpl; eauto.
    - destruct (cache_getAllClasses _) as [[[|s l]|] c']; simpl; eauto;
        match goal with
        | |- context [db_getAllClasses ?d] =>
            destruct (Hr d) as (l' & d' & ->)
        end; simpl; eauto. }
  unfold reloadData.
  destruct clearCache; cbn [when];
    unfold mbind at 1, write_cache, ret; simpl;
    unfold mbind at 1, set_data; simpl;
    unfold mbind at 1, set_perms; simpl;
    unfold mbind;
    match goal with
    | |- context [getAllClasses ?b ?w0] =>
        destruct (G w0) as (l & w1 & ->)
    end; reflexivity.
Qed.

(** X14.  With an adapter whose read of all classes never fails,
    [enforceClassExists] succeeds for every class that lives in memory
    only, whatever the adapter answers to the creation of the class. *)
Theorem enforceClassExists_volatile (className : string) (w : World DB C) :
  (forall d, exists l d', db_getAllClasses d = (Ok l, d')) ->
  In className volatileClasses ->
  fst (enforceClassExists className w) = Ok tt.
Proof.
  intros Hr Hc.
  assert (R : forall w0,
             fst (reloadData true w0) = Ok tt
             /\ truthy_at className (data (snd (reloadData true w0))) = true).
  { intros w0. pose proof (reloadData_reads_ok true w0 Hr) as Hok.
    split; [exact Hok|]. apply truthy_at_own.
    rewrite (proj2 (reloadData_outcome true w0) Hok className Hc). reflexivity. }
  unfold enforceClassExists. unfold mbind at 1, get_data.
  destruct (truthy_at className (data w)); [reflexivity|].
  unfold mcatch at 1. unfold mbind at 1. unfold mcatch at 1.
  unfold mbind at 1.
  destruct (addClassIfNotExists className [] JUndefined w) as [[s|t] w1].
  - destruct (R w1) as [Hok Ht].
    destruct (reloadData true w1) as [[[]|t] w2]; simpl in *; [|discriminate].
    unfold mbind, get_data. rewrite Ht. reflexivity.
  - destruct (R w1) as [Hok Ht].
    destruct (reloadData true w1) as [[[]|t'] w2]; simpl in *; [|discriminate].
    unfold mbind, get_data. rewrite Ht. reflexivity.
Qed.

End Reloading.

Lemma reloadData_view_witness :
  fst (reloadData true (Mem.world [])) = Ok tt
  /\ oget "_Hooks" (data (snd (reloadData true (Mem.world []))))
     = volatileEntry "_Hooks".
Proof.
  assert (H : fst (reloadData true (Mem.world [])) = Ok tt)
    by (vm_compute; reflexivity).
  split; [exact H|].
  apply (proj2 (reloadData_view true (Mem.world [])) H "_Hooks").
  right. left. reflexivity.
Defined.

Lemma hasClass_volatile_witness :
  In "_GlobalConfig" volatileClasses
  /\ fst (hasClass "_GlobalConfig" (Mem.world [])) = Ok true
  /\ true = true.
Proof.
  assert (I : In "_GlobalConfig" volatileClasses)
    by (right; right; left; reflexivity).
  assert (H : fst (hasClass "_GlobalConfig" (Mem.world [])) = Ok true)
    by (vm_compute; reflexivity).
  split; [exact I|]. split; [exact H|].
  exact (hasClass_volatile "_GlobalConfig" (Mem.world []) true I H).
Defined.

Lemma enforceClassExists_outcomes_witness :
  fst (enforceClassExists "my-class" (Mem.world [])) = Throw doesNotRevalidate
  /\ fst (enforceClassExists "Game" (Mem.world [])) = Ok tt
  /\ truthy_at "Game"
       (data (snd (enforceClassExists "Game" (Mem.world [])))) = true
  /\ enforceClassExists "toString" (Mem.world []) = (Ok tt, Mem.world []).
Proof.
  assert (H : fst (enforceClassExists "Game" (Mem.world [])) = Ok tt)
    by (vm_compute; reflexivity).
  split.
  { destruct (fst (enforceClassExists "my-class" (Mem.world []))) as [u|e] eqn:E;
      [vm_compute in E; discriminate|].
    f_equal.
    apply (proj1 (enforceClassExists_outcomes "my-class" (Mem.world []))).
    exact E. }
  split; [exact H|]. split.
  - exact (proj1 (proj2 (enforceClassExists_outcomes "Game" (Mem.world []))) H).
  - apply (proj2 (proj2 (enforceClassExists_outcomes "toString"
                           (Mem.world [])))).
    reflexivity.
Defined.

Lemma enforceClassExists_volatile_witness :
  fst (enforceClassExists "_Hooks" (Mem.world [])) = Ok tt.
Proof.
  apply (enforceClassExists_volatile "_Hooks" (Mem.world [])).
  - intros d. exists d, d. reflexivity.
  - right. left. reflexivity.
Defined.

(** ** Enforcing a field *)

Lemma noDot_has_inner_dot (a rest : string) (first : bool) :
  noDot a ->
  has_inner_dot first (a ++ "." ++ rest)
  = match a with EmptyString => negb first | _ => true end.
Proof.
  unfold noDot. revert first.
  induction a as [|c a IH]; intros first H; simpl in *; [reflexivity|].
  apply andb_prop in H as [Hc Ha]. apply negb_true_iff in Hc. rewrite Hc.
  rewrite (IH false Ha). destruct a; reflexivity.
Qed.

Lemma noDot_before_dot (a rest : string) :
  noDot a -> before_dot (a ++ "." ++ rest) = a.
Proof.
  unfold noDot. induction a as [|c a IH]; intros H; simpl in *; [reflexivity|].
  apply andb_prop in H as [Hc Ha]. apply negb_true_iff in Hc. rewrite Hc.
  now rewrite (IH Ha).
Qed.

Lemma noDot_no_inner_dot (a : string) (first : bool) :
  noDot a -> has_inner_dot first a = false.
Proof.
  unfold noDot. revert first.
  induction a as [|c a IH]; intros first H; simpl in *; [reflexivity|].
  apply andb_prop in H as [Hc Ha]. apply negb_true_iff in Hc. rewrite Hc.
  auto.
Qed.

Section Fields.

Context {DB C : Type} {adapter : StorageAdapter DB} {schemaCache : SchemaCache C}.

(** X15.  A key with a dot in it is enforced as its part before the first
    dot, with the type Object, whatever type was asked for. *)
Theorem enforceFieldExists_dotted (className root rest : string) (type : JsVal) :
  root <> EmptyString -> noDot root ->
  enforceFieldExists className (root ++ "." ++ rest) type
  = enforceFieldExists (adapter := adapter) (schemaCache := schemaCache)
      className root (JStr "Object").
Proof.
  intros Hne Hnd. unfold enforceFieldExists.
  rewrite (noDot_has_inner_dot root rest true Hnd),
    (noDot_before_dot root rest Hnd), (noDot_no_inner_dot root true Hnd).
  destruct root; [congruence | reflexivity].
Qed.

(** X16.  When [enforceFieldExists] succeeds for a field name without a
    dot and a type that is there, the view holds a type for the field
    that matches the one asked for. *)
Theorem enforceFieldExists_success (w : World DB C)
  (className fieldName : string) (type : JsVal) :
  has_inner_dot true fieldName = false ->
  truthy type = true ->
  fst (enforceFieldExists className fieldName type w) = Ok tt ->
  dbTypeMatchesObjectType
    (getExpectedType
       (data (snd (enforceFieldExists className fieldName type w)))
       className fieldName)
    (asTypeObject type) = Ok true.
Proof.
  intros Hd Ht.
  remember (enforceFieldExists className fieldName type w) as r eqn:Hr.
  unfold enforceFieldExists in Hr. rewrite Hd, Ht in Hr. cbn [negb] in Hr.
  destruct (negb (fieldNameIsValid fieldName));
    [subst r; discriminate|].
  unfold mbind at 1 in Hr.
  destruct (reloadData false w) as [[[]|t] w1]; [|subst r; discriminate].
  unfold mbind at 1 in Hr. unfold get_data in Hr. cbv beta iota in Hr.
  fold (asTypeObject type) in Hr.
  destruct (truthy (getExpectedType (data w1) className fieldName)).
  - unfold mbind, lift in Hr.
    destruct (dbTypeMatchesObjectType _ _) as [[|]|t] eqn:E;
      cbn [negb] in Hr.
    + subst r. intros _. exact E.
    + destruct (schemaMismatch _ _ _ _); subst r; discriminate.
    + subst r. discriminate.
  - unfold mbind at 1 in Hr.
    destruct (mthen _ _ _ w1) as [[[]|t] w2]; [|subst r; discriminate].
    unfold mbind, get_data, lift in Hr.
    destruct (dbTypeMatchesObjectType _ _) as [[|]|t] eqn:E;
      cbn [negb] in Hr; subst r; try discriminate.
    intros _. exact E.
Qed.

(** X17.  A field recorded with the old type name [map] is read as the
    bare tag Object, and a bare tag matches no classified type: whatever
    well-formed type is enforced on it, Object too, the answer is the
    mismatch error with Object as the expected type. *)
Theorem enforceFieldExists_legacy_map (w : World DB C)
  (className fieldName : string) (recorded : Props) (T' : FieldType)
  (arg : JsVal) :
  fieldNameIsValid fieldName = true ->
  wellFormed T' -> denotes arg T' ->
  fst (reloadData false w) = Ok tt ->
  oget className (data (snd (reloadData false w))) = JObj recorded ->
  oget fieldName recorded = JStr "map" ->
  enforceFieldExists className fieldName arg w
  = (Throw (mismatchError className fieldName "Object" (tagOf T')),
     snd (reloadData false w)).
Proof.
  intros Hname W' Hden Hreload Hcls Hmap.
  destruct (denotes_normal arg T' W' Hden) as [Htruthy Hnorm].
  unfold enforceFieldExists.
  rewrite (valid_field_name_no_dot fieldName Hname), Hname, Htruthy.
  cbn [negb]. unfold mbind at 1.
  destruct (reloadData false w) as [r w1]. simpl in Hreload, Hcls. subst r.
  unfold mbind at 1, get_data.
  assert (E : getExpectedType (data w1) className fieldName = JStr "Object").
  { unfold getExpectedType. rewrite Hcls. simpl. now rewrite Hmap. }
  rewrite E, Hnorm. cbn [truthy String.eqb negb].
  assert (Mt : dbTypeMatchesObjectType (JStr "Object") (declOf T') = Ok false).
  { unfold dbTypeMatchesObjectType. rewrite type_of_declOf. reflexivity. }
  assert (Ms : schemaMismatch className fieldName (JStr "Object") (declOf T')
               = Ok (mismatchError className fieldName "Object" (tagOf T'))).
  { unfold schemaMismatch. rewrite type_of_declOf. reflexivity. }
  unfold mbind, lift. rewrite Mt. cbn [negb]. rewrite Ms. reflexivity.
Qed.

End Fields.

Lemma enforceFieldExists_dotted_witness :
  enforceFieldExists "Game" "stats.kills" (JStr "Number") (Mem.world [])
  = enforceFieldExists "Game" "stats" (JStr "Object") (Mem.world []).
Proof.
  rewrite (enforceFieldExists_dotted "Game" "stats" "kills" (JStr "Number"));
    [reflexivity | discriminate | reflexivity].
Defined.

Lemma enforceFieldExists_success_witness :
  let w := Mem.world [mkSchema "Game" [] JUndefined] in
  fst (enforceFieldExists "Game" "score" (JStr "Number") w) = Ok tt
  /\ dbTypeMatchesObjectType
       (getExpectedType
          (data (snd (enforceFieldExists "Game" "score" (JStr "Number") w)))
          "Game" "score")
       (asTypeObject (JStr "Number")) = Ok true.
Proof.
  intros w.
  assert (H : fst (enforceFieldExists "Game" "score" (JStr "Number") w) = Ok tt)
    by (vm_compute; reflexivity).
  split; [exact H|].
  exact (enforceFieldExists_success w "Game" "score" (JStr "Number")
           eq_refl eq_refl H).
Defined.

Lemma enforceFieldExists_legacy_map_witness :
  let w := Mem.world [mkSchema "Game" [("info", JStr "map")] JUndefined] in
  fst (enforceFieldExists "Game" "info" (JStr "Object") w)
  = Throw (mismatchError "Game" "info" "Object" "Object").
Proof.
  intros w.
  assert (Hreload : fst (reloadData false w) = Ok tt)
    by (vm_compute; reflexivity).
  assert (Hcls : oget "Game" (data (snd (reloadData false w)))
                 = JObj (fields (injectDefaultSchema
                                   (mkSchema "Game" [("info", JStr "map")]
                                      JUndefined))))
    by (vm_compute; reflexivity).
  rewrite (enforceFieldExists_legacy_map w "Game" "info" _ (Scalar "Object")
             (JStr "Object") eq_refl
             ltac:(simpl; tauto)
             (or_intror (ex_intro _ "Object" (conj eq_refl eq_refl)))
             Hreload Hcls eq_refl).
  reflexivity.
Defined.

(** ** Validation of class-level permissions *)

Lemma for_each_ok {A} (f : A -> Res unit) (l : list A) :
  for_each f l = Ok tt <-> forall x, In x l -> f x = Ok tt.
Proof.
  induction l as [|a l IH]; simpl.
  - split; [intros _ x [] | reflexivity].
  - destruct (f a) as [[]|t] eqn:E; simpl.
    + rewrite IH. split.
      * intros H x [<- | Hx]; auto.
      * intros H x Hx. apply H. right. exact Hx.
    + split; [discriminate|]. intros H.
      specialize (H a (or_introl eq_refl)). congruence.
Qed.

Lemma for_each_throw {A} (f : A -> Res unit) (l : list A) (t : Thrown) :
  for_each f l = Throw t -> exists x, In x l /\ f x = Throw t.
Proof.
  induction l as [|a l IH]; simpl; [discriminate|].
  destruct (f a) as [[]|t'] eqn:E; simpl.
  - intros H. destruct (IH H) as (x & Hx & Hf). eauto.
  - intros [= <-]. eauto.
Qed.

Lemma verifyPermissionKey_ok (key : string) :
  verifyPermissionKey key = Ok tt <-> validPermissionKey key.
Proof.
  unfold verifyPermissionKey, validPermissionKey, permissionKeyRegex. simpl.
  destruct (userIdRegex key), (roleRegex key), (publicRegex key); simpl;
    split; auto; try discriminate; intros [H | [H | H]]; discriminate.
Qed.

Lemma truthy_prop (k : string) (v : JsVal) :
  truthy v = true -> vget k v = Ok (prop k v).
Proof.
  intros H. unfold prop.
  destruct (vget_cases k v) as [[N _] | [_ [x ->]]]; [|reflexivity].
  apply truthy_not_nullish in H. congruence.
Qed.

Lemma validateCLP_accepts (perms fields : Props) :
  validateCLP (JObj perms) fields = Ok tt ->
  forall operation,
    In operation (okeys perms) ->
    In operation CLPValidKeys
    /\ (isPointerPermission operation = true ->
        exists keys,
          oget operation perms = JArr keys
          /\ forall key, In key keys -> pointerToUser fields key)
    /\ (isPointerPermission operation = false ->
        forall entry,
          oget operation perms = JObj entry ->
          forall key, In key (okeys entry) ->
                      validPermissionKey key /\ oget key entry = JBool true).
Proof.
  unfold validateCLP. cbn [truthy negb vkeys rbind vget].
  intros H operation Hin.
  apply (proj1 (for_each_ok _ _)) with (x := operation) in H; [|exact Hin].
  destruct (negb (str_mem operation CLPValidKeys)) eqn:V; [discriminate|].
  apply negb_false_iff, str_mem_In in V. split; [exact V|].
  unfold isPointerPermission.
  destruct (String.eqb operation "readUserFields"
            || String.eqb operation "writeUserFields").
  - split; [|discriminate]. intros _.
    destruct (oget operation perms) as [| | | | |keys|]; try discriminate.
    exists keys. split; [reflexivity|]. intros key Hk.
    apply (proj1 (for_each_ok _ _)) with (x := key) in H; [|exact Hk].
    unfold pointerToUser. cbv zeta.
    destruct (truthy (oget (to_js_string key) fields)) eqn:T;
      [|discriminate].
    cbn [negb] in H.
    rewrite !(truthy_prop _ _ T) in H. cbn [rbind] in H.
    destruct (loose_eq_lit "Pointer" _); [|discriminate].
    destruct (loose_eq_lit "_User" _); [|discriminate].
    auto.
  - split; [discriminate|]. intros _ entry He. rewrite He in H.
    cbn [vkeys rbind] in H. intros key Hk.
    apply (proj1 (for_each_ok _ _)) with (x := key) in H; [|exact Hk].
    destruct (verifyPermissionKey key) as [[]|t] eqn:K; [|discriminate].
    apply verifyPermissionKey_ok in K. split; [exact K|].
    cbn [rbind vget] in H.
    destruct (oget key entry) as [| |[|]| | | |]; try discriminate.
    reflexivity.
Qed.

(** X18.  A set of class-level permissions that [validateCLP] accepts
    names only the six operations and the two pointer permissions; under
    an operation every key is a user id, a role reference or the wildcard
    and every value is exactly [true]; and the pointer permissions are
    arrays that name fields pointing to a user. *)
Theorem validateCLP_sound (perms fields : Props) :
  validateCLP (JObj perms) fields = Ok tt ->
  forall operation,
    In operation (okeys perms) ->
    In operation CLPValidKeys
    /\ (isPointerPermission operation = true ->
        exists keys,
          oget operation perms = JArr keys
          /\ forall key, In key keys -> pointerToUser fields key)
    /\ (isPointerPermission operation = false ->
        forall entry,
          oget operation perms = JObj entry ->
          forall key, In key (okeys entry) ->
                      validPermissionKey key /\ oget key entry = JBool true).
Proof. exact (validateCLP_accepts perms fields). Qed.

Lemma validateCLP_sound_witness :
  In "find" CLPValidKeys
  /\ forall key, In key (okeys [("*", JBool true)]) ->
                 validPermissionKey key
                 /\ oget key [("*", JBool true)] = JBool true.
Proof.
  destruct (validateCLP_sound
              [("find", JObj [("*", JBool true)]);
               ("readUserFields", JArr [JStr "owner"])]
              [("owner", ty_to "Pointer" "_User")]
              eq_refl "find" (or_introl eq_refl)) as (H1 & _ & H3).
  split; [exact H1|]. apply (H3 eq_refl). reflexivity.
Defined.

(** X19.  Under permissions that [validateCLP] accepts, the base check for
    an operation with an entry is plain membership: it passes exactly when
    the wildcard or an identifier of the access group is a key of the
    entry. *)
Theorem testBaseCLP_validated (perms fields : Props) (className : string)
  (aclGroup : list string) (operation : string) (entry : Props) :
  validateCLP (JObj perms) fields = Ok tt ->
  isPointerPermission operation = false ->
  lookup operation perms = Some (JObj entry) ->
  testBaseCLP [(className, JObj perms)] className aclGroup operation
  = has_key "*" entry || existsb (fun acl => has_key acl entry) aclGroup.
Proof.
  intros Hv Hp Hl.
  assert (Hin : In operation (okeys perms)).
  { clear -Hl. induction perms as [|[k v] ps IH]; simpl in *; [discriminate|].
    destruct (String.eqb operation k) eqn:E;
      [apply String.eqb_eq in E; auto | right; auto]. }
  assert (He : oget operation perms = JObj entry)
    by (unfold oget; now rewrite Hl).
  destruct (validateCLP_accepts perms fields Hv operation Hin) as (_ & _ & S).
  specialize (S Hp entry He).
  assert (K : forall key,
             strict_eq (oget key entry) (JBool true) = has_key key entry
             /\ truthy (oget key entry) = has_key key entry).
  { intros key. unfold has_key.
    destruct (lookup key entry) as [v|] eqn:L.
    - assert (Hk : In key (okeys entry)).
      { clear -L. induction entry as [|[k v'] es IH]; simpl in *;
          [discriminate|].
        destruct (String.eqb key k) eqn:E;
          [apply String.eqb_eq in E; auto | right; eauto]. }
      destruct (S key Hk) as [_ ->]. split; reflexivity.
    - unfold oget. rewrite L. split; reflexivity. }
  assert (O : oget className [(className, JObj perms)] = JObj perms)
    by (unfold oget; simpl; now rewrite String.eqb_refl).
  unfold testBaseCLP. rewrite O.
  unfold prop. cbn [vget]. rewrite He. cbn [truthy negb orb vget].
  rewrite (proj2 (K "*")).
  destruct (has_key "*" entry); [reflexivity|]. cbn [orb].
  assert (X : existsb (fun acl => strict_eq (oget acl entry) (JBool true))
                aclGroup
              = existsb (fun acl => has_key acl entry) aclGroup).
  { induction aclGroup as [|a g IH]; simpl; [reflexivity|].
    now rewrite (proj1 (K a)), IH. }
  rewrite X. clear X.
  now destruct (existsb (fun acl => has_key acl entry) aclGroup).
Qed.

Lemma testBaseCLP_validated_witness :
  testBaseCLP
    [("Game", JObj [("find", JObj [("role:admin", JBool true)])])]
    "Game" ["aUserId123"; "role:admin"] "find"
  = has_key "*" [("role:admin", JBool true)]
    || existsb (fun acl => has_key acl [("role:admin", JBool true)])
         ["aUserId123"; "role:admin"].
Proof.
  apply (testBaseCLP_validated
           [("find", JObj [("role:admin", JBool true)])] [] "Game"
           ["aUserId123"; "role:admin"] "find" [("role:admin", JBool true)]);
    reflexivity.
Defined.

(** ** Validation of a schema *)

Lemma checkNewFields_ok (className : string) (existing : list string)
  (fields : Props) :
  checkNewFields className existing fields = Ok None ->
  forall k d, In (k, d) fields -> str_mem k existing = false ->
    fieldNameIsValid k = true
    /\ fieldNameIsValidForClass k className = true
    /\ fieldTypeIsInvalid d = Ok None.
Proof.
  induction fields as [|[k' d'] rest IH]; simpl; [intros _ k d []|].
  intros H k d Hin Hex.
  destruct (negb (str_mem k' existing)) eqn:Ex.
  - destruct (negb (fieldNameIsValid k')) eqn:V; [discriminate|].
    destruct (negb (fieldNameIsValidForClass k' className)) eqn:V';
      [discriminate|].
    destruct (fieldTypeIsInvalid d') as [[e|]|t] eqn:F; try discriminate.
    simpl in H.
    destruct Hin as [[= <- <-] | Hin]; [|eapply IH; eauto].
    apply negb_false_iff in V, V'. auto.
  - destruct Hin as [[= <- <-] | Hin]; [|eapply IH; eauto].
    apply negb_false_iff in Ex. congruence.
Qed.

(** X20.  A field mapping that [validateSchemaData] accepts has, for every
    field that is not among the existing ones, a valid name that is no
    default column and a type that may be declared; with the default
    columns of the class written in it has at most one GeoPoint field;
    and the class-level permissions are valid against it. *)
Theorem validateSchemaData_sound (className : string) (fields : Props)
  (clp : JsVal) (existing : list string) :
  fst (validateSchemaData className fields clp existing) = Ok None ->
  (forall k d, In (k, d) fields -> str_mem k existing = false ->
     fieldNameIsValid k = true
     /\ fieldNameIsValidForClass k className = true
     /\ fieldTypeIsInvalid d = Ok None)
  /\ List.length
       (filter isGeoPointField
          (snd (validateSchemaData className fields clp existing))) <= 1
  /\ validateCLP clp (snd (validateSchemaData className fields clp existing))
     = Ok tt.
Proof.
  unfold validateSchemaData.
  destruct (checkNewFields className existing fields) as [[e|]|t] eqn:Ck;
    try discriminate.
  pose proof (checkNewFields_ok _ _ _ Ck) as S.
  set (f' := match defaultColumnsFor className with
             | Some cols =>
                 fold_left (fun f kv => oset (fst kv) (snd kv) f) cols fields
             | None => fields
             end).
  unfold okeys.
  destruct (filter isGeoPointField f') as [|x [|y l]] eqn:G; simpl;
    try discriminate;
    intros H; (split; [exact S|]); rewrite G; (split; [simpl; lia|]);
    destruct (validateCLP clp f') as [[]|t]; try reflexivity; discriminate.
Qed.

Lemma validateSchemaData_sound_witness :
  (forall k d, In (k, d) [("spot", ty "GeoPoint")] -> str_mem k [] = false ->
     fieldNameIsValid k = true
     /\ fieldNameIsValidForClass k "Place" = true
     /\ fieldTypeIsInvalid d = Ok None)
  /\ List.length
       (filter isGeoPointField
          (snd (validateSchemaData "Place" [("spot", ty "GeoPoint")]
                  JUndefined []))) <= 1
  /\ validateCLP JUndefined
       (snd (validateSchemaData "Place" [("spot", ty "GeoPoint")]
               JUndefined [])) = Ok tt.
Proof.
  apply (validateSchemaData_sound "Place" [("spot", ty "GeoPoint")]
           JUndefined []).
  reflexivity.
Defined.

(** ** Creating a class and deleting a field *)

Section ClassesAndFields.

Context {DB C : Type} {adapter : StorageAdapter DB} {schemaCache : SchemaCache C}.

(** X21.  [addClassIfNotExists] fails before any call of the adapter or
    the cache when the validation of the new class does; a schema it
    answers with is in the public shape; and a rejection of the adapter
    with the duplicate-value code comes back as "Class ... already
    exists." *)
Theorem addClassIfNotExists_outcomes (w : World DB C) (className : string)
  (fields : Props) (clp : JsVal) :
  let validation := validateNewClass (data w) className fields clp in
  let adapterSchema :=
    convertSchemaToAdapterSchema (mkSchema className (snd validation) clp) in
  (fst validation <> Ok None ->
   snd (addClassIfNotExists className fields clp w) = w
   /\ exists e, fst (addClassIfNotExists className fields clp w) = Throw e)
  /\ (forall res,
        fst (addClassIfNotExists className fields clp w) = Ok res ->
        publicShape res)
  /\ (fst validation = Ok None ->
      forall m,
        fst (db_createClass className adapterSchema (db w))
        = Throw (ParseErr (mkError DUPLICATE_VALUE m)) ->
        fst (addClassIfNotExists className fields clp w)
        = Throw (alreadyExists className)).
Proof.
  intros validation adapterSchema.
  remember (addClassIfNotExists className fields clp w) as r eqn:Hr.
  unfold addClassIfNotExists in Hr. unfold mbind at 1 in Hr.
  unfold get_data in Hr. cbv beta iota in Hr.
  fold validation in Hr.
  subst adapterSchema.
  destruct validation as [[[e|]|t] f']; cbn [fst snd].
  - unfold mbind, lift, throw in Hr. subst r.
    split; [intros _; split; [reflexivity | eexists; reflexivity]|].
    split; [discriminate | congruence].
  - split; [congruence|].
    unfold mbind at 1, lift in Hr. cbv beta iota in Hr.
    unfold mcatch, mbind, call_db in Hr.
    destruct (db_createClass _ _ (db w)) as [[created|t] d'] eqn:E;
      cbn [fst snd] in *.
    + subst r. split; [|discriminate].
      intros res [= <-]. apply convertAdapterSchemaToParseSchema_shape.
    + split; [subst r; destruct t as [[[] ?]| | |]; discriminate|].
      intros _ m [= ->]. subst r. reflexivity.
  - unfold mbind, lift in Hr. subst r.
    split; [intros _; split; [reflexivity | eexists; reflexivity]|].
    split; [discriminate | congruence].
Qed.

(** X22.  [deleteField] of a field that may be deleted asks the adapter
    for the class.  When the adapter rejects with no reason the answer is
    "Class ... does not exist."; when the schema it answers with, defaults
    included, does not have the field the answer is "Field ... does not
    exist, cannot delete.", and the adapter has been asked nothing else. *)
Theorem deleteField_missing (w : World DB C) (fieldName className : string) :
  classNameIsValid className = true ->
  fieldNameIsValidForClass fieldName className = true ->
  (fst (db_getClass className (db w)) = Throw Undef ->
   fst (deleteField fieldName className w) = Throw (classDoesNotExist className))
  /\ (forall schema,
        fst (db_getClass className (db w)) = Ok schema ->
        truthy (oget fieldName (fields (injectDefaultSchema schema))) = false ->
        fst (deleteField fieldName className w)
        = Throw (fieldDoesNotExist fieldName)
        /\ db (snd (deleteField fieldName className w))
           = snd (db_getClass className (db w))).
Proof.
  intros Hc Hf.
  assert (Hv : fieldNameIsValid fieldName = true)
    by (unfold fieldNameIsValidForClass in Hf;
        destruct (fieldNameIsValid fieldName); [reflexivity | discriminate]).
  remember (deleteField fieldName className w) as r eqn:Hr.
  unfold deleteField in Hr. rewrite Hc, Hv, Hf in Hr. cbn [negb] in Hr.
  unfold mbind at 1, mcatch, getOneSchema in Hr.
  unfold mbind at 1, when, write_cache in Hr. cbv beta iota in Hr.
  unfold mbind at 1, read_cache in Hr. cbn [cache db data perms] in Hr.
  destruct (cache_getOneSchema className (cache_clear (cache w)))
    as [cached c'].
  destruct cached as [s0|]; cbn [negb] in Hr; cbv iota in Hr;
    unfold mbind at 1, call_db in Hr; cbn [cache db data perms] in Hr;
    (destruct (db_getClass className (db w)) as [[schema|t] d'];
     cbn [fst snd] in *;
     [ split; [discriminate|];
       intros s [= <-] Hmiss;
       unfold mbind at 1, ret in Hr; cbv beta iota in Hr;
       rewrite Hmiss in Hr; cbn [negb] in Hr;
       subst r; split; reflexivity
     | split; [|discriminate]; intros [= ->]; subst r; reflexivity ]).
Qed.

End ClassesAndFields.

Lemma addClassIfNotExists_outcomes_witness :
  snd (addClassIfNotExists "my-class" [] JUndefined (Mem.world []))
  = Mem.world []
  /\ fst (addClassIfNotExists "Game" [] JUndefined
            (Mem.world [mkSchema "Game" [] JUndefined]))
     = Throw (alreadyExists "Game").
Proof.
  split.
  - apply (proj1 (addClassIfNotExists_outcomes (Mem.world []) "my-class" []
                    JUndefined)).
    discriminate.
  - apply (proj2 (proj2 (addClassIfNotExists_outcomes
                           (Mem.world [mkSchema "Game" [] JUndefined])
                           "Game" [] JUndefined)) eq_refl
             "Class already exists.").
    reflexivity.
Defined.

Lemma deleteField_missing_witness :
  fst (deleteField "score" "Game" (Mem.world []))
  = Throw (classDoesNotExist "Game")
  /\ fst (deleteField "score" "Game"
            (Mem.world [mkSchema "Game" [] JUndefined]))
     = Throw (fieldDoesNotExist "score").
Proof.
  split.
  - apply (proj1 (deleteField_missing (Mem.world []) "score" "Game"
                    eq_refl eq_refl)).
    reflexivity.
  - apply (proj2 (deleteField_missing
                    (Mem.world [mkSchema "Game" [] JUndefined])
                    "score" "Game" eq_refl eq_refl)
             (mkSchema "Game" [] JUndefined)); reflexivity.
Defined.

(** ** Objects as ordered lists of properties *)

Lemma lookup_ospread (k : string) (a b : Props) :
  NoDup (okeys b) ->
  lookup k (ospread a b)
  = match lookup k b with Some v => Some v | None => lookup k a end.
Proof.
  intros N. unfold ospread.
  destruct (lookup k b) as [v|] eqn:L.
  - now apply lookup_assign_all.
  - apply lookup_assign_all_other. now apply lookup_None_okeys.
Qed.

Lemma oset_absent (k : string) (v : JsVal) (o : Props) :
  ~ In k (okeys o) -> oset k v o = o ++ [(k, v)].
Proof.
  induction o as [|[k' v'] o IH]; simpl; [reflexivity|].
  intros H. destruct (String.eqb k k') eqn:E.
  - apply String.eqb_eq in E. subst k'. tauto.
  - rewrite IH by tauto. reflexivity.
Qed.

Lemma okeys_oset (k : string) (v : JsVal) (o : Props) :
  okeys (oset k v o) = okeys o \/ okeys (oset k v o) = okeys o ++ [k].
Proof.
  induction o as [|[k' v'] o IH]; simpl; [now right|].
  destruct (String.eqb k k') eqn:E; simpl.
  - apply String.eqb_eq in E. subst k'. now left.
  - destruct IH as [-> | ->]; [now left | now right].
Qed.

Lemma okeys_ospread (a b : Props) :
  exists more, okeys (ospread a b) = okeys a ++ more.
Proof.
  unfold ospread. revert a.
  induction b as [|[k v] b IH]; intros a; simpl.
  - exists []. now rewrite app_nil_r.
  - destruct (IH (oset k v a)) as [more ->].
    destruct (okeys_oset k v a) as [-> | ->]; [now exists more|].
    exists (k :: more). now rewrite <- app_assoc.
Qed.

Lemma In_okeys_oset (x k : string) (v : JsVal) (o : Props) :
  In x (okeys (oset k v o)) -> x = k \/ In x (okeys o).
Proof.
  destruct (okeys_oset k v o) as [-> | ->]; [tauto|].
  rewrite in_app_iff. simpl. intuition.
Qed.

Lemma NoDup_okeys_oset (k : string) (v : JsVal) (o : Props) :
  NoDup (okeys o) -> NoDup (okeys (oset k v o)).
Proof.
  induction o as [|[k' v'] o IH]; simpl; intros N.
  - constructor; [tauto | constructor].
  - inversion N as [|? ? Hn N']; subst.
    destruct (String.eqb k k') eqn:E; simpl.
    + apply String.eqb_eq in E. subst k'. now constructor.
    + apply String.eqb_neq in E. constructor; [|auto].
      intros Hin. apply In_okeys_oset in Hin as [-> | Hin]; tauto.
Qed.

Lemma NoDup_okeys_ospread (a b : Props) :
  NoDup (okeys a) -> NoDup (okeys (ospread a b)).
Proof.
  unfold ospread. revert a.
  induction b as [|[k v] b IH]; intros a N; simpl; [exact N|].
  apply IH. now apply NoDup_okeys_oset.
Qed.

Lemma ospread_cons_absent (k : string) (v : JsVal) (a b : Props) :
  ~ In k (okeys b) -> ospread ((k, v) :: a) b = (k, v) :: ospread a b.
Proof.
  unfold ospread. revert a.
  induction b as [|[k' v'] b IH]; intros a H; simpl in *; [reflexivity|].
  destruct (String.eqb k' k) eqn:E.
  - apply String.eqb_eq in E. tauto.
  - apply IH. tauto.
Qed.

Lemma ospread_same_keys (a b : Props) :
  okeys b = okeys a -> NoDup (okeys b) -> ospread a b = b.
Proof.
  revert a. induction b as [|[k v] b IH]; intros [|[k0 v0] a] K N;
    simpl in K; try discriminate; [reflexivity|].
  injection K as <- K. inversion N as [|? ? Hn N']; subst.
  change (ospread ((k, v0) :: a) ((k, v) :: b))
    with (ospread (oset k v ((k, v0) :: a)) b).
  simpl. rewrite String.eqb_refl.
  rewrite ospread_cons_absent by exact Hn.
  now rewrite IH.
Qed.

Lemma ospread_disjoint (a b : Props) :
  NoDup (okeys b) -> (forall k, In k (okeys b) -> ~ In k (okeys a)) ->
  ospread a b = a ++ b.
Proof.
  revert a. induction b as [|[k v] b IH]; intros a N D.
  - simpl. now rewrite app_nil_r.
  - inversion N as [|? ? Hn N']; subst.
    change (ospread a ((k, v) :: b)) with (ospread (oset k v a) b).
    rewrite oset_absent by (apply D; now left).
    rewrite IH; [now rewrite <- app_assoc | exact N' |].
    intros x Hx. unfold okeys. rewrite map_app, in_app_iff. simpl.
    intros [Ha | [<- | []]]; [|tauto].
    apply (D x); [now right | exact Ha].
Qed.

Lemma ospread_app (a b c : Props) :
  ospread a (b ++ c) = ospread (ospread a b) c.
Proof. unfold ospread. apply fold_left_app. Qed.

Lemma NoDup_app_disjoint (l1 l2 : list string) (x : string) :
  NoDup (l1 ++ l2) -> In x l1 -> In x l2 -> False.
Proof.
  induction l1 as [|y l1 IH]; simpl; [tauto|].
  intros N [-> | H1] H2; inversion N as [|? ? Hn N']; subst.
  - apply Hn, in_or_app. now right.
  - now apply IH.
Qed.

(** An object that was made by copying properties into [a] is left as it
    is when its properties are copied into [a] again. *)
Lemma ospread_absorbs (a o : Props) :
  NoDup (okeys o) -> (exists more, okeys o = okeys a ++ more) ->
  ospread a o = o.
Proof.
  intros N [more K].
  assert (K1 : okeys (firstn (List.length a) o) = okeys a).
  { unfold okeys in *. rewrite <- firstn_map, K.
    rewrite <- (length_map fst a).
    rewrite firstn_app, Nat.sub_diag, firstn_all. simpl.
    apply app_nil_r. }
  assert (N' : NoDup (okeys (firstn (List.length a) o)
                      ++ okeys (skipn (List.length a) o))).
  { unfold okeys. rewrite <- map_app, firstn_skipn. exact N. }
  rewrite <- (firstn_skipn (List.length a) o).
  rewrite ospread_app.
  rewrite (ospread_same_keys a (firstn (List.length a) o));
    [| exact K1 | eapply NoDup_app_remove_r; exact N'].
  apply ospread_disjoint; [eapply NoDup_app_remove_l; exact N'|].
  intros k H2 H1. exact (NoDup_app_disjoint _ _ k N' H1 H2).
Qed.

(** ** The default columns of a schema *)

Lemma classColumns_distinct (className : string) :
  NoDup (okeys (classColumns className)).
Proof.
  unfold classColumns.
  destruct (defaultColumnsFor className) as [cols|] eqn:E.
  - eapply defaultColumns_distinct; exact E.
  - constructor.
Qed.

Lemma defaultColumns_Default_distinct : NoDup (okeys defaultColumns_Default).
Proof. apply (defaultColumns_distinct "_Default"). reflexivity. Qed.

(** X23.  In the fields of [injectDefaultSchema] a field of the schema
    keeps its declaration, also when a default column has its name; a
    class-specific default column comes before a column of [_Default]
    with the same name; and there are no other fields. *)
Theorem injectDefaultSchema_lookup (s : Schema) (k : string) :
  NoDup (okeys (fields s)) ->
  lookup k (fields (injectDefaultSchema s))
  = match lookup k (fields s) with
    | Some d => Some d
    | None =>
        match lookup k (classColumns (className s)) with
        | Some d => Some d
        | None => lookup k defaultColumns_Default
        end
    end.
Proof.
  intros N. unfold injectDefaultSchema. cbn [fields].
  fold (classColumns (className s)).
  rewrite lookup_ospread by exact N.
  rewrite lookup_ospread by apply classColumns_distinct.
  reflexivity.
Qed.

Lemma injectDefaultSchema_lookup_witness :
  lookup "ACL"
    (fields (injectDefaultSchema
               (mkSchema "_Role" [("ACL", ty "Object")] JUndefined)))
  = Some (ty "Object").
Proof.
  rewrite (injectDefaultSchema_lookup
             (mkSchema "_Role" [("ACL", ty "Object")] JUndefined) "ACL").
  - reflexivity.
  - apply distinct_NoDup. reflexivity.
Defined.

(** X24.  [injectDefaultSchema] is idempotent: a schema that has its
    default columns is left as it is, with its fields in the same
    order. *)
Theorem injectDefaultSchema_idempotent (s : Schema) :
  injectDefaultSchema (injectDefaultSchema s) = injectDefaultSchema s.
Proof.
  unfold injectDefaultSchema. cbn [className fields classLevelPermissions].
  f_equal.
  apply ospread_absorbs.
  - apply NoDup_okeys_ospread, NoDup_okeys_ospread,
      defaultColumns_Default_distinct.
  - apply okeys_ospread.
Qed.

(** X25.  The two conversions between the public and the adapter
    representation leave every field other than [ACL], [_rperm],
    [_wperm], [password], [_hashed_password] and [authData] as it is,
    where the conversion to the adapter representation starts from the
    schema with its default columns. *)
Theorem conversions_frame (s : Schema) (k : string) :
  ~ In k conversionFields ->
  lookup k (fields (convertAdapterSchemaToParseSchema s))
  = lookup k (fields s)
  /\ lookup k (fields (convertSchemaToAdapterSchema s))
     = lookup k (fields (injectDefaultSchema s)).
Proof.
  unfold conversionFields. simpl. intros H.
  assert (N1 : k <> "ACL") by (intros ->; tauto).
  assert (N2 : k <> "_rperm") by (intros ->; tauto).
  assert (N3 : k <> "_wperm") by (intros ->; tauto).
  assert (N4 : k <> "password") by (intros ->; tauto).
  assert (N5 : k <> "_hashed_password") by (intros ->; tauto).
  assert (N6 : k <> "authData") by (intros ->; tauto).
  unfold convertAdapterSchemaToParseSchema, convertSchemaToAdapterSchema.
  cbn [fields className injectDefaultSchema].
  split.
  - destruct (String.eqb (className s) "_User");
      repeat (first [ rewrite lookup_oset_other by assumption
                    | rewrite lookup_odelete_other by assumption ]);
      reflexivity.
  - destruct (String.eqb (className s) "_User");
      repeat (first [ rewrite lookup_oset_other by assumption
                    | rewrite lookup_odelete_other by assumption ]);
      reflexivity.
Qed.

Lemma conversions_frame_witness :
  lookup "score"
    (fields (convertAdapterSchemaToParseSchema
               (mkSchema "Game" [("score", ty "Number")] JUndefined)))
  = lookup "score" [("score", ty "Number")]
  /\ lookup "score"
       (fields (convertSchemaToAdapterSchema
                  (mkSchema "Game" [("score", ty "Number")] JUndefined)))
     = lookup "score"
         (fields (injectDefaultSchema
                    (mkSchema "Game" [("score", ty "Number")] JUndefined))).
Proof.
  apply (conversions_frame
           (mkSchema "Game" [("score", ty "Number")] JUndefined) "score").
  unfold conversionFields. simpl.
  intros [H | [H | [H | [H | [H | [H | []]]]]]]; discriminate.
Defined.

(** ** Merging a put request into a schema *)

Lemma isSys_mem (k : string) (sys : list string) :
  Nat.ltb 0 (List.length sys) && str_mem k sys = str_mem k sys.
Proof. destruct sys; reflexivity. Qed.

Lemma isDeleteOp_truthy (v : JsVal) : isDeleteOp v = true -> truthy v = true.
Proof.
  assert (I : index_of_key "__op" = None) by reflexivity.
  unfold isDeleteOp, prop, vget. rewrite I.
  destruct v; simpl; intros H; try discriminate; reflexivity.
Qed.

Lemma isDeleteOp_vget (v op : JsVal) :
  vget "__op" v = Ok op -> is_str "Delete" op = isDeleteOp v.
Proof. unfold isDeleteOp, prop. now intros ->. Qed.

Lemma merge_first_loop (sys : list string) (put : Props) (k : string) :
  forall (l acc : Props), NoDup (okeys l) ->
  lookup k
    (fold_left (fun newSchema kv =>
       let oldField := fst kv in
       if negb (str_mem oldField
                  ["_id"; "ACL"; "updatedAt"; "createdAt"; "objectId"]) then
         if Nat.ltb 0 (List.length sys) && str_mem oldField sys then newSchema
         else
           let r := oget oldField put in
           let fieldIsDeleted := truthy r && is_str "Delete" (prop "__op" r) in
           if negb fieldIsDeleted then oset oldField (snd kv) newSchema
           else newSchema
       else newSchema) l acc)
  = match lookup k l with
    | Some v =>
        if str_mem k mergeProtected || str_mem k sys
           || (truthy (oget k put) && isDeleteOp (oget k put))
        then lookup k acc else Some v
    | None => lookup k acc
    end.
Proof.
  induction l as [|[k' v'] l IH]; intros acc N; [reflexivity|].
  inversion N as [|? ? Hn N']; subst.
  cbn [fold_left]. rewrite IH by exact N'. cbn [fst snd lookup].
  cbv zeta. rewrite isSys_mem. fold (isDeleteOp (oget k' put)).
  fold mergeProtected.
  destruct (String.eqb k k') eqn:E.
  - apply String.eqb_eq in E. subst k'.
    rewrite (proj2 (lookup_None_okeys k l) Hn).
    destruct (str_mem k mergeProtected); [reflexivity|].
    destruct (str_mem k sys); [reflexivity|].
    destruct (truthy (oget k put) && isDeleteOp (oget k put));
      [reflexivity|].
    apply lookup_oset_same.
  - apply String.eqb_neq in E.
    assert (L : lookup k
                  (if negb (str_mem k' mergeProtected)
                   then if str_mem k' sys then acc
                        else if negb (truthy (oget k' put)
                                      && isDeleteOp (oget k' put))
                             then oset k' v' acc else acc
                   else acc) = lookup k acc).
    { destruct (str_mem k' mergeProtected); [reflexivity|].
      destruct (str_mem k' sys); [reflexivity|].
      destruct (truthy (oget k' put) && isDeleteOp (oget k' put));
        [reflexivity|].
      now apply lookup_oset_other. }
    rewrite L. reflexivity.
Qed.

Lemma merge_second_loop_throw (sys : list string) (t : Thrown) :
  forall (l : Props),
  fold_left (fun acc kv =>
    newSchema <- acc ;;
    let newField := fst kv in
    if String.eqb newField "objectId" then Ok newSchema
    else
      op <- vget "__op" (snd kv) ;;
      if negb (is_str "Delete" op) then
        if Nat.ltb 0 (List.length sys) && str_mem newField sys
        then Ok newSchema
        else Ok (oset newField (snd kv) newSchema)
      else Ok newSchema) l (Throw t) = Throw t.
Proof. induction l as [|kv l IH]; [reflexivity | exact IH]. Qed.

Lemma merge_second_loop (sys : list string) (k : string) :
  forall (l acc m : Props), NoDup (okeys l) ->
  fold_left (fun acc kv =>
    newSchema <- acc ;;
    let newField := fst kv in
    if String.eqb newField "objectId" then Ok newSchema
    else
      op <- vget "__op" (snd kv) ;;
      if negb (is_str "Delete" op) then
        if Nat.ltb 0 (List.length sys) && str_mem newField sys
        then Ok newSchema
        else Ok (oset newField (snd kv) newSchema)
      else Ok newSchema) l (Ok acc) = Ok m ->
  lookup k m
  = match lookup k l with
    | Some v =>
        if String.eqb k "objectId" || isDeleteOp v || str_mem k sys
        then lookup k acc else Some v
    | None => lookup k acc
    end.
Proof.
  induction l as [|[k' v'] l IH]; intros acc m N H.
  - injection H as <-. reflexivity.
  - inversion N as [|? ? Hn N']; subst.
    cbn [fold_left rbind fst snd] in H. cbv zeta in H.
    rewrite isSys_mem in H.
    assert (S : exists acc',
               fold_left (fun acc kv =>
                 newSchema <- acc ;;
                 let newField := fst kv in
                 if String.eqb newField "objectId" then Ok newSchema
                 else
                   op <- vget "__op" (snd kv) ;;
                   if negb (is_str "Delete" op) then
                     if Nat.ltb 0 (List.length sys) && str_mem newField sys
                     then Ok newSchema
                     else Ok (oset newField (snd kv) newSchema)
                   else Ok newSchema) l (Ok acc') = Ok m
               /\ acc' = (if String.eqb k' "objectId" || isDeleteOp v'
                             || str_mem k' sys
                          then acc else oset k' v' acc)).
    { destruct (String.eqb k' "objectId"); [now exists acc|].
      destruct (vget "__op" v') as [op|t] eqn:V; cbn [rbind] in H.
      - rewrite (isDeleteOp_vget _ _ V) in H.
        destruct (isDeleteOp v'); cbn [negb orb] in *; [now exists acc|].
        destruct (str_mem k' sys); eauto.
      - rewrite merge_second_loop_throw in H. discriminate. }
    destruct S as (acc' & H' & ->).
    rewrite (IH _ _ N' H'). cbn [lookup].
    destruct (String.eqb k k') eqn:E.
    + apply String.eqb_eq in E. subst k'.
      rewrite (proj2 (lookup_None_okeys k l) Hn).
      destruct (String.eqb k "objectId" || isDeleteOp v' || str_mem k sys);
        [reflexivity | apply lookup_oset_same].
    + apply String.eqb_neq in E.
      assert (L : lookup k
                    (if String.eqb k' "objectId" || isDeleteOp v'
                        || str_mem k' sys
                     then acc else oset k' v' acc) = lookup k acc).
      { destruct (String.eqb k' "objectId" || isDeleteOp v' || str_mem k' sys);
          [reflexivity | now apply lookup_oset_other]. }
      rewrite L. reflexivity.
Qed.

(** X26.  The schema that [buildMergedSchemaObject] answers with has a
    submitted field with its submitted value unless the field is
    [objectId], is submitted for deletion or is a default column of the
    class named by [_id]; it has a field that was not submitted as in the
    existing schema unless the field is [_id], [ACL], [updatedAt],
    [createdAt], [objectId] or such a default column; and it has no other
    field. *)
Theorem buildMergedSchemaObject_lookup (existingFields putRequest merged : Props)
  (k : string) :
  NoDup (okeys existingFields) -> NoDup (okeys putRequest) ->
  buildMergedSchemaObject existingFields putRequest = Ok merged ->
  lookup k merged
  = match lookup k putRequest with
    | Some v =>
        if String.eqb k "objectId" || isDeleteOp v
           || str_mem k (sysSchemaField existingFields)
        then None else Some v
    | None =>
        if str_mem k mergeProtected
           || str_mem k (sysSchemaField existingFields)
        then None else lookup k existingFields
    end.
Proof.
  intros Ne Np H. unfold buildMergedSchemaObject in H. cbv zeta in H.
  fold (sysSchemaField existingFields) in H.
  rewrite (merge_second_loop _ k _ _ _ Np H).
  rewrite (merge_first_loop _ putRequest k _ [] Ne). cbn [lookup].
  unfold oget at 1 2.
  destruct (lookup k putRequest) as [v|] eqn:Lp.
  - destruct (String.eqb k "objectId") eqn:O.
    + apply String.eqb_eq in O. subst k. cbn [orb].
      now destruct (lookup "objectId" existingFields).
    + cbn [orb]. destruct (isDeleteOp v) eqn:D.
      * cbn [orb]. rewrite (isDeleteOp_truthy _ D). cbn [andb].
        rewrite orb_true_r. now destruct (lookup k existingFields).
      * cbn [orb]. destruct (str_mem k (sysSchemaField existingFields));
          [|reflexivity].
        rewrite orb_true_r. cbn [orb].
        now destruct (lookup k existingFields).
  - unfold oget. rewrite Lp. cbn [truthy andb]. rewrite orb_false_r.
    destruct (lookup k existingFields);
      now destruct (str_mem k mergeProtected
                    || str_mem k (sysSchemaField existingFields)).
Qed.

Lemma buildMergedSchemaObject_lookup_witness :
  lookup "old" [("score", ty "Number"); ("level", ty "Number")]
  = match lookup "old" [("old", JObj [("__op", JStr "Delete")]);
                        ("level", ty "Number")] with
    | Some v =>
        if String.eqb "old" "objectId" || isDeleteOp v
           || str_mem "old"
                (sysSchemaField [("score", ty "Number"); ("old", ty "String")])
        then None else Some v
    | None =>
        if str_mem "old" mergeProtected
           || str_mem "old"
                (sysSchemaField [("score", ty "Number"); ("old", ty "String")])
        then None
        else lookup "old" [("score", ty "Number"); ("old", ty "String")]
    end.
Proof.
  apply (buildMergedSchemaObject_lookup
           [("score", ty "Number"); ("old", ty "String")]
           [("old", JObj [("__op", JStr "Delete")]); ("level", ty "Number")]).
  - apply distinct_NoDup. reflexivity.
  - apply distinct_NoDup. reflexivity.
  - reflexivity.
Defined.

(** ** Updating a class *)

Lemma checkSubmitted_fields (existingFields submittedFields : Props) :
  checkSubmitted existingFields submittedFields = Ok tt ->
  forall name field, In (name, field) submittedFields ->
    isDeleteOp field = truthy_at name existingFields
    /\ not_nullish field = true.
Proof.
  induction submittedFields as [|[n f] rest IH]; [intros _ ? ? []|].
  cbn [checkSubmitted]. cbv zeta. intros H name field Hin.
  destruct (vget_cases "__op" f) as [[_ V] | [NN [op V]]].
  - rewrite V in H. cbn [rbind] in H.
    destruct (truthy_at n existingFields); discriminate.
  - rewrite V in H.
    destruct (truthy_at n existingFields) eqn:T; cbn [rbind negb] in H.
    + destruct (is_str "Delete" op) eqn:D; cbn [negb] in H; [|discriminate].
      destruct Hin as [[= <- <-] | Hin]; [|now apply IH].
      rewrite <- (isDeleteOp_vget _ _ V), D, T. auto.
    + destruct (is_str "Delete" op) eqn:D; [discriminate|].
      destruct Hin as [[= <- <-] | Hin]; [|now apply IH].
      rewrite <- (isDeleteOp_vget _ _ V), D, T. auto.
Qed.

(** Where [Object.prototype] has nothing to say, [o[k]] is the own
    property. *)
Lemma truthy_at_not_inherited (k : string) (o : Props) :
  inherited k = false -> truthy_at k o = truthy (oget k o).
Proof.
  intros I. unfold truthy_at, oget. destruct (lookup k o); [reflexivity|].
  exact I.
Qed.

(** X27.  A submission that passes the first loop of [updateClass] asks
    for the deletion of exactly those of its fields that
    [existingFields] answers to, with a field of the class or with a
    property inherited from [Object.prototype]; for a name that
    [Object.prototype] does not define these are the fields the class
    has, so that each such submitted field is either a deletion of an
    existing field or the addition of a field that is not there; and no
    submitted value is [null] or [undefined]. *)
Theorem checkSubmitted_sound (existingFields submittedFields : Props)
  (name : string) (field : JsVal) :
  checkSubmitted existingFields submittedFields = Ok tt ->
  In (name, field) submittedFields ->
  isDeleteOp field = truthy_at name existingFields
  /\ (inherited name = false ->
      isDeleteOp field = truthy (oget name existingFields))
  /\ not_nullish field = true.
Proof.
  intros H Hin.
  destruct (checkSubmitted_fields _ _ H name field Hin) as [D N].
  split; [exact D|]. split; [|exact N].
  intros I. rewrite D. now apply truthy_at_not_inherited.
Qed.

Lemma checkSubmitted_sound_witness :
  isDeleteOp (JObj [("__op", JStr "Delete")])
  = truthy_at "toString" [("score", ty "Number")]
  /\ (inherited "toString" = false ->
      isDeleteOp (JObj [("__op", JStr "Delete")])
      = truthy (oget "toString" [("score", ty "Number")]))
  /\ not_nullish (JObj [("__op", JStr "Delete")]) = true.
Proof.
  apply (checkSubmitted_sound [("score", ty "Number")]
           [("toString", JObj [("__op", JStr "Delete")]);
            ("level", ty "Number")]).
  - reflexivity.
  - now left.
Defined.

Lemma merge_second_loop_total (sys : list string) :
  forall (l acc : Props),
  (forall name field, In (name, field) l -> not_nullish field = true) ->
  exists m,
    fold_left (fun acc kv =>
      newSchema <- acc ;;
      let newField := fst kv in
      if String.eqb newField "objectId" then Ok newSchema
      else
        op <- vget "__op" (snd kv) ;;
        if negb (is_str "Delete" op) then
          if Nat.ltb 0 (List.length sys) && str_mem newField sys
          then Ok newSchema
          else Ok (oset newField (snd kv) newSchema)
        else Ok newSchema) l (Ok acc) = Ok m.
Proof.
  induction l as [|[n f] l IH]; intros acc NN; [now exists acc|].
  cbn [fold_left rbind fst snd]. cbv zeta.
  assert (NN' : forall name field, In (name, field) l ->
                                   not_nullish field = true)
    by (intros; eapply NN; right; eauto).
  destruct (String.eqb n "objectId"); [now apply IH|].
  destruct (vget_cases "__op" f) as [[N _] | [_ [op ->]]].
  - rewrite (NN n f) in N by now left. discriminate.
  - cbn [rbind].
    destruct (negb (is_str "Delete" op)); [|now apply IH].
    destruct (Nat.ltb 0 (List.length sys) && str_mem n sys); now apply IH.
Qed.

(** X28.  After the first loop of [updateClass] has passed a submission,
    [buildMergedSchemaObject] answers with a schema for it, whatever the
    existing fields are: the merge does not fail on a submitted value. *)
Theorem checkSubmitted_then_merge (existingFields existingFields' : Props)
  (submittedFields : Props) :
  checkSubmitted existingFields submittedFields = Ok tt ->
  exists merged,
    buildMergedSchemaObject existingFields' submittedFields = Ok merged.
Proof.
  intros H. unfold buildMergedSchemaObject. cbv zeta.
  apply merge_second_loop_total.
  intros name field Hin.
  exact (proj2 (checkSubmitted_fields _ _ H name field Hin)).
Qed.

Lemma checkSubmitted_then_merge_witness :
  exists merged,
    buildMergedSchemaObject [("score", ty "Number")]
      [("score", JObj [("__op", JStr "Delete")]); ("level", ty "Number")]
    = Ok merged.
Proof.
  apply (checkSubmitted_then_merge [("score", ty "Number"); ("_rperm", ty "Array")]
           [("score", ty "Number")]).
  reflexivity.
Defined.

(** ** Required columns on an update *)

Lemma filter_none {A : Type} (f : A -> bool) (l : list A) :
  (forall x, In x l -> f x = false) -> filter f l = [].
Proof.
  induction l as [|x l IH]; intros H; simpl; [reflexivity|].
  rewrite (H x) by now left. apply IH. intros y Hy. apply H. now right.
Qed.

Lemma requiredColumns_own (className : string) (columns : list string) :
  requiredColumnsFor className requiredColumns = Some columns ->
  inherited className = false.
Proof.
  unfold requiredColumns. cbn [requiredColumnsFor].
  destruct (String.eqb className "_Product") eqn:P;
    [apply String.eqb_eq in P; subst; reflexivity|].
  destruct (String.eqb className "_Role") eqn:R;
    [apply String.eqb_eq in R; subst; reflexivity | discriminate].
Qed.

(** X29.  On an update, which is a call with a query that has an
    [objectId], [validateRequiredColumns] accepts every object that
    submits no required column of the class with the operation
    [Delete]: the required columns need not be in the object.  The class
    names it does not accept are those for which [requiredColumns]
    inherits a value without a [length] of zero from [Object.prototype]:
    for them the call ends in a type error, whatever the object is. *)
Theorem validateRequiredColumns_update (className : string) (object : Props)
  (query : JsVal) :
  truthy query = true -> truthy (prop "objectId" query) = true ->
  (forall columns column,
     requiredColumnsFor className requiredColumns = Some columns ->
     In column columns ->
     loose_eq_lit "Delete" (prop "__op" (oget column object)) = false) ->
  validateRequiredColumns className object query
  = if inherited className && negb (inheritedLengthIsZero className)
    then Throw TypeErr else Ok tt.
Proof.
  intros Q O H. unfold validateRequiredColumns.
  destruct (requiredColumnsFor className requiredColumns) as [[|c cols]|]
    eqn:R; try reflexivity;
    try (rewrite (requiredColumns_own _ _ R)); try reflexivity.
  rewrite filter_none; [reflexivity|].
  intros column Hin. unfold isMissingColumn. rewrite Q, O. cbn [andb].
  rewrite (H _ column eq_refl Hin).
  now destruct (truthy (oget column object) && is_object (oget column object)).
Qed.

Lemma validateRequiredColumns_update_witness :
  validateRequiredColumns "_Role" [("label", JStr "x")]
    (JObj [("objectId", JStr "r1")])
  = if inherited "_Role" && negb (inheritedLengthIsZero "_Role")
    then Throw TypeErr else Ok tt.
Proof.
  apply validateRequiredColumns_update; [reflexivity | reflexivity |].
  intros columns column [= <-] Hin.
  simpl in Hin. destruct Hin as [<- | [<- | []]]; reflexivity.
Defined.

(** ** Reloads without [clearCache] *)

(** X30.  As long as no call of [reloadData] sets [clearCache], at most
    one reload is in flight, and a call made while one is in flight is
    handed the promise of that reload and starts no fetch of its own. *)
Theorem reload_single_flight (events : list Reload.Event) :
  forallb unforced events = true ->
  let st := Reload.run events in
  List.length (Reload.pending st) <= 1
  /\ (Reload.inFlight st = true ->
      In (fst (Reload.call false st)) (Reload.pending st)
      /\ Reload.fetches (snd (Reload.call false st)) = Reload.fetches st).
Proof.
  intros Hu st.
  assert (K : keptIsPending st).
  { subst st. unfold Reload.run.
    apply unforced_run_kept; [exact Hu | reflexivity]. }
  unfold keptIsPending in K. unfold Reload.inFlight. rewrite K.
  destruct (Reload.reloadDataPromise st) as [p|] eqn:E.
  - split; [simpl; lia|]. intros _.
    rewrite (reload_shares_kept_promise st p E). simpl. auto.
  - split; [simpl; lia | discriminate].
Qed.

Lemma reload_single_flight_witness :
  let st := Reload.run [Reload.Call false; Reload.Call false] in
  List.length (Reload.pending st) <= 1
  /\ (Reload.inFlight st = true ->
      In (fst (Reload.call false st)) (Reload.pending st)
      /\ Reload.fetches (snd (Reload.call false st)) = Reload.fetches st).
Proof.
  apply (reload_single_flight [Reload.Call false; Reload.Call false]).
  reflexivity.
Defined.
